(** * Recurring contracts: consumption windows and invoice grouping

    A shallow embedding of [contract.py] (module [contract] of Tryton):
    the recurrence-driven generation of consumptions
    ([Contract.get_consumptions], [Contract.consume],
    [Contract.check_start_date]) and the invoicing of consumptions
    ([ContractConsumption.get_invoice_line], [ContractConsumption.invoice]).

    Dates are proleptic Gregorian ordinals, as [datetime.date.toordinal]
    numbers them (day 1 is 0001-01-01).  Every [datetime] the program
    builds is a midnight ([todatetime] combines a date with
    [datetime.min.time()] and only whole days are ever added), hence a
    [datetime] is represented by the ordinal of its date. *)

From Stdlib Require Import ZArith List Bool Lia String QArith Qround.
From Stdlib Require Import Permutation Sorted.
From Stdlib Require OrderedTypeEx.
Import ListNotations.
Open Scope Z_scope.

(** ** Python exceptions and the result monad *)

Inductive exn : Type :=
| TypeError
| AttributeError
| OverflowError
| ZeroDivisionError
| ValueError
| UserError (msg : string)
| Unmodelled.

Inductive result (A : Type) : Type :=
| Ok (a : A)
| Raise (e : exn).
Arguments Ok {A} a.
Arguments Raise {A} e.

Definition bind {A B : Type} (r : result A) (f : A -> result B) : result B :=
  match r with
  | Ok a => f a
  | Raise e => Raise e
  end.

Notation "x <- r ;; k" := (bind r (fun x => k))
  (at level 61, r at next level, right associativity).
Notation "' pat <- r ;; k" := (bind r (fun x => match x with pat => k end))
  (at level 61, pat pattern, r at next level, right associativity).

(** ** The calendar of [datetime] *)

Module Calendar.

Definition MINYEAR : Z := 1.
Definition MAXYEAR : Z := 9999.

Definition is_leap (y : Z) : bool :=
  (y mod 4 =? 0) && (negb (y mod 100 =? 0) || (y mod 400 =? 0)).

Definition days_in_month (y m : Z) : Z :=
  if m =? 2 then (if is_leap y then 29 else 28)
  else if (m =? 4) || (m =? 6) || (m =? 9) || (m =? 11) then 30
  else 31.

(** [_days_before_year]: days before January 1st of year [y]. *)
Definition days_before_year (y : Z) : Z :=
  let y1 := y - 1 in y1 * 365 + y1 / 4 - y1 / 100 + y1 / 400.

(** [_DAYS_BEFORE_MONTH], for a common year. *)
Definition DAYS_BEFORE_MONTH (m : Z) : Z :=
  if m <=? 1 then 0 else if m =? 2 then 31 else if m =? 3 then 59
  else if m =? 4 then 90 else if m =? 5 then 120 else if m =? 6 then 151
  else if m =? 7 then 181 else if m =? 8 then 212 else if m =? 9 then 243
  else if m =? 10 then 273 else if m =? 11 then 304 else 334.

Definition days_before_month (y m : Z) : Z :=
  DAYS_BEFORE_MONTH m + (if (2 <? m) && is_leap y then 1 else 0).

(** [_ymd2ord] *)
Definition ymd2ord (y m d : Z) : Z :=
  days_before_year y + days_before_month y m + d.

Definition DI400Y : Z := 146097.
Definition DI100Y : Z := 36524.
Definition DI4Y : Z := 1461.

(** [_ord2ymd] *)
Definition ord2ymd (n : Z) : Z * Z * Z :=
  let n := n - 1 in
  let n400 := n / DI400Y in
  let n := n mod DI400Y in
  let year := n400 * 400 + 1 in
  let n100 := n / DI100Y in
  let n := n mod DI100Y in
  let n4 := n / DI4Y in
  let n := n mod DI4Y in
  let n1 := n / 365 in
  let n := n mod 365 in
  let year := year + n100 * 100 + n4 * 4 + n1 in
  if (n1 =? 4) || (n100 =? 4) then (year - 1, 12, 31)
  else
    let leapyear := (n1 =? 3) && (negb (n4 =? 24) || (n100 =? 3)) in
    let month := Z.shiftr (n + 50) 5 in
    let preceding :=
      DAYS_BEFORE_MONTH month + (if (2 <? month) && leapyear then 1 else 0) in
    if n <? preceding then
      let month := month - 1 in
      let preceding :=
        preceding
        - ((if month =? 2 then 28
            else if (month =? 4) || (month =? 6) || (month =? 9) || (month =? 11)
                 then 30 else 31)
           + (if (month =? 2) && leapyear then 1 else 0)) in
      (year, month, n - preceding + 1)
    else (year, month, n - preceding + 1).

(** Ordinals of [date.min] and [date.max]. *)
Definition MINORD : Z := 1.
Definition MAXORD : Z := 3652059.

(** The ordinal that precedes the first day of the month of index
    [12 * year + (month - 1)]. *)
Definition month_start (mi : Z) : Z :=
  days_before_year (mi / 12) + days_before_month (mi / 12) (mi mod 12 + 1).

End Calendar.

(** A date is its ordinal; [mkdate y m d] is [datetime.date(y, m, d)]. *)
Definition date : Type := Z.
Definition mkdate (y m d : Z) : date := Calendar.ymd2ord y m d.


Definition todatetime (d : date) : date := d.
Definition date_of (dt : date) : date := dt.

(** [d + relativedelta(days=n)]; Python raises [OverflowError] outside
    [date.min .. date.max]. *)
Definition add_days (d : date) (n : Z) : result date :=
  if (d + n <? Calendar.MINORD) || (Calendar.MAXORD <? d + n)
  then Raise OverflowError else Ok (d + n).

(** ** Bounded iteration

    [iterate d step s] runs [step] from [s] until it answers [inr], at most
    [2 ^ d] times.  It stands for a Python [for] loop over a generator that
    is left by [break], [return] or exhaustion. *)

Fixpoint iterate {S R : Type} (d : nat) (step : S -> S + R) (s : S) : S + R :=
  match d with
  | O => step s
  | Datatypes.S d' =>
      match iterate d' step s with
      | inl s' => iterate d' step s'
      | inr r => inr r
      end
  end.

(** The same loop with unary fuel, used to reason about [iterate]. *)
Fixpoint iterate_n {S R : Type} (n : nat) (step : S -> S + R) (s : S) : S + R :=
  match n with
  | O => inl s
  | Datatypes.S n' =>
      match step s with
      | inl s' => iterate_n n' step s'
      | inr r => inr r
      end
  end.

(** ** The recurrence rules of [dateutil.rrule]

    Only what [contract.py] uses: a rule built from [freq], [interval] and
    [dtstart] (a midnight), iterated by [between] and [after].  Without
    [by*] arguments, dateutil fills them from [dtstart]: a yearly rule keeps
    the month and the day of the month, a monthly rule the day of the month,
    a weekly rule the week day.  The generator visits one period (year,
    month, week, day) per turn, [interval] periods apart; a period in which
    the day does not exist (the 31st of a 30-day month, February 29th of a
    common year) yields nothing; the generator returns when the period
    starts after year [MAXYEAR]. *)

Module Dateutil.
Import Calendar.

Inductive Freq : Type := YEARLY | MONTHLY | WEEKLY | DAILY.

Record rrule : Type := mk_rrule {
  _freq : Freq;
  _interval : Z;
  _dtstart : date
}.

(** What the generator does in one period. *)
Inductive turn : Type :=
| Stop               (* the period lies after MAXYEAR: the generator returns *)
| Skip               (* the day does not exist in this period *)
| Yield (i : date)
| Fail.              (* date.fromordinal past date.max: ValueError *)

(** [date.weekday()], Monday is 0. *)
Definition weekday (d : date) : Z := (d + 6) mod 7.

Definition period (r : rrule) (k : Z) : turn :=
  let '(y, m, d) := ord2ymd (_dtstart r) in
  match _freq r with
  | YEARLY =>
      let y' := y + k * _interval r in
      if MAXYEAR <? y' then Stop
      else if d <=? days_in_month y' m then Yield (ymd2ord y' m d)
      else Skip
  | MONTHLY =>
      let mi := 12 * y + (m - 1) + k * _interval r in
      let y' := mi / 12 in
      let m' := mi mod 12 + 1 in
      if MAXYEAR <? y' then Stop
      else if d <=? days_in_month y' m' then Yield (ymd2ord y' m' d)
      else Skip
  | WEEKLY =>
      (* the first week starts at dtstart, the following ones on Monday *)
      let i := _dtstart r + 7 * (k * _interval r) in
      if k =? 0 then Yield (_dtstart r)
      else if MAXORD <? i - weekday (_dtstart r) then Stop
      else if MAXORD <? i then Fail
      else Yield i
  | DAILY =>
      let i := _dtstart r + k * _interval r in
      if MAXORD <? i then Stop else Yield i
  end.

(** Number of doublings that covers every period up to MAXYEAR. *)
Definition DEPTH : nat := 22.

(** [rrule.between(after, before)] with [inc=False]: the loop state is the
    period, the [started] flag and the list [l] (reversed). *)
Definition between_step (r : rrule) (after before : date)
    (s : Z * bool * list date) : (Z * bool * list date) + result (list date) :=
  let '(k, started, l) := s in
  match period r k with
  | Stop => inr (Ok (rev l))
  | Fail => inr (Raise ValueError)
  | Skip => inl (k + 1, started, l)
  | Yield i =>
      if before <=? i then inr (Ok (rev l))
      else if started then inl (k + 1, true, i :: l)
      else if after <? i then inl (k + 1, true, i :: l)
      else inl (k + 1, false, l)
  end.

Definition between (r : rrule) (after before : date) : result (list date) :=
  if _interval r <? 1 then Raise Unmodelled
  else
    match iterate DEPTH (between_step r after before) (0, false, []) with
    | inr res => res
    | inl _ => Raise Unmodelled
    end.

(** [rrule.after(dt)] with [inc=False]; [None] when the generator is
    exhausted. *)
Definition after_step (r : rrule) (dt : date) (k : Z) : Z + result (option date) :=
  match period r k with
  | Stop => inr (Ok None)
  | Fail => inr (Raise ValueError)
  | Skip => inl (k + 1)
  | Yield i => if dt <? i then inr (Ok (Some i)) else inl (k + 1)
  end.

Definition after (r : rrule) (dt : date) : result (option date) :=
  if _interval r <? 1 then Raise Unmodelled
  else
    match iterate DEPTH (after_step r dt) 0 with
    | inr res => res
    | inl _ => Raise Unmodelled
    end.

(** The dates a rule generates. *)
Definition occurrence (r : rrule) (i : date) : Prop :=
  exists k, 0 <= k /\ period r k = Yield i.

(** Where a scan up to [before] leaves the generator, and where it goes on. *)
Definition ends (r : rrule) (before : date) (k : Z) : Prop :=
  period r k = Stop \/ exists i, period r k = Yield i /\ before <= i.

Definition continues (r : rrule) (before : date) (k : Z) : Prop :=
  period r k = Skip \/ exists i, period r k = Yield i /\ i < before.

(** [d] is the first occurrence of [r] strictly after [dt]. *)
Definition first_after (r : rrule) (dt d : date) : Prop :=
  occurrence r d /\ dt < d /\ forall i, occurrence r i -> dt < i -> d <= i.

End Dateutil.

(** ** The records of the host framework that the module reads *)

(** [product.uom]: only the rounding precision is read. *)
Module Uom.
Record t : Type := mk { rounding : Q }.

(** Python 2 [round]: to the nearest integer, halves away from zero. *)
Definition py_round (x : Q) : Z :=
  if Qle_bool 0 x then Qfloor (x + (1 # 2)) else Qceiling (x - (1 # 2)).

(** [Uom.round(number, precision)] is
    [round(number / precision) * precision].  The model computes it on
    exact numbers; the code computes on floats, which gives the same
    integer at precision 1 and can give another multiple of the precision
    otherwise. *)
Definition round (number precision : Q) : result Q :=
  if Qeq_bool precision 0 then Raise ZeroDivisionError
  else Ok (Qred (inject_Z (py_round (number / precision)) * precision)).
End Uom.

(** [party.party] with its customer tax rule; [apply tax pattern] is the
    rule's answer for a tax ([None] for the final call), the pattern
    being the constant [{}] of [_get_tax_rule_pattern]. *)
Module Party.
Record t : Type := mk {
  id : Z;
  customer_tax_rule : option (option Z -> list Z)
}.
End Party.

Module Product.
Record t : Type := mk {
  rec_name : string;
  default_uom : Uom.t;
  customer_taxes_used : list Z;
  account_revenue_used : option Z
}.
End Product.

Module ContractService.
Record t : Type := mk { product : Product.t }.
End ContractService.

(** ** The models of [contract.py] *)

Inductive State : Type := draft | validated | cancel.

Module Contract.
Record t : Type := mk {
  id : Z;
  rec_name : string;
  freq : option Dateutil.Freq;
  interval : option Z;
  company : Z;
  currency : Z;
  party : Party.t;
  start_date : date;
  end_date : option date;
  start_period_date : date;
  first_invoice_date : option date;
  state : State
}.
End Contract.

Module ContractLine.
Record t : Type := mk {
  id : Z;
  rec_name : string;
  contract : Contract.t;
  service : option ContractService.t;
  description : string;
  unit_price : Q
}.
End ContractLine.

Module ContractConsumption.
Record t : Type := mk {
  contract_line : ContractLine.t;
  invoice_line : option Z;
  init_period_date : option date;
  end_period_date : option date;
  start_date : option date;
  end_date : option date;
  invoice_date : option date
}.
End ContractConsumption.

(** [account.invoice.line] as [get_invoice_line] fills it; the description
    keeps the three arguments of the format string. *)
Module InvoiceLine.
Record t : Type := mk {
  type : string;
  origin : ContractLine.t;
  company : Z;
  currency : Z;
  product : option Product.t;
  description : string * option date * option date;
  unit_price : Q;
  party : Party.t;
  unit : option Uom.t;
  account : Z;
  taxes : list Z;
  invoice_type : string;
  quantity : Q
}.
End InvoiceLine.

(** The key of [_group_invoice_key], without its constant labels. *)
Definition invoice_key : Type := (Party.t * Z * Z * string * option date)%type.

Module Invoice.
Record t : Type := mk {
  party : Party.t;
  company : Z;
  currency : Z;
  type : string;
  invoice_date : option date;
  journal : option Z;
  lines : list (Z * InvoiceLine.t)
}.
End Invoice.

(** The database: one table per model, a row being a pair of an id and a
    record, together with what the host answers for [Date.today()], for
    [Property.get('account_revenue', model)] and for the search of a
    revenue journal. *)
Record DB : Type := mkDB {
  contract_lines : list ContractLine.t;
  consumptions : list (Z * ContractConsumption.t);
  invoice_lines : list (Z * InvoiceLine.t);
  invoices : list (Z * Invoice.t);
  today : date;
  property_account_revenue : string -> option Z;
  revenue_journal : option Z
}.

(** A fresh id for a table. *)
Definition next_id {A : Type} (table : list (Z * A)) : Z :=
  fold_right (fun row acc => Z.max (fst row + 1) acc) 1 table.

(** [Model.create]: the records get consecutive fresh ids. *)
Fixpoint number_from {A : Type} (n : Z) (records : list A) : list (Z * A) :=
  match records with
  | [] => []
  | x :: xs => (n, x) :: number_from (n + 1) xs
  end.

Definition create {A : Type} (table : list (Z * A)) (records : list A)
  : list (Z * A) :=
  number_from (next_id table) records.

(** The One2Many field [Contract.lines]. *)
Definition Contract_lines (db : DB) (self : Contract.t) : list ContractLine.t :=
  filter (fun l => Contract.id (ContractLine.contract l) =? Contract.id self)
         (contract_lines db).

(** ** RRuleMixin *)

(** The keyword arguments that [rrule_values] collects for [rrule]. *)
Record rrule_kwargs : Type := mk_kwargs {
  kw_freq : option Dateutil.Freq;
  kw_interval : option Z;
  kw_dtstart : option date
}.

(** [RRuleMixin.rrule_values]: a field that is not truthy ([None], [0]) is
    left out. *)
Definition RRuleMixin_rrule_values (freq : option Dateutil.Freq)
    (interval : option Z) : rrule_kwargs :=
  {| kw_freq := freq;
     kw_interval :=
       match interval with
       | Some v => if v =? 0 then None else Some v
       | None => None
       end;
     kw_dtstart := None |}.

(** [Contract.rrule_values] adds [dtstart]. *)
Definition Contract_rrule_values (self : Contract.t) : rrule_kwargs :=
  let values :=
    RRuleMixin_rrule_values (Contract.freq self) (Contract.interval self) in
  {| kw_freq := kw_freq values;
     kw_interval := kw_interval values;
     kw_dtstart := Some (todatetime (Contract.start_period_date self)) |}.

(** The constructor of [rrule] on these arguments: [freq] is required, [interval] defaults to
    1; without [dtstart] dateutil reads the clock, which [Contract] never
    lets happen. *)
Definition rrule_new (values : rrule_kwargs) : result Dateutil.rrule :=
  match kw_freq values with
  | None => Raise TypeError
  | Some f =>
      match kw_dtstart values with
      | None => Raise Unmodelled
      | Some d =>
          Ok (Dateutil.mk_rrule f
                match kw_interval values with Some v => v | None => 1 end
                d)
      end
  end.

(** The property [RRuleMixin.rrule], on a [Contract]. *)
Definition rrule (self : Contract.t) : result Dateutil.rrule :=
  rrule_new (Contract_rrule_values self).

(** ** ContractLine *)

(** SQL [Max] over a column: NULLs are ignored, no value gives NULL. *)
Definition sql_max (column : list (option date)) : option date :=
  fold_right
    (fun v acc =>
       match v, acc with
       | Some x, Some y => Some (Z.max x y)
       | Some x, None => Some x
       | None, _ => acc
       end)
    None column.

Definition consumptions_of (db : DB) (line_id : Z)
  : list ContractConsumption.t :=
  map snd
    (filter
       (fun row =>
          ContractLine.id (ContractConsumption.contract_line (snd row))
          =? line_id)
       (consumptions db)).

(** [ContractLine.get_last_consumption_date]: for each line the greatest
    [end_period_date] of its consumptions. *)
Definition get_last_consumption_date (db : DB) (lines : list ContractLine.t)
    (name : string) : list (Z * option date) :=
  map (fun l =>
         (ContractLine.id l,
          sql_max (map ContractConsumption.end_period_date
                       (consumptions_of db (ContractLine.id l)))))
      lines.

(** [ContractLine.get_last_consumption_invoice_date]: the greatest
    [invoice_date]. *)
Definition get_last_consumption_invoice_date (db : DB)
    (lines : list ContractLine.t) (name : string) : list (Z * option date) :=
  map (fun l =>
         (ContractLine.id l,
          sql_max (map ContractConsumption.invoice_date
                       (consumptions_of db (ContractLine.id l)))))
      lines.

Fixpoint dict_get {A : Type} (d : list (Z * option A)) (key : Z) : option A :=
  match d with
  | [] => None
  | (k, v) :: d' => if k =? key then v else dict_get d' key
  end.

(** The Function fields of [ContractLine]; both are declared with the getter
    ['get_last_consumption_date']. *)
Definition last_consumption_date (db : DB) (line : ContractLine.t)
  : option date :=
  dict_get (get_last_consumption_date db [line] "last_consumption_date")
           (ContractLine.id line).

Definition last_consumption_invoice_date (db : DB) (line : ContractLine.t)
  : option date :=
  dict_get (get_last_consumption_date db [line] "last_consumption_invoice_date")
           (ContractLine.id line).

(** [ContractLine.get_consumption] *)
Definition get_consumption (self : ContractLine.t)
    (start_date end_date invoice_date start_period finish_period : date)
  : ContractConsumption.t :=
  {| ContractConsumption.contract_line := self;
     ContractConsumption.invoice_line := None;
     ContractConsumption.init_period_date := Some start_period;
     ContractConsumption.end_period_date := Some finish_period;
     ContractConsumption.start_date := Some start_date;
     ContractConsumption.end_date := Some end_date;
     ContractConsumption.invoice_date := Some invoice_date |}.

(** ** Contract *)

(** [Contract.get_invoice_date] *)
Definition get_invoice_date (self : Contract.t) (last_invoice_date : date)
  : result date :=
  let last_invoice_date := todatetime last_invoice_date in
  sr <- rrule self ;;
  let r := Dateutil.mk_rrule (Dateutil._freq sr) 1 last_invoice_date in
  date <- Dateutil.after r last_invoice_date ;;
  match date with
  | Some d => Ok (date_of d)
  | None => Raise AttributeError
  end.

(** The body of the inner loop of [get_consumptions], over the dates that
    [between] returned; the arguments after the list are the loop-carried
    variables [start], [last_consumption_date] and [last_invoice_date].
    The source binds [end_contract] to [None] and never changes it: the two
    tests on it are dead and left out. *)
Fixpoint consumptions_loop (self : Contract.t) (line : ContractLine.t)
    (dates : list date) (start : date) (last_consumption_date : option date)
    (last_invoice_date : option date) : result (list ContractConsumption.t) :=
  match dates with
  | [] => Ok []
  | date :: dates' =>
      date <- add_days date (-1) ;;
      let date := date_of date in
      let invoice_date :=
        match last_invoice_date with
        | Some d => d
        | None =>
            match Contract.first_invoice_date self with
            | Some d => d
            | None => date
            end
        end in
      invoice_date <-
        match last_invoice_date with
        | Some d => get_invoice_date self d
        | None => Ok invoice_date
        end ;;
      let finish_date := date in
      let start_period := start in
      let '(start_period, start) :=
        match last_consumption_date with
        | None => (Contract.start_period_date self, Contract.start_date self)
        | Some _ => (start_period, start)
        end in
      let consumption :=
        get_consumption line start date invoice_date start_period finish_date in
      date <- add_days date 1 ;;
      rest <- consumptions_loop self line dates' date (Some date)
                (Some invoice_date) ;;
      Ok (consumption :: rest)
  end.

(** One turn of the outer loop of [get_consumptions]: the consumptions of
    one line up to [end_date] (a midnight). *)
Definition line_consumptions (db : DB) (self : Contract.t) (end_date : date)
    (line : ContractLine.t) : result (list ContractConsumption.t) :=
  let start_period_date := Contract.start_period_date self in
  last_consumption_date <-
    match last_consumption_date db line with
    | Some d => d' <- add_days (todatetime d) 1 ;; Ok (Some d')
    | None => Ok None
    end ;;
  start <-
    match last_consumption_date with
    | Some d => d' <- add_days d 1 ;; Ok (date_of d')
    | None => Ok start_period_date
    end ;;
  let last_invoice_date := last_consumption_invoice_date db line in
  r <- rrule self ;;
  dates <- Dateutil.between r (todatetime start) end_date ;;
  consumptions_loop self line dates start last_consumption_date
    last_invoice_date.

Fixpoint concat_results {A B : Type} (f : A -> result (list B)) (l : list A)
  : result (list B) :=
  match l with
  | [] => Ok []
  | x :: l' =>
      ys <- f x ;;
      rest <- concat_results f l' ;;
      Ok (ys ++ rest)
  end.

(** [Contract.get_consumptions] *)
Definition get_consumptions (db : DB) (self : Contract.t)
    (end_date : option date) : result (list ContractConsumption.t) :=
  let end_date :=
    match end_date with
    | None => today db
    | Some d => d
    end in
  let end_date := todatetime end_date in
  concat_results (line_consumptions db self end_date) (Contract_lines db self).

Definition with_consumptions (db : DB)
    (table : list (Z * ContractConsumption.t)) : DB :=
  {| contract_lines := contract_lines db;
     consumptions := table;
     invoice_lines := invoice_lines db;
     invoices := invoices db;
     today := today db;
     property_account_revenue := property_account_revenue db;
     revenue_journal := revenue_journal db |}.

(** [Contract.consume]: the database after the call and the consumptions
    created. *)
Definition consume (db : DB) (contracts : list Contract.t)
    (date : option date) : result (DB * list (Z * ContractConsumption.t)) :=
  date <-
    match date with
    | None => Raise TypeError
    | Some d => add_days d 1
    end ;;
  to_create <-
    concat_results (fun contract => get_consumptions db contract (Some date))
      contracts ;;
  let created := create (consumptions db) to_create in
  Ok (with_consumptions db (consumptions db ++ created), created).

(** [Contract.check_start_date]: [None] or [True], or a user error.
    [hasattr] is the one of Python 2, which the module is written for: it
    answers [False] whenever reading the property raises. *)
Definition check_start_date (self : Contract.t) : result (option bool) :=
  match rrule self with
  | Raise _ => Ok None
  | Ok r =>
      d <- Dateutil.after r (todatetime (Contract.start_period_date self)) ;;
      d <- match d with
           | Some d => Ok (date_of d)
           | None => Raise AttributeError
           end ;;
      if (Contract.start_period_date self <=? Contract.start_date self)
         && (Contract.start_date self <? d)
      then Ok (Some true)
      else Raise (UserError "start_date_not_valid")
  end.

(** [Contract.validate] *)
Fixpoint validate (contracts : list Contract.t) : result unit :=
  match contracts with
  | [] => Ok tt
  | contract :: contracts' =>
      _ <- check_start_date contract ;;
      validate contracts'
  end.

(** ** Comparison of keys

    Python compares tuples lexicographically from the comparisons of their
    items; model instances compare by id ([Model.__eq__], [Model.__lt__]).
    A date cannot be compared with [None]: [datetime.date] raises
    [TypeError].  The order below, total as the facts on sorting want it,
    puts [None] first; [key_compare_py] further down is the comparison as
    Python makes it, and [invoice] sorts only keys that Python can
    compare. *)

Class Ordered (A : Type) : Type := {
  cmp : A -> A -> comparison;
  cmp_refl : forall x, cmp x x = Eq;
  cmp_antisym : forall x y, cmp y x = CompOpp (cmp x y);
  cmp_trans : forall x y z, cmp x y = Lt -> cmp y z = Lt -> cmp x z = Lt;
  cmp_eq_compat : forall x y z, cmp x y = Eq -> cmp x z = cmp y z
}.

Definition lex (c1 c2 : comparison) : comparison :=
  match c1 with
  | Eq => c2
  | _ => c1
  end.

Definition option_compare (x y : option date) : comparison :=
  match x, y with
  | None, None => Eq
  | None, Some _ => Lt
  | Some _, None => Gt
  | Some a, Some b => Z.compare a b
  end.

Definition party_compare (x y : Party.t) : comparison :=
  Z.compare (Party.id x) (Party.id y).

Definition pair_compare {A B : Type} (ca : A -> A -> comparison)
    (cb : B -> B -> comparison) (x y : A * B) : comparison :=
  lex (ca (fst x) (fst y)) (cb (snd x) (snd y)).

(** ** Sorting and grouping *)

Section SortGroup.
Context {A K : Type} (key : A -> K) (kcmp : K -> K -> comparison).

(** [sorted(l, key=key)]: a stable sort; [x], which came before every item
    of [l], goes before the first item whose key is not smaller. *)
Fixpoint insert_sorted (x : A) (l : list A) : list A :=
  match l with
  | [] => [x]
  | y :: l' =>
      match kcmp (key y) (key x) with
      | Lt => y :: insert_sorted x l'
      | _ => x :: l
      end
  end.

Fixpoint sorted (l : list A) : list A :=
  match l with
  | [] => []
  | x :: l' => insert_sorted x (sorted l')
  end.

(** The order in which [sorted] leaves the items. *)
Definition key_le (a b : A) : Prop := kcmp (key a) (key b) <> Gt.

(** [itertools.groupby(l, key=key)]: runs of consecutive items with equal
    keys; a group carries the key of its first item. *)
Fixpoint groupby (l : list A) : list (K * list A) :=
  match l with
  | [] => []
  | x :: l' =>
      match groupby l' with
      | (k, g) :: gs =>
          match kcmp (key x) k with
          | Eq => (key x, x :: g) :: gs
          | _ => (key x, [x]) :: (k, g) :: gs
          end
      | [] => [(key x, [x])]
      end
  end.

End SortGroup.

(** ** ContractConsumption *)

Definition require {A : Type} (v : option A) (e : exn) : result A :=
  match v with
  | Some a => Ok a
  | None => Raise e
  end.

(** [timedelta.total_seconds()] of a difference of dates. *)
Definition total_seconds (days : Z) : Q := inject_Z (days * 86400).

(** The quotient of two floats.  The model keeps it exact, where the code
    rounds it to a float: the two agree on whether the division fails, and
    on every quotient that is a float, such as the ratio 1 of a full
    period. *)
Definition float_div (x y : Q) : result Q :=
  if Qeq_bool y 0 then Raise ZeroDivisionError else Ok (x / y)%Q.

(** The taxes of an invoice line for a product. *)
Definition customer_taxes (party : Party.t) (product : Product.t) : list Z :=
  match Party.customer_tax_rule party with
  | Some apply =>
      flat_map (fun tax => apply (Some tax))
               (Product.customer_taxes_used product)
      ++ apply None
  | None => Product.customer_taxes_used product
  end.

(** [ContractConsumption.get_invoice_line] *)
Definition get_invoice_line (db : DB) (self : ContractConsumption.t)
  : result InvoiceLine.t :=
  let contract_line := ContractConsumption.contract_line self in
  let contract := ContractLine.contract contract_line in
  let product :=
    option_map ContractService.product (ContractLine.service contract_line) in
  let party := Contract.party contract in
  '(unit, taxes, account) <-
    match product with
    | Some p =>
        account <- require (Product.account_revenue_used p)
                     (UserError "missing_account_revenue") ;;
        Ok (Some (Product.default_uom p), customer_taxes party p, account)
    | None =>
        account <-
          require
            match property_account_revenue db "product.template" with
            | Some a => Some a
            | None => property_account_revenue db "product.category"
            end
            (UserError "missing_account_revenue_property") ;;
        Ok (None, [], account)
    end ;;
  end_date <- require (ContractConsumption.end_date self) TypeError ;;
  start_date <- require (ContractConsumption.start_date self) TypeError ;;
  end_period_date <- require (ContractConsumption.end_period_date self) TypeError ;;
  init_period_date <- require (ContractConsumption.init_period_date self) TypeError ;;
  quantity <- float_div (total_seconds (end_date - start_date))
                (total_seconds (end_period_date - init_period_date)) ;;
  let rounding :=
    match unit with
    | Some u => Uom.rounding u
    | None => 1%Q
    end in
  quantity <- Uom.round quantity rounding ;;
  Ok {| InvoiceLine.type := "line";
        InvoiceLine.origin := contract_line;
        InvoiceLine.company := Contract.company contract;
        InvoiceLine.currency := Contract.currency contract;
        InvoiceLine.product := product;
        InvoiceLine.description :=
          (ContractLine.description contract_line,
           ContractConsumption.start_date self,
           ContractConsumption.end_date self);
        InvoiceLine.unit_price := ContractLine.unit_price contract_line;
        InvoiceLine.party := party;
        InvoiceLine.unit := unit;
        InvoiceLine.account := account;
        InvoiceLine.taxes := taxes;
        InvoiceLine.invoice_type := "out_invoice";
        InvoiceLine.quantity := quantity |}.

(** Reading the record of an id; the host refuses an id that has no row. *)
Fixpoint lookup {A : Type} (table : list (Z * A)) (id : Z) : option A :=
  match table with
  | [] => None
  | (k, v) :: table' => if k =? id then Some v else lookup table' id
  end.

Definition browse (db : DB) (id : Z) : result ContractConsumption.t :=
  require (lookup (consumptions db) id) (UserError "read_error").

Definition key_compare : invoice_key -> invoice_key -> comparison :=
  pair_compare
    (pair_compare
       (pair_compare (pair_compare party_compare Z.compare) Z.compare)
       String.compare)
    option_compare.

(** The comparison of two invoice dates by Python: [None] against a date
    raises [TypeError]. *)
Definition option_compare_py (x y : option date) : result comparison :=
  match x, y with
  | None, None => Ok Eq
  | Some a, Some b => Ok (Z.compare a b)
  | _, _ => Raise TypeError
  end.

(** The comparison of two keys by Python: the first items that differ
    decide, and the invoice dates are compared only when the parties, the
    companies, the currencies and the types are equal. *)
Definition key_compare_py (k1 k2 : invoice_key) : result comparison :=
  let '(party1, company1, currency1, type1, date1) := k1 in
  let '(party2, company2, currency2, type2, date2) := k2 in
  match
    lex (lex (lex (party_compare party1 party2) (Z.compare company1 company2))
           (Z.compare currency1 currency2))
      (String.compare type1 type2)
  with
  | Eq => option_compare_py date1 date2
  | c => Ok c
  end.

(** Whether [sorted] can sort a list of keys.  It raises [TypeError] as soon
    as it compares two keys that Python cannot compare, and no sort by
    comparisons can order a list without comparing two such keys when the
    list holds them: all the comparisons it could make without them would
    fit both orders of the two keys.  Hence the test of every pair. *)
Definition sortable (keys : list invoice_key) : bool :=
  forallb
    (fun k1 =>
       forallb
         (fun k2 =>
            match key_compare_py k1 k2 with
            | Ok _ => true
            | Raise _ => false
            end)
         keys)
    keys.

(** [ContractConsumption._group_invoice_key]; [line] is a pair of a
    consumption id and a saved invoice line.  The dictionary order of a
    consumption that cannot be read never arises: the ids were read by the
    loop of [invoice] before. *)
Definition _group_invoice_key (db : DB) (line : Z * (Z * InvoiceLine.t))
  : invoice_key :=
  let '(consumption_id, (_, invoice_line)) := line in
  (InvoiceLine.party invoice_line,
   InvoiceLine.company invoice_line,
   InvoiceLine.currency invoice_line,
   InvoiceLine.invoice_type invoice_line,
   match lookup (consumptions db) consumption_id with
   | Some consumption => ContractConsumption.invoice_date consumption
   | None => None
   end).

(** [ContractConsumption._get_invoice]; the address, payment term and
    account copied from the party are left to the host. *)
Definition _get_invoice (db : DB) (keys : invoice_key) : Invoice.t :=
  let '(party, company, currency, type, invoice_date) := keys in
  {| Invoice.party := party;
     Invoice.company := company;
     Invoice.currency := currency;
     Invoice.type := type;
     Invoice.invoice_date := invoice_date;
     Invoice.journal := revenue_journal db;
     Invoice.lines := [] |}.

(** [d[key] = value] on a dictionary kept as an association list, in the
    order of the first insertions.  Python 2 leaves the order of
    [lines.items()] unspecified; what is proved of [invoice] does not depend
    on the order of the lines inside an invoice. *)
Fixpoint dict_set {A : Type} (d : list (Z * A)) (key : Z) (value : A)
  : list (Z * A) :=
  match d with
  | [] => [(key, value)]
  | (k, v) :: d' =>
      if k =? key then (k, value) :: d' else (k, v) :: dict_set d' key value
  end.

(** The state of the first loop of [invoice]: the table of invoice lines
    (each [line.save()] adds a row), the dictionary [lines] and [to_write]. *)
Record invoicing : Type := mk_invoicing {
  saved_lines : list (Z * InvoiceLine.t);
  lines : list (Z * (Z * InvoiceLine.t));
  to_write : list (Z * Z)
}.

(** The first loop of [invoice]: the state in which the loop is left and,
    when an exception left it, the exception.  The lines that [line.save()]
    stored before the exception stay stored. *)
Fixpoint invoice_loop (db : DB) (ids : list Z) (st : invoicing)
  : invoicing * result unit :=
  match ids with
  | [] => (st, Ok tt)
  | id :: ids' =>
      match
        consumption <- browse db id ;; get_invoice_line db consumption
      with
      | Raise e => (st, Raise e)
      | Ok line =>
          let line_id := next_id (saved_lines st) in
          invoice_loop db ids'
            {| saved_lines := saved_lines st ++ [(line_id, line)];
               lines := dict_set (lines st) id (line_id, line);
               to_write := to_write st ++ [(id, line_id)] |}
      end
  end.

(** A consumption with another [invoice_line]. *)
Definition with_invoice_line (c : ContractConsumption.t) (line_id : Z)
  : ContractConsumption.t :=
  {| ContractConsumption.contract_line := ContractConsumption.contract_line c;
     ContractConsumption.invoice_line := Some line_id;
     ContractConsumption.init_period_date :=
       ContractConsumption.init_period_date c;
     ContractConsumption.end_period_date :=
       ContractConsumption.end_period_date c;
     ContractConsumption.start_date := ContractConsumption.start_date c;
     ContractConsumption.end_date := ContractConsumption.end_date c;
     ContractConsumption.invoice_date := ContractConsumption.invoice_date c |}.

(** [cls.write([consumption], {'invoice_line': line.id})], [w] being the
    pair of the id of the consumption and the id of the line. *)
Definition write_invoice_line (table : list (Z * ContractConsumption.t))
    (w : Z * Z) : list (Z * ContractConsumption.t) :=
  map (fun row =>
         if fst row =? fst w
         then (fst row, with_invoice_line (snd row) (snd w))
         else row)
      table.

(** The invoices that the second loop of [invoice] builds. *)
Definition build_invoices (db : DB) (lines : list (Z * (Z * InvoiceLine.t)))
  : list Invoice.t :=
  let lines := sorted (_group_invoice_key db) key_compare lines in
  map (fun group =>
         let invoice := _get_invoice db (fst group) in
         {| Invoice.party := Invoice.party invoice;
            Invoice.company := Invoice.company invoice;
            Invoice.currency := Invoice.currency invoice;
            Invoice.type := Invoice.type invoice;
            Invoice.invoice_date := Invoice.invoice_date invoice;
            Invoice.journal := Invoice.journal invoice;
            Invoice.lines := Invoice.lines invoice ++ map snd (snd group) |})
      (groupby (_group_invoice_key db) key_compare lines).

(** The database with another table of invoice lines. *)
Definition with_invoice_lines (db : DB) (table : list (Z * InvoiceLine.t))
  : DB :=
  {| contract_lines := contract_lines db;
     consumptions := consumptions db;
     invoice_lines := table;
     invoices := invoices db;
     today := today db;
     property_account_revenue := property_account_revenue db;
     revenue_journal := revenue_journal db |}.

(** [ContractConsumption.invoice], on the ids of the consumptions: the
    database in which the call ends, and the exception that ends it, if
    any.  When an exception leaves the call, the invoice lines saved so far
    are in their table, and nothing else has been written; that the host
    rolls the transaction back afterwards is not part of the call. *)
Definition invoice_run (db : DB) (ids : list Z) : DB * result unit :=
  let '(st, outcome) :=
    invoice_loop db ids
      {| saved_lines := invoice_lines db; lines := []; to_write := [] |} in
  match outcome with
  | Raise e => (with_invoice_lines db (saved_lines st), Raise e)
  | Ok _ =>
      match lines st with
      | [] => (db, Ok tt)
      | _ =>
          if sortable (map (_group_invoice_key db) (lines st))
          then
            let invoices' := build_invoices db (lines st) in
            ({| contract_lines := contract_lines db;
                consumptions :=
                  fold_left write_invoice_line (to_write st) (consumptions db);
                invoice_lines := saved_lines st;
                invoices := invoices db ++ create (invoices db) invoices';
                today := today db;
                property_account_revenue := property_account_revenue db;
                revenue_journal := revenue_journal db |},
             Ok tt)
          else (with_invoice_lines db (saved_lines st), Raise TypeError)
      end
  end.

(** What [ContractConsumption.invoice] comes to: the database after a call
    that returns, or the exception that the call raises. *)
Definition invoice (db : DB) (ids : list Z) : result DB :=
  match invoice_run db ids with
  | (db', Ok _) => Ok db'
  | (_, Raise e) => Raise e
  end.

(** The database with another answer for [Date.today()]. *)
Definition set_today (db : DB) (t : date) : DB :=
  {| contract_lines := contract_lines db;
     consumptions := consumptions db;
     invoice_lines := invoice_lines db;
     invoices := invoices db;
     today := t;
     property_account_revenue := property_account_revenue db;
     revenue_journal := revenue_journal db |}.

(** ** Sample data *)

Module Sample.
Import Dateutil.

Definition customer : Party.t :=
  {| Party.id := 1; Party.customer_tax_rule := None |}.

Definition contract_of (freq : option Freq) (interval : option Z)
    (start : date) : Contract.t :=
  {| Contract.id := 1; Contract.rec_name := "1";
     Contract.freq := freq; Contract.interval := interval;
     Contract.company := 1; Contract.currency := 1; Contract.party := customer;
     Contract.start_date := start; Contract.end_date := None;
     Contract.start_period_date := start;
     Contract.first_invoice_date := None; Contract.state := validated |}.

(** A monthly contract that starts, and whose period starts, on 2020-01-01. *)
Definition monthly : Contract.t :=
  contract_of (Some MONTHLY) (Some 1) (mkdate 2020 1 1).

(** The same contract without a frequency. *)
Definition no_freq : Contract.t := contract_of None (Some 1) (mkdate 2020 1 1).

Definition line_of (contract : Contract.t) : ContractLine.t :=
  {| ContractLine.id := 10; ContractLine.rec_name := "hosting";
     ContractLine.contract := contract; ContractLine.service := None;
     ContractLine.description := "Hosting"; ContractLine.unit_price := 10 |}.

Definition db_of (lines : list ContractLine.t)
    (rows : list (Z * ContractConsumption.t)) : DB :=
  {| contract_lines := lines; consumptions := rows; invoice_lines := [];
     invoices := []; today := mkdate 2021 1 1;
     property_account_revenue := fun _ => Some 7; revenue_journal := None |}.

(** The consumption of February 2020 of the hosting line, as a first run
    records it. *)
Definition february : ContractConsumption.t :=
  get_consumption (line_of monthly) (mkdate 2020 2 1) (mkdate 2020 2 29)
    (mkdate 2020 3 31) (mkdate 2020 2 1) (mkdate 2020 2 29).

(** A contract billed every two months from 2020-01-01. *)
Definition bimonthly : Contract.t :=
  contract_of (Some MONTHLY) (Some 2) (mkdate 2020 1 1).

(** A contract whose start date lies after its first period. *)
Definition late_start : Contract.t :=
  {| Contract.id := 2; Contract.rec_name := "2";
     Contract.freq := Some MONTHLY; Contract.interval := Some 1;
     Contract.company := 1; Contract.currency := 1; Contract.party := customer;
     Contract.start_date := mkdate 2020 2 1; Contract.end_date := None;
     Contract.start_period_date := mkdate 2020 1 1;
     Contract.first_invoice_date := None; Contract.state := draft |}.

(** A contract billed every day from 2020-01-01. *)
Definition daily : Contract.t :=
  contract_of (Some DAILY) (Some 1) (mkdate 2020 1 1).

End Sample.

(** ** Vocabulary of the claims *)

(** The range of a consumption follows the range of another one without a
    gap and without an overlap. *)
Definition contiguous (c1 c2 : ContractConsumption.t) : Prop :=
  match ContractConsumption.end_date c1, ContractConsumption.start_date c2 with
  | Some e, Some s => s = e + 1
  | _, _ => False
  end.

(** The consumptions of January and February 2020 of a line of a monthly
    contract whose period starts on 2020-01-01. *)
Definition january_2020 (self : Contract.t) (line : ContractLine.t)
  : ContractConsumption.t :=
  get_consumption line (Contract.start_date self) (mkdate 2020 1 31)
    (mkdate 2020 1 31) (mkdate 2020 1 1) (mkdate 2020 1 31).

Definition february_2020 (line : ContractLine.t) : ContractConsumption.t :=
  get_consumption line (mkdate 2020 2 1) (mkdate 2020 2 29)
    (mkdate 2020 3 31) (mkdate 2020 2 1) (mkdate 2020 2 29).


(** A date that [datetime] can represent. *)
Definition in_range (d : date) : Prop :=
  Calendar.MINORD <= d <= Calendar.MAXORD.


Definition is_Eq (c : comparison) : bool :=
  match c with
  | Eq => true
  | _ => false
  end.


(** The rounding that [get_invoice_line] applies to an invoice line. *)
Definition rounding_of (il : InvoiceLine.t) : Q :=
  match InvoiceLine.unit il with
  | Some u => Uom.rounding u
  | None => 1%Q
  end.

(** The fields of an invoice that make the key of its group. *)
Definition key_of (inv : Invoice.t) : invoice_key :=
  (Invoice.party inv, Invoice.company inv, Invoice.currency inv,
   Invoice.type inv, Invoice.invoice_date inv).

(** The tuple by which the specification groups: party, company, currency,
    invoice type and invoice date, the party being known by its id.  For an
    invoice the five values are its own fields; for an invoice line they
    are four fields of the line and the invoice date of the consumption
    that the line was built for. *)
Definition grouping_tuple : Type := (Z * Z * Z * string * option date)%type.

Definition tuple_of_invoice (inv : Invoice.t) : grouping_tuple :=
  (Party.id (Invoice.party inv), Invoice.company inv, Invoice.currency inv,
   Invoice.type inv, Invoice.invoice_date inv).

Definition tuple_of_line (consumption : ContractConsumption.t)
    (il : InvoiceLine.t) : grouping_tuple :=
  (Party.id (InvoiceLine.party il), InvoiceLine.company il,
   InvoiceLine.currency il, InvoiceLine.invoice_type il,
   ContractConsumption.invoice_date consumption).


(** ** Sample data for invoicing *)

Module SampleInvoice.

Definition hosting : ContractLine.t := Sample.line_of Sample.monthly.

Definition support : ContractLine.t :=
  {| ContractLine.id := 11; ContractLine.rec_name := "support";
     ContractLine.contract := Sample.monthly; ContractLine.service := None;
     ContractLine.description := "Support"; ContractLine.unit_price := 5 |}.

(** The invoice line of the January consumption of a line. *)
Definition january_line (line : ContractLine.t) : InvoiceLine.t :=
  {| InvoiceLine.type := "line";
     InvoiceLine.origin := line;
     InvoiceLine.company := 1;
     InvoiceLine.currency := 1;
     InvoiceLine.product := None;
     InvoiceLine.description :=
       (ContractLine.description line, Some (mkdate 2020 1 1),
        Some (mkdate 2020 1 31));
     InvoiceLine.unit_price := ContractLine.unit_price line;
     InvoiceLine.party := Sample.customer;
     InvoiceLine.unit := None;
     InvoiceLine.account := 7;
     InvoiceLine.taxes := [];
     InvoiceLine.invoice_type := "out_invoice";
     InvoiceLine.quantity := 1 |}.

Definition db_of (rows : list (Z * ContractConsumption.t))
    (lines : list (Z * InvoiceLine.t)) : DB :=
  {| contract_lines := [hosting; support]; consumptions := rows;
     invoice_lines := lines; invoices := []; today := mkdate 2021 1 1;
     property_account_revenue := fun _ => Some 7; revenue_journal := None |}.

(** January of the hosting line, already linked to invoice line 1. *)
Definition invoiced_db : DB :=
  db_of [(1, with_invoice_line (january_2020 Sample.monthly hosting) 1)]
        [(1, january_line hosting)].

(** January of both lines, not invoiced yet. *)
Definition two_lines_db : DB :=
  db_of [(1, january_2020 Sample.monthly hosting);
         (2, january_2020 Sample.monthly support)] [].

(** January of both lines and February of the hosting line, whose invoice
    date is another one. *)
Definition three_lines_db : DB :=
  db_of [(1, january_2020 Sample.monthly hosting);
         (2, january_2020 Sample.monthly support);
         (3, february_2020 hosting)] [].

(** January of both lines, the second one without invoice date. *)
Definition undated_db : DB :=
  db_of [(1, january_2020 Sample.monthly hosting);
         (2, {| ContractConsumption.contract_line := support;
                ContractConsumption.invoice_line := None;
                ContractConsumption.init_period_date := Some (mkdate 2020 1 1);
                ContractConsumption.end_period_date := Some (mkdate 2020 1 31);
                ContractConsumption.start_date := Some (mkdate 2020 1 1);
                ContractConsumption.end_date := Some (mkdate 2020 1 31);
                ContractConsumption.invoice_date := None |})] [].

End SampleInvoice.

(** A contract with another end date, another state, another interval. *)
Definition with_end_date (self : Contract.t) (end_date : option date)
  : Contract.t :=
  {| Contract.id := Contract.id self;
     Contract.rec_name := Contract.rec_name self;
     Contract.freq := Contract.freq self;
     Contract.interval := Contract.interval self;
     Contract.company := Contract.company self;
     Contract.currency := Contract.currency self;
     Contract.party := Contract.party self;
     Contract.start_date := Contract.start_date self;
     Contract.end_date := end_date;
     Contract.start_period_date := Contract.start_period_date self;
     Contract.first_invoice_date := Contract.first_invoice_date self;
     Contract.state := Contract.state self |}.

Definition with_state (self : Contract.t) (state : State) : Contract.t :=
  {| Contract.id := Contract.id self;
     Contract.rec_name := Contract.rec_name self;
     Contract.freq := Contract.freq self;
     Contract.interval := Contract.interval self;
     Contract.company := Contract.company self;
     Contract.currency := Contract.currency self;
     Contract.party := Contract.party self;
     Contract.start_date := Contract.start_date self;
     Contract.end_date := Contract.end_date self;
     Contract.start_period_date := Contract.start_period_date self;
     Contract.first_invoice_date := Contract.first_invoice_date self;
     Contract.state := state |}.

Definition with_interval (self : Contract.t) (interval : option Z)
  : Contract.t :=
  {| Contract.id := Contract.id self;
     Contract.rec_name := Contract.rec_name self;
     Contract.freq := Contract.freq self;
     Contract.interval := interval;
     Contract.company := Contract.company self;
     Contract.currency := Contract.currency self;
     Contract.party := Contract.party self;
     Contract.start_date := Contract.start_date self;
     Contract.end_date := Contract.end_date self;
     Contract.start_period_date := Contract.start_period_date self;
     Contract.first_invoice_date := Contract.first_invoice_date self;
     Contract.state := Contract.state self |}.

(** ** The wizard that creates consumptions *)

(** [Contract.search([('state', '=', 'validated')])] over the rows of the
    table of contracts, which the database above does not hold: the rows
    are given, in the order of the search. *)
Definition search_validated (table : list Contract.t) : list Contract.t :=
  filter
    (fun contract =>
       match Contract.state contract with
       | validated => true
       | _ => false
       end)
    table.

(** [CreateConsumptions.do_create_consumptions]; [start_date] is the field
    [date] of the start view and [views] the list [action['views']].  The
    result is the database, the views of the action and
    [data['res_id']]. *)
Definition do_create_consumptions {V : Type} (table : list Contract.t)
    (db : DB) (start_date : option date) (views : list V)
  : result (DB * (list V * list Z)) :=
  let contracts := search_validated table in
  '(db', consumptions) <- consume db contracts start_date ;;
  let res_id := map fst consumptions in
  let views :=
    if (List.length consumptions =? 1)%nat then rev views else views in
  Ok (db', (views, res_id)).

(** Two consumptions that differ at most by their invoice line. *)
Definition same_but_invoice_line (c c' : ContractConsumption.t) : Prop :=
  ContractConsumption.contract_line c' = ContractConsumption.contract_line c
  /\ ContractConsumption.init_period_date c'
     = ContractConsumption.init_period_date c
  /\ ContractConsumption.end_period_date c'
     = ContractConsumption.end_period_date c
  /\ ContractConsumption.start_date c' = ContractConsumption.start_date c
  /\ ContractConsumption.end_date c' = ContractConsumption.end_date c
  /\ ContractConsumption.invoice_date c' = ContractConsumption.invoice_date c.

(** The four dates of a consumption are set and its period does not start
    on the day it ends. *)
Definition dates_ready (self : ContractConsumption.t) : Prop :=
  exists s e ip ep,
    ContractConsumption.start_date self = Some s
    /\ ContractConsumption.end_date self = Some e
    /\ ContractConsumption.init_period_date self = Some ip
    /\ ContractConsumption.end_period_date self = Some ep
    /\ ep <> ip.

(** ** The reference of a contract

    [Contract.set_reference] works on the column [reference] of the table
    of contracts, kept here by contract id, and on the sequence of the
    configuration: [get_id seq] is the number that [Sequence.get_id] issues
    and the sequence after it.  The validation that the host runs at each
    write reads fields that [set_reference] does not change, and is left
    out. *)

(** The truth value of [contract.reference]. *)
Definition has_reference (reference : option string) : bool :=
  match reference with
  | None => false
  | Some r => negb (String.eqb r EmptyString)
  end.

(** [cls.write([contract], {'reference': reference})], [w] being the pair of
    the id of the contract and the reference. *)
Definition write_reference (table : list (Z * option string))
    (w : Z * string) : list (Z * option string) :=
  map (fun row => if fst row =? fst w then (fst row, Some (snd w)) else row)
      table.

Section Reference.
Context {Seq : Type} (get_id : Seq -> string * Seq).

(** The loop of [set_reference] over the ids of the contracts; the
    references are those read before any write. *)
Fixpoint set_reference_loop (table : list (Z * option string))
    (contracts : list Z) (seq : Seq) (to_write : list (Z * string))
  : result (Seq * list (Z * string)) :=
  match contracts with
  | [] => Ok (seq, to_write)
  | contract :: contracts' =>
      reference <- require (lookup table contract) (UserError "read_error") ;;
      if has_reference reference
      then set_reference_loop table contracts' seq to_write
      else
        let '(reference, seq) := get_id seq in
        set_reference_loop table contracts' seq
          (to_write ++ [(contract, reference)])
  end.

(** [Contract.set_reference] *)
Definition set_reference (table : list (Z * option string)) (seq : Seq)
    (contracts : list Z) : result (list (Z * option string) * Seq) :=
  ' (seq, to_write) <- set_reference_loop table contracts seq [] ;;
  Ok (fold_left write_reference to_write table, seq).

End Reference.

(** A sequence that issues A, B, C, ... *)
Definition sample_sequence (n : nat) : string * nat :=
  (String (Ascii.ascii_of_nat (65 + n)) EmptyString, S n).

(** * Properties *)

(** ** The result monad *)

Lemma bind_Ok {A B : Type} (r : result A) (f : A -> result B) (b : B) :
  bind r f = Ok b -> exists a, r = Ok a /\ f a = Ok b.
Proof.
  destruct r as [a|e]; simpl; intros H; [exists a; auto | discriminate].
Qed.

Lemma add_days_Ok (d n d' : date) : add_days d n = Ok d' -> d' = d + n.
Proof.
  unfold add_days. destruct (_ || _); congruence.
Qed.

Ltac inv_bind H :=
  let a := fresh "v" in
  let Ha := fresh "Hv" in
  apply bind_Ok in H; destruct H as (a & Ha & H).

Tactic Notation "bind_inv" hyp(H) "as" ident(a) ident(Ha) :=
  apply bind_Ok in H; destruct H as (a & Ha & H).

(** ** The calendar *)

Module CalendarFacts.
Import Calendar.

Example maxord_is_9999_12_31 : mkdate 9999 12 31 = MAXORD.
Proof. reflexivity. Qed.

Example ord2ymd_2020_02_29 : ord2ymd (mkdate 2020 2 29) = (2020, 2, 29).
Proof. reflexivity. Qed.

Example ord2ymd_2100_03_01 : ord2ymd (mkdate 2100 2 28 + 1) = (2100, 3, 1).
Proof. reflexivity. Qed.

Lemma days_before_year_succ (y : Z) :
  days_before_year (y + 1)
  = days_before_year y + (if is_leap y then 366 else 365).
Proof.
  unfold days_before_year, is_leap. cbv zeta.
  replace (y + 1 - 1) with y by lia.
  destruct (Z.eqb_spec (y mod 4) 0), (Z.eqb_spec (y mod 100) 0),
    (Z.eqb_spec (y mod 400) 0); cbn [andb orb negb];
    Z.div_mod_to_equations; lia.
Qed.

Lemma days_in_month_bounds (y m : Z) : 28 <= days_in_month y m <= 31.
Proof.
  unfold days_in_month.
  destruct (m =? 2); [destruct (is_leap y); lia|].
  destruct (_ || _); lia.
Qed.

Lemma month_start_succ (mi : Z) :
  month_start (mi + 1)
  = month_start mi + days_in_month (mi / 12) (mi mod 12 + 1).
Proof.
  unfold month_start.
  assert (Hm : 0 <= mi mod 12 < 12) by (apply Z.mod_pos_bound; lia).
  destruct (Z.eq_dec (mi mod 12) 11) as [E|E].
  - assert (Hq : (mi + 1) / 12 = mi / 12 + 1) by (Z.div_mod_to_equations; lia).
    assert (Hr : (mi + 1) mod 12 = 0) by (Z.div_mod_to_equations; lia).
    rewrite Hq, Hr, E, days_before_year_succ.
    unfold days_before_month, days_in_month. cbn.
    destruct (is_leap (mi / 12)), (is_leap (mi / 12 + 1)); lia.
  - assert (Hq : (mi + 1) / 12 = mi / 12) by (Z.div_mod_to_equations; lia).
    assert (Hr : (mi + 1) mod 12 = mi mod 12 + 1) by (Z.div_mod_to_equations; lia).
    rewrite Hq, Hr.
    assert (Hc : mi mod 12 = 0 \/ mi mod 12 = 1 \/ mi mod 12 = 2 \/ mi mod 12 = 3
                 \/ mi mod 12 = 4 \/ mi mod 12 = 5 \/ mi mod 12 = 6
                 \/ mi mod 12 = 7 \/ mi mod 12 = 8 \/ mi mod 12 = 9
                 \/ mi mod 12 = 10) by lia.
    unfold days_before_month, days_in_month.
    destruct (is_leap (mi / 12));
      repeat (destruct Hc as [Hc|Hc]; [rewrite Hc; cbn; lia|]);
      rewrite Hc; cbn; lia.
Qed.

Lemma month_start_mono (mi n : Z) :
  0 <= n -> month_start mi + 28 * n <= month_start (mi + n).
Proof.
  intros Hn. revert n Hn. apply natlike_ind.
  - replace (mi + 0) with mi by lia. lia.
  - intros n Hn IH.
    replace (mi + Z.succ n) with (mi + n + 1) by lia.
    rewrite month_start_succ.
    pose proof (days_in_month_bounds ((mi + n) / 12) ((mi + n) mod 12 + 1)).
    lia.
Qed.

Lemma ymd2ord_month_start (mi d : Z) :
  ymd2ord (mi / 12) (mi mod 12 + 1) d = month_start mi + d.
Proof. reflexivity. Qed.

Lemma ymd2ord_year_succ (y m d : Z) :
  ymd2ord y m d + 364 <= ymd2ord (y + 1) m d.
Proof.
  unfold ymd2ord. rewrite days_before_year_succ.
  unfold days_before_month.
  destruct (2 <? m); cbn [andb];
    destruct (is_leap y), (is_leap (y + 1)); lia.
Qed.

Lemma ymd2ord_year_mono (y m d n : Z) :
  0 <= n -> ymd2ord y m d + 364 * n <= ymd2ord (y + n) m d.
Proof.
  intros Hn. revert n Hn. apply natlike_ind.
  - replace (y + 0) with y by lia. lia.
  - intros n Hn IH.
    replace (y + Z.succ n) with (y + n + 1) by lia.
    pose proof (ymd2ord_year_succ (y + n) m d). lia.
Qed.

End CalendarFacts.

(** ** [_ord2ymd] undoes [_ymd2ord] *)

Module Roundtrip.
Import Calendar CalendarFacts.

Lemma days_before_year_cycles (q a b c : Z) :
  0 <= a <= 4 -> 0 <= b <= 24 -> 0 <= c <= 3 ->
  days_before_year (400 * q + 100 * a + 4 * b + c + 1)
  = 146097 * q + 36524 * a + 1461 * b + 365 * c + (if a =? 4 then 1 else 0).
Proof.
  intros Ha Hb Hc. unfold days_before_year. cbv zeta.
  replace (400 * q + 100 * a + 4 * b + c + 1 - 1)
    with (400 * q + 100 * a + 4 * b + c) by lia.
  destruct (Z.eqb_spec a 4); Z.div_mod_to_equations; lia.
Qed.

Lemma is_leap_cycles (q a b c : Z) :
  0 <= a <= 3 -> 0 <= b <= 24 -> 0 <= c <= 3 ->
  is_leap (400 * q + 100 * a + 4 * b + c + 1)
  = (c =? 3) && (negb (b =? 24) || (a =? 3)).
Proof.
  intros Ha Hb Hc. unfold is_leap.
  destruct (Z.eqb_spec c 3), (Z.eqb_spec b 24), (Z.eqb_spec a 3);
    cbn [andb orb negb];
    repeat match goal with
           | |- context [?x mod ?y =? 0] => destruct (Z.eqb_spec (x mod y) 0)
           end; cbn [andb orb negb]; try reflexivity;
    exfalso; Z.div_mod_to_equations; lia.
Qed.

Ltac month_cases m :=
  assert (m = 1 \/ m = 2 \/ m = 3 \/ m = 4 \/ m = 5 \/ m = 6 \/ m = 7
          \/ m = 8 \/ m = 9 \/ m = 10 \/ m = 11 \/ m = 12) as Hcases by lia;
  repeat (destruct Hcases as [Hcases|Hcases]; [subst m|]); [..|subst m].

(** The year, month and day that [_ord2ymd] gives make a date of the
    calendar, whose ordinal is the one it was given. *)
Theorem ymd2ord_ord2ymd (n : Z) :
  1 <= n ->
  let '(y, m, d) := ord2ymd n in
  ymd2ord y m d = n /\ 1 <= m <= 12 /\ 1 <= d <= days_in_month y m.
Proof.
  intros Hn. unfold ord2ymd, DI400Y, DI100Y, DI4Y. cbv zeta.
  rewrite Z.shiftr_div_pow2 by lia. change (2 ^ 5) with 32.
  set (n0 := n - 1).
  set (q := n0 / 146097). set (r400 := n0 mod 146097).
  set (a := r400 / 36524). set (r100 := r400 mod 36524).
  set (b := r100 / 1461). set (r4 := r100 mod 1461).
  set (c := r4 / 365). set (r1 := r4 mod 365).
  assert (Hn0 : n0 = 146097 * q + r400 /\ 0 <= r400 < 146097)
    by (unfold q, r400; split; [apply Z_div_mod_eq_full|apply Z.mod_pos_bound; lia]).
  assert (H400 : r400 = 36524 * a + r100 /\ 0 <= r100 < 36524)
    by (unfold a, r100; split; [apply Z_div_mod_eq_full|apply Z.mod_pos_bound; lia]).
  assert (H100 : r100 = 1461 * b + r4 /\ 0 <= r4 < 1461)
    by (unfold b, r4; split; [apply Z_div_mod_eq_full|apply Z.mod_pos_bound; lia]).
  assert (H4 : r4 = 365 * c + r1 /\ 0 <= r1 < 365)
    by (unfold c, r1; split; [apply Z_div_mod_eq_full|apply Z.mod_pos_bound; lia]).
  assert (Hn' : n = n0 + 1) by (unfold n0; lia).
  clearbody q r400 a r100 b r4 c r1 n0.
  assert (Ha : 0 <= a <= 4) by lia.
  assert (Hb : 0 <= b <= 24) by lia.
  assert (Hc : 0 <= c <= 4) by lia.
  replace (q * 400 + 1 + a * 100 + b * 4 + c) with (400 * q + 100 * a + 4 * b + c + 1) by lia.
  destruct ((c =? 4) || (a =? 4)) eqn:E1.
  - (* the last day of a leap year *)
    apply orb_true_iff in E1. rewrite !Z.eqb_eq in E1.
    replace (400 * q + 100 * a + 4 * b + c + 1 - 1)
      with (400 * q + 100 * a + 4 * b + c) by lia.
    assert (Hl : is_leap (400 * q + 100 * a + 4 * b + c) = true).
    { unfold is_leap.
      repeat match goal with
             | |- context [?x mod ?y =? 0] => destruct (Z.eqb_spec (x mod y) 0)
             end; cbn [andb orb negb]; try reflexivity;
      exfalso; Z.div_mod_to_equations; lia. }
    assert (Hnext : days_before_year (400 * q + 100 * a + 4 * b + c + 1) = n).
    { destruct E1 as [E1|E1].
      - replace (400 * q + 100 * a + 4 * b + c + 1)
          with (400 * q + 100 * a + 4 * (b + 1) + 0 + 1) by lia.
        rewrite days_before_year_cycles by lia.
        destruct (Z.eqb_spec a 4); lia.
      - rewrite days_before_year_cycles by lia.
        destruct (Z.eqb_spec a 4); lia. }
    pose proof (days_before_year_succ (400 * q + 100 * a + 4 * b + c)) as Hs.
    rewrite Hl, Hnext in Hs.
    unfold ymd2ord, days_before_month, days_in_month. rewrite Hl.
    set (Y := 400 * q + 100 * a + 4 * b + c) in *. clearbody Y.
    cbn. lia.
  - apply orb_false_iff in E1. rewrite !Z.eqb_neq in E1.
    assert (Ha' : 0 <= a <= 3) by lia. assert (Hc' : 0 <= c <= 3) by lia.
    pose proof (is_leap_cycles q a b c Ha' Hb Hc') as Hleap.
    pose proof (days_before_year_cycles q a b c Ha Hb Hc') as Hdby.
    replace (a =? 4) with false in Hdby by (symmetry; apply Z.eqb_neq; lia).
    set (y := 400 * q + 100 * a + 4 * b + c + 1) in *.
    set (leap := (c =? 3) && (negb (b =? 24) || (a =? 3))) in *.
    assert (Hm : 1 <= (r1 + 50) / 32 <= 12) by (Z.div_mod_to_equations; lia).
    assert (Hr : 32 * ((r1 + 50) / 32) <= r1 + 50 < 32 * ((r1 + 50) / 32) + 32)
      by (Z.div_mod_to_equations; lia).
    set (m := (r1 + 50) / 32) in *. clearbody m.
    assert (Hord : n = days_before_year y + r1 + 1) by lia.
    assert (Hr1 : 0 <= r1 < 365) by lia.
    clear Hdby Hn0 H400 H100 H4 Hn' E1. clearbody leap y.
    month_cases m; destruct leap; cbn;
      repeat match goal with
             | |- context [?x <? ?y] => destruct (Z.ltb_spec x y)
             end; cbn;
      unfold ymd2ord, days_before_month, days_in_month; rewrite Hleap; cbn;
      lia.
Qed.

End Roundtrip.

(** ** Bounded iteration *)

Lemma iterate_n_add {S R : Type} (step : S -> S + R) (a b : nat) (s : S) :
  iterate_n (a + b) step s
  = match iterate_n a step s with
    | inl s' => iterate_n b step s'
    | inr r => inr r
    end.
Proof.
  revert s. induction a as [|a IH]; intros s; simpl; [reflexivity|].
  destruct (step s) as [s'|r]; [apply IH | reflexivity].
Qed.

Lemma iterate_unary {S R : Type} (step : S -> S + R) (d : nat) (s : S) :
  iterate d step s = iterate_n (2 ^ d) step s.
Proof.
  revert s. induction d as [|d IH]; intros s.
  - simpl. destruct (step s); reflexivity.
  - cbn [iterate].
    replace (2 ^ Datatypes.S d)%nat with (2 ^ d + 2 ^ d)%nat
      by (rewrite Nat.pow_succ_r'; lia).
    rewrite iterate_n_add, <- IH.
    destruct (iterate d step s) as [s'|r]; [apply IH | reflexivity].
Qed.

(** ** Recurrence rules *)

Module DateutilFacts.
Import Calendar CalendarFacts Dateutil.

Section Rule.
Variable r : rrule.
Hypothesis interval_pos : 1 <= _interval r.

Lemma Yield_inj (a b : date) : Yield a = Yield b -> a = b.
Proof. congruence. Qed.

(** The generator is increasing. *)
Lemma period_yield_mono (k k' i i' : Z) :
  0 <= k < k' -> period r k = Yield i -> period r k' = Yield i' -> i < i'.
Proof.
  intros Hk. unfold period.
  destruct (ord2ymd (_dtstart r)) as [[y m] d].
  assert (Hn : 1 <= k' * _interval r - k * _interval r) by nia.
  destruct (_freq r).
  - destruct (MAXYEAR <? _); [discriminate|].
    destruct (d <=? _); [|discriminate].
    destruct (MAXYEAR <? _); [discriminate|].
    destruct (d <=? _); [|discriminate].
    intros H1 H2; apply Yield_inj in H1, H2; subst i i'.
    pose proof (ymd2ord_year_mono (y + k * _interval r) m d
                  (k' * _interval r - k * _interval r) ltac:(lia)) as H.
    replace (y + k * _interval r + (k' * _interval r - k * _interval r))
      with (y + k' * _interval r) in H by lia.
    lia.
  - remember (12 * y + (m - 1)) as base eqn:Ebase. clear Ebase.
    destruct (MAXYEAR <? _); [discriminate|].
    destruct (d <=? _); [|discriminate].
    destruct (MAXYEAR <? _); [discriminate|].
    destruct (d <=? _); [|discriminate].
    intros H1 H2; apply Yield_inj in H1, H2; subst i i'.
    rewrite !ymd2ord_month_start.
    pose proof (month_start_mono (base + k * _interval r)
                  (k' * _interval r - k * _interval r) ltac:(lia)) as H.
    replace (base + k * _interval r + (k' * _interval r - k * _interval r))
      with (base + k' * _interval r) in H by lia.
    lia.
  - destruct (Z.eqb_spec k' 0); [lia|].
    destruct (Z.eqb_spec k 0) as [->|Hk0].
    + destruct (MAXORD <? _); [discriminate|].
      destruct (MAXORD <? _); [discriminate|].
      intros H1 H2; apply Yield_inj in H1, H2; subst i i'. lia.
    + destruct (MAXORD <? _); [discriminate|].
      destruct (MAXORD <? _); [discriminate|].
      destruct (MAXORD <? _); [discriminate|].
      destruct (MAXORD <? _); [discriminate|].
      intros H1 H2; apply Yield_inj in H1, H2; subst i i'. lia.
  - destruct (MAXORD <? _); [discriminate|].
    destruct (MAXORD <? _); [discriminate|].
    intros H1 H2; apply Yield_inj in H1, H2; subst i i'. lia.
Qed.

(** Once exhausted, the generator stays exhausted. *)
Lemma period_stop_mono (k k' : Z) :
  0 <= k <= k' -> period r k = Stop -> period r k' = Stop.
Proof.
  intros Hk. unfold period.
  destruct (ord2ymd (_dtstart r)) as [[y m] d].
  assert (Hn : 0 <= k' * _interval r - k * _interval r) by nia.
  destruct (_freq r).
  - destruct (Z.ltb_spec MAXYEAR (y + k * _interval r));
      [|destruct (d <=? _); discriminate].
    destruct (Z.ltb_spec MAXYEAR (y + k' * _interval r)); [reflexivity|lia].
  - destruct (Z.ltb_spec MAXYEAR ((12 * y + (m - 1) + k * _interval r) / 12));
      [|destruct (d <=? _); discriminate].
    destruct (Z.ltb_spec MAXYEAR ((12 * y + (m - 1) + k' * _interval r) / 12));
      [reflexivity|].
    assert ((12 * y + (m - 1) + k * _interval r) / 12
            <= (12 * y + (m - 1) + k' * _interval r) / 12)
      by (apply Z.div_le_mono; lia).
    lia.
  - destruct (Z.eqb_spec k 0); [discriminate|].
    destruct (Z.eqb_spec k' 0); [lia|].
    destruct (Z.ltb_spec MAXORD
                (_dtstart r + 7 * (k * _interval r) - weekday (_dtstart r)));
      [|destruct (MAXORD <? _); discriminate].
    destruct (Z.ltb_spec MAXORD
                (_dtstart r + 7 * (k' * _interval r) - weekday (_dtstart r)));
      [reflexivity|lia].
  - destruct (Z.ltb_spec MAXORD (_dtstart r + k * _interval r)); [|discriminate].
    destruct (Z.ltb_spec MAXORD (_dtstart r + k' * _interval r));
      [reflexivity|lia].
Qed.

Lemma between_run (after before : date) (n : nat) :
  forall k started l res,
    0 <= k ->
    (started = true -> forall j i, k <= j -> period r j = Yield i -> after < i) ->
    iterate_n n (between_step r after before) (k, started, l) = inr (Ok res) ->
    exists k_end tail,
      k <= k_end /\ res = rev l ++ tail /\ ends r before k_end
      /\ (forall j, k <= j < k_end -> continues r before j)
      /\ (forall i, In i tail <->
                    exists j, k <= j < k_end /\ period r j = Yield i /\ after < i).
Proof.
  induction n as [|n IH]; intros k started l res Hk Hst Hrun;
    simpl in Hrun; [discriminate|].
  destruct (period r k) as [| |i|] eqn:Ep.
  - (* Stop *)
    inversion Hrun; subst. exists k, []. rewrite app_nil_r.
    repeat split; try lia; [left; auto|intros [] | ].
    intros (j & Hj & _). lia.
  - (* Skip *)
    destruct (IH (k + 1) started l res ltac:(lia)) as (ke & tail & H1 & H2 & H3 & H4 & H5);
      auto.
    { intros Hs j i Hj. apply Hst; auto. lia. }
    exists ke, tail. repeat split; auto; try lia.
    + intros j Hj. destruct (Z.eq_dec j k) as [->|]; [left; auto|apply H4; lia].
    + intros Hin. apply H5 in Hin. destruct Hin as (j & Hj & Hy & Ha).
      exists j. repeat split; auto; lia.
    + intros (j & Hj & Hy & Ha). apply H5. exists j. repeat split; auto; try lia.
      destruct (Z.eq_dec j k) as [->|]; [congruence|lia].
  - (* Yield *)
    destruct (Z.leb_spec before i) as [Hb|Hb].
    + inversion Hrun; subst. exists k, []. rewrite app_nil_r.
      repeat split; try lia; [right; eauto|intros []|].
      intros (j & Hj & _). lia.
    + assert (Hlater : forall j i', k + 1 <= j -> period r j = Yield i' -> i < i').
      { intros j i' Hj Hy. apply (period_yield_mono k j); auto. lia. }
      assert (Hcont : continues r before k) by (right; eauto).
      destruct started.
      * destruct (IH (k + 1) true (i :: l) res ltac:(lia)) as (ke & tail & H1 & H2 & H3 & H4 & H5);
          auto.
        { intros _ j i' Hj Hy. specialize (Hst eq_refl k i ltac:(lia) Ep).
          specialize (Hlater j i' Hj Hy). lia. }
        exists ke, (i :: tail). simpl in H2. rewrite <- app_assoc in H2. simpl in H2.
        repeat split; auto; try lia.
        -- intros j Hj. destruct (Z.eq_dec j k) as [->|]; [auto|apply H4; lia].
        -- intros [->|Hin].
           ++ exists k. repeat split; auto; try lia. apply (Hst eq_refl k); auto; lia.
           ++ apply H5 in Hin. destruct Hin as (j & Hj & Hy & Ha).
              exists j. repeat split; auto; lia.
        -- intros (j & Hj & Hy & Ha).
           destruct (Z.eq_dec j k) as [->|]; [left; congruence|].
           right. apply H5. exists j. repeat split; auto; lia.
      * destruct (Z.ltb_spec after i) as [Ha|Ha].
        -- destruct (IH (k + 1) true (i :: l) res ltac:(lia)) as (ke & tail & H1 & H2 & H3 & H4 & H5);
             auto.
           { intros _ j i' Hj Hy. specialize (Hlater j i' Hj Hy). lia. }
           exists ke, (i :: tail). simpl in H2. rewrite <- app_assoc in H2. simpl in H2.
           repeat split; auto; try lia.
           ++ intros j Hj. destruct (Z.eq_dec j k) as [->|]; [auto|apply H4; lia].
           ++ intros [->|Hin].
              ** exists k. repeat split; auto; lia.
              ** apply H5 in Hin. destruct Hin as (j & Hj & Hy & Ha').
                 exists j. repeat split; auto; lia.
           ++ intros (j & Hj & Hy & Ha').
              destruct (Z.eq_dec j k) as [->|]; [left; congruence|].
              right. apply H5. exists j. repeat split; auto; lia.
        -- destruct (IH (k + 1) false l res ltac:(lia)) as (ke & tail & H1 & H2 & H3 & H4 & H5);
             auto; [discriminate|].
           exists ke, tail. repeat split; auto; try lia.
           ++ intros j Hj. destruct (Z.eq_dec j k) as [->|]; [auto|apply H4; lia].
           ++ intros Hin. apply H5 in Hin. destruct Hin as (j & Hj & Hy & Ha').
              exists j. repeat split; auto; lia.
           ++ intros (j & Hj & Hy & Ha'). apply H5. exists j. repeat split; auto; try lia.
              destruct (Z.eq_dec j k) as [->|]; [|lia].
              rewrite Ep in Hy. inversion Hy; subst. lia.
  - discriminate.
Qed.


(** Whether a scan ends normally does not depend on where it starts to
    collect. *)
Lemma between_run_any_after (after after' before : date) (n : nat) :
  forall k started started' l l' res,
    iterate_n n (between_step r after before) (k, started, l) = inr (Ok res) ->
    exists res',
      iterate_n n (between_step r after' before) (k, started', l')
      = inr (Ok res').
Proof.
  induction n as [|n IH]; intros k started started' l l' res Hrun;
    simpl in Hrun; [discriminate|].
  simpl. destruct (period r k) as [| |i|].
  - eauto.
  - eapply IH; eauto.
  - destruct (before <=? i); [eauto|].
    destruct started, started', (after <? i), (after' <? i); eapply IH; eauto.
  - discriminate.
Qed.

Lemma after_run (dt : date) (n : nat) :
  forall k res,
    0 <= k ->
    iterate_n n (after_step r dt) k = inr (Ok res) ->
    exists k_end,
      k <= k_end
      /\ (forall j i, k <= j < k_end -> period r j = Yield i -> i <= dt)
      /\ (forall j, k <= j < k_end -> period r j <> Stop)
      /\ match res with
         | Some d => period r k_end = Yield d /\ dt < d
         | None => period r k_end = Stop
         end.
Proof.
  induction n as [|n IH]; intros k res Hk Hrun; simpl in Hrun; [discriminate|].
  unfold after_step in Hrun at 1.
  destruct (period r k) as [| |i|] eqn:Ep.
  - inversion Hrun; subst. exists k. repeat split; auto; try lia.
    all: intros; lia.
  - destruct (IH (k + 1) res ltac:(lia) Hrun) as (ke & H1 & H2 & H3 & H4).
    exists ke. repeat split; auto; try lia.
    + intros j i Hj Hy. destruct (Z.eq_dec j k) as [->|]; [congruence|].
      apply (H2 j); auto. lia.
    + intros j Hj. destruct (Z.eq_dec j k) as [->|]; [congruence|].
      apply H3. lia.
  - destruct (Z.ltb_spec dt i) as [Hd|Hd].
    + inversion Hrun; subst. exists k. repeat split; auto; try lia.
      all: intros; lia.
    + destruct (IH (k + 1) res ltac:(lia) Hrun) as (ke & H1 & H2 & H3 & H4).
      exists ke. repeat split; auto; try lia.
      * intros j i' Hj Hy. destruct (Z.eq_dec j k) as [->|].
        -- rewrite Ep in Hy. apply Yield_inj in Hy. lia.
        -- apply (H2 j); auto. lia.
      * intros j Hj. destruct (Z.eq_dec j k) as [->|]; [congruence|].
        apply H3. lia.
  - discriminate.
Qed.

End Rule.

Lemma between_Ok_inv (r : rrule) (after before : date) (l : list date) :
  between r after before = Ok l ->
  1 <= _interval r
  /\ exists n,
       iterate_n n (between_step r after before) (0, false, []) = inr (Ok l).
Proof.
  unfold between. destruct (Z.ltb_spec (_interval r) 1); [discriminate|].
  rewrite iterate_unary. generalize (2 ^ DEPTH)%nat. intros n.
  destruct (iterate_n _ _ _) as [s|res] eqn:E; [discriminate|].
  intros ->. split; [lia|]. eauto.
Qed.

Lemma after_Ok_inv (r : rrule) (dt : date) (res : option date) :
  after r dt = Ok res ->
  1 <= _interval r
  /\ exists n, iterate_n n (after_step r dt) 0 = inr (Ok res).
Proof.
  unfold after. destruct (Z.ltb_spec (_interval r) 1); [discriminate|].
  rewrite iterate_unary. generalize (2 ^ DEPTH)%nat. intros n.
  destruct (iterate_n _ _ _) as [s|res'] eqn:E; [discriminate|].
  intros ->. split; [lia|]. eauto.
Qed.

(** [between] returns the occurrences strictly between its bounds. *)
Lemma between_spec (r : rrule) (after before : date) (l : list date) :
  between r after before = Ok l ->
  forall i, In i l <-> occurrence r i /\ after < i < before.
Proof.
  intros H. apply between_Ok_inv in H. destruct H as (Hint & n & Hrun).
  apply (between_run r Hint after before n 0 false [] l ltac:(lia)
           ltac:(discriminate)) in Hrun.
  destruct Hrun as (ke & tail & Hke & -> & Hend & Hcont & Hin).
  simpl. intros i. rewrite Hin. split.
  - intros (j & Hj & Hy & Ha).
    destruct (Hcont j Hj) as [Hs|(i' & Hy' & Hb)]; [congruence|].
    rewrite Hy in Hy'. apply Yield_inj in Hy'. subst i'.
    split; [exists j; split; [lia|auto] | lia].
  - intros ((j & Hj & Hy) & Ha & Hb). exists j. repeat split; auto; try lia.
    destruct (Z.lt_ge_cases j ke) as [|Hge]; [auto|exfalso].
    destruct Hend as [Hs|(i' & Hy' & Hb')].
    + rewrite (period_stop_mono r Hint ke j) in Hy by (auto; lia). discriminate.
    + destruct (Z.eq_dec j ke) as [->|].
      * rewrite Hy in Hy'. apply Yield_inj in Hy'. lia.
      * pose proof (period_yield_mono r Hint ke j i' i ltac:(lia) Hy' Hy). lia.
Qed.

Lemma between_any_after (r : rrule) (after after' before : date) (l : list date) :
  between r after before = Ok l ->
  exists l', between r after' before = Ok l'.
Proof.
  unfold between. destruct (_interval r <? 1); [discriminate|].
  rewrite (iterate_unary (between_step r after before)),
    (iterate_unary (between_step r after' before)).
  generalize (2 ^ DEPTH)%nat. intros n.
  destruct (iterate_n n (between_step r after before) _) as [s|res] eqn:E;
    [discriminate|].
  intros ->.
  destruct (between_run_any_after r after after' before _ _ _ false _ [] _ E)
    as (res' & ->).
  eauto.
Qed.

(** [after] returns the first occurrence strictly after [dt]. *)
Lemma after_spec (r : rrule) (dt d : date) :
  after r dt = Ok (Some d) ->
  occurrence r d /\ dt < d
  /\ forall i, occurrence r i -> dt < i -> d <= i.
Proof.
  intros H. apply after_Ok_inv in H. destruct H as (Hint & n & Hrun).
  apply (after_run r dt n 0 (Some d) ltac:(lia)) in Hrun.
  destruct Hrun as (ke & Hke & Hbefore & Hnostop & Hy & Hd).
  split; [exists ke; split; [lia|auto]|]. split; [auto|].
  intros i (j & Hj & Hyj) Hi.
  destruct (Z.lt_ge_cases j ke) as [Hlt|Hge].
  - specialize (Hbefore j i ltac:(lia) Hyj). lia.
  - destruct (Z.eq_dec j ke) as [->|].
    + rewrite Hy in Hyj. apply Yield_inj in Hyj. lia.
    + pose proof (period_yield_mono r Hint ke j d i ltac:(lia) Hy Hyj). lia.
Qed.

Lemma after_None_spec (r : rrule) (dt : date) :
  after r dt = Ok None -> forall i, occurrence r i -> i <= dt.
Proof.
  intros H. apply after_Ok_inv in H. destruct H as (Hint & n & Hrun).
  apply (after_run r dt n 0 None ltac:(lia)) in Hrun.
  destruct Hrun as (ke & Hke & Hbefore & Hnostop & Hs).
  intros i (j & Hj & Hyj).
  destruct (Z.lt_ge_cases j ke) as [Hlt|Hge].
  - apply (Hbefore j i); auto.
  - rewrite (period_stop_mono r Hint ke j) in Hyj by (auto; lia). discriminate.
Qed.

End DateutilFacts.

Lemma concat_results_all_Ok {A B : Type} (f : A -> result (list B))
    (g : A -> list B) (l : list A) :
  (forall x, In x l -> f x = Ok (g x)) ->
  concat_results f l = Ok (flat_map g l).
Proof.
  induction l as [|x l IH]; intros H; simpl; [reflexivity|].
  rewrite (H x (or_introl eq_refl)). simpl.
  rewrite IH by (intros; apply H; right; auto). reflexivity.
Qed.

(** One turn of the inner loop. *)
Lemma consumptions_loop_cons (self : Contract.t) (line : ContractLine.t)
    (d : date) (dates : list date) (start : date) (lcd lid : option date)
    (cs : list ContractConsumption.t) :
  consumptions_loop self line (d :: dates) start lcd lid = Ok cs ->
  exists invoice_date rest,
    match lid with
    | Some p => get_invoice_date self p = Ok invoice_date
    | None =>
        invoice_date = match Contract.first_invoice_date self with
                       | Some f => f
                       | None => d - 1
                       end
    end
    /\ consumptions_loop self line dates d (Some d) (Some invoice_date) = Ok rest
    /\ cs = get_consumption line
              (match lcd with None => Contract.start_date self | Some _ => start end)
              (d - 1) invoice_date
              (match lcd with
               | None => Contract.start_period_date self
               | Some _ => start
               end)
              (d - 1)
            :: rest.
Proof.
  cbn [consumptions_loop]. intros H.
  inv_bind H. apply add_days_Ok in Hv. subst v. unfold date_of in H.
  inv_bind H. rename v into inv.
  assert (Hinv : match lid with
                 | Some p => get_invoice_date self p = Ok inv
                 | None => inv = match Contract.first_invoice_date self with
                                 | Some f => f
                                 | None => d + -1
                                 end
                 end).
  { destruct lid; [exact Hv|]. inversion Hv; reflexivity. }
  clear Hv.
  replace (d + -1) with (d - 1) in * by lia.
  destruct lcd as [x|]; inv_bind H; apply add_days_Ok in Hv; subst v;
    replace (d - 1 + 1) with d in H by lia;
    inv_bind H; inversion H; subst; exists inv, v; auto.
Qed.

(** The consumptions of a run follow the dates of the run, one for one. *)
Lemma consumptions_loop_periods (self : Contract.t) (line : ContractLine.t)
    (dates : list date) :
  forall start lcd lid cs,
    consumptions_loop self line dates start lcd lid = Ok cs ->
    Forall2
      (fun d c =>
         ContractConsumption.contract_line c = line
         /\ ContractConsumption.end_period_date c = Some (d - 1)
         /\ ContractConsumption.end_date c = Some (d - 1))
      dates cs.
Proof.
  induction dates as [|d dates IH]; intros start lcd lid cs H.
  - inversion H. constructor.
  - apply consumptions_loop_cons in H.
    destruct H as (inv & rest & _ & Hrest & ->).
    constructor; [simpl; auto|]. eapply IH; eauto.
Qed.

(** What [line_consumptions] computes before it enters the inner loop. *)
Lemma line_consumptions_Ok (db : DB) (self : Contract.t) (end_date : date)
    (line : ContractLine.t) (cs : list ContractConsumption.t) :
  line_consumptions db self end_date line = Ok cs ->
  exists r dates,
    rrule self = Ok r
    /\ Dateutil.between r
         (match last_consumption_date db line with
          | Some l => l + 2
          | None => Contract.start_period_date self
          end) end_date = Ok dates
    /\ consumptions_loop self line dates
         (match last_consumption_date db line with
          | Some l => l + 2
          | None => Contract.start_period_date self
          end)
         (option_map (fun l => l + 1) (last_consumption_date db line))
         (last_consumption_invoice_date db line) = Ok cs.
Proof.
  unfold line_consumptions, todatetime, date_of. intros H.
  destruct (last_consumption_date db line) as [l|]; simpl in H.
  - bind_inv H as lcd Hlcd. bind_inv Hlcd as l1 Hl1.
    apply add_days_Ok in Hl1. inversion Hlcd; subst.
    bind_inv H as start Hstart. bind_inv Hstart as l2 Hl2.
    apply add_days_Ok in Hl2. inversion Hstart; subst.
    replace (l + 1 + 1) with (l + 2) in * by lia.
    bind_inv H as r Hr. bind_inv H as dates Hdates.
    exists r, dates. simpl. auto.
  - bind_inv H as r Hr. bind_inv H as dates Hdates.
    exists r, dates. simpl. auto.
Qed.

(** ** Claims about the generation of consumptions *)

(** C10.  [consume] called with no date raises [TypeError] before any
    consumption is generated, and whatever the date, its outcome does not
    depend on what [Date.today()] answers: the default of
    [get_consumptions] is out of reach of [consume]. *)
Theorem C10_consume_without_date (db : DB) (contracts : list Contract.t) :
  consume db contracts None = Raise TypeError
  /\ forall (d : option date) (t : date),
       consume (set_today db t) contracts d
       = match consume db contracts d with
         | Ok (db', created) => Ok (set_today db' t, created)
         | Raise e => Raise e
         end.
Proof.
  split; [reflexivity|].
  intros [d|] t; [|reflexivity].
  unfold consume. destruct (add_days d 1) as [d'|e]; [|reflexivity].
  cbn [bind].
  change (concat_results
            (fun contract => get_consumptions (set_today db t) contract (Some d'))
            contracts)
    with (concat_results
            (fun contract => get_consumptions db contract (Some d')) contracts).
  destruct (concat_results _ contracts); reflexivity.
Qed.

Lemma line_consumptions_no_freq (db : DB) (self : Contract.t)
    (end_date : date) (line : ContractLine.t) :
  Contract.freq self = None ->
  line_consumptions db self end_date line = Raise TypeError
  \/ line_consumptions db self end_date line = Raise OverflowError.
Proof.
  intros Hf. unfold line_consumptions.
  assert (Hr : rrule self = Raise TypeError).
  { unfold rrule, rrule_new, Contract_rrule_values, RRuleMixin_rrule_values.
    simpl. rewrite Hf. reflexivity. }
  rewrite Hr.
  destruct (last_consumption_date db line) as [l|]; [|left; reflexivity].
  unfold todatetime, add_days.
  destruct ((l + 1 <? Calendar.MINORD) || (Calendar.MAXORD <? l + 1));
    [right; reflexivity|].
  cbn [bind].
  destruct ((l + 1 + 1 <? Calendar.MINORD) || (Calendar.MAXORD <? l + 1 + 1));
    [right; reflexivity|left; reflexivity].
Qed.

(** C4.  With no frequency the rule cannot be built: [get_consumptions]
    raises as soon as the contract has a line, [TypeError] from the
    constructor of the rule unless the date arithmetic on the last
    consumption overflowed before. *)
Theorem C4_missing_freq_raises (db : DB) (self : Contract.t)
    (end_date : option date) :
  Contract.freq self = None ->
  Contract_lines db self <> [] ->
  get_consumptions db self end_date = Raise TypeError
  \/ get_consumptions db self end_date = Raise OverflowError.
Proof.
  intros Hf Hl. unfold get_consumptions.
  destruct (Contract_lines db self) as [|line lines]; [congruence|].
  cbn [concat_results].
  destruct (line_consumptions_no_freq db self
              (todatetime match end_date with
                          | Some d => d
                          | None => today db
                          end) line Hf) as [-> | ->];
    [left|right]; reflexivity.
Qed.

Lemma C4_missing_freq_raises_witness :
  Contract.freq Sample.no_freq = None
  /\ Contract_lines (Sample.db_of [Sample.line_of Sample.no_freq] [])
       Sample.no_freq <> []
  /\ (get_consumptions (Sample.db_of [Sample.line_of Sample.no_freq] [])
        Sample.no_freq (Some (mkdate 2020 4 1)) = Raise TypeError
      \/ get_consumptions (Sample.db_of [Sample.line_of Sample.no_freq] [])
           Sample.no_freq (Some (mkdate 2020 4 1)) = Raise OverflowError).
Proof.
  assert (H1 : Contract.freq Sample.no_freq = None) by reflexivity.
  assert (H2 : Contract_lines (Sample.db_of [Sample.line_of Sample.no_freq] [])
                 Sample.no_freq <> []) by (vm_compute; discriminate).
  exact (conj H1 (conj H2 (C4_missing_freq_raises _ _ _ H1 H2))).
Defined.

(** C2.  A line that has a recorded consumption resumes two days after the
    end of its last period: the first consumption of the run starts on
    [last_consumption_date + 2]. *)
Theorem C2_resume_two_days_after (db : DB) (self : Contract.t)
    (end_date : date) (line : ContractLine.t) (l : date)
    (c : ContractConsumption.t) (cs : list ContractConsumption.t) :
  last_consumption_date db line = Some l ->
  line_consumptions db self end_date line = Ok (c :: cs) ->
  ContractConsumption.start_date c = Some (l + 2).
Proof.
  intros Hl H. apply line_consumptions_Ok in H.
  destruct H as (r & dates & _ & _ & H). rewrite Hl in H. simpl in H.
  destruct dates as [|d dates]; [discriminate|].
  apply consumptions_loop_cons in H.
  destruct H as (inv & rest & _ & _ & [= -> _]). reflexivity.
Qed.

Lemma C2_resume_two_days_after_witness :
  let db := Sample.db_of [Sample.line_of Sample.monthly] [(1, Sample.february)] in
  let c :=
    get_consumption (Sample.line_of Sample.monthly) (mkdate 2020 3 2)
      (mkdate 2020 3 31) (mkdate 2020 3 29) (mkdate 2020 3 2)
      (mkdate 2020 3 31) in
  last_consumption_date db (Sample.line_of Sample.monthly)
  = Some (mkdate 2020 2 29)
  /\ line_consumptions db Sample.monthly (mkdate 2020 5 1)
       (Sample.line_of Sample.monthly) = Ok [c]
  /\ ContractConsumption.start_date c = Some (mkdate 2020 2 29 + 2).
Proof.
  intros db c.
  assert (H1 : last_consumption_date db (Sample.line_of Sample.monthly)
               = Some (mkdate 2020 2 29)) by (vm_compute; reflexivity).
  assert (H2 : line_consumptions db Sample.monthly (mkdate 2020 5 1)
                 (Sample.line_of Sample.monthly) = Ok [c])
    by (vm_compute; reflexivity).
  exact (conj H1 (conj H2 (C2_resume_two_days_after _ _ _ _ _ _ _ H1 H2))).
Defined.

Lemma get_invoice_date_rule (self : Contract.t) (r : Dateutil.rrule) (p : date) :
  rrule self = Ok r ->
  get_invoice_date self p
  = (d <- Dateutil.after (Dateutil.mk_rrule (Dateutil._freq r) 1 p) p ;;
     match d with
     | Some d => Ok d
     | None => Raise AttributeError
     end).
Proof.
  intros Hr. unfold get_invoice_date, todatetime, date_of. rewrite Hr.
  reflexivity.
Qed.

Lemma rrule_of_fields (self : Contract.t) (f : Dateutil.Freq) (i : Z) :
  Contract.freq self = Some f ->
  Contract.interval self = Some i ->
  i <> 0 ->
  rrule self = Ok (Dateutil.mk_rrule f i (Contract.start_period_date self)).
Proof.
  intros Hf Hi Hz.
  unfold rrule, rrule_new, Contract_rrule_values, RRuleMixin_rrule_values,
    todatetime.
  cbn [kw_freq kw_interval kw_dtstart]. rewrite Hf, Hi.
  destruct (Z.eqb_spec i 0); [contradiction|reflexivity].
Qed.

Lemma last_invoice_date_is_last_consumption_date (db : DB)
    (line : ContractLine.t) :
  last_consumption_invoice_date db line = last_consumption_date db line.
Proof. reflexivity. Qed.




(** One day later the occurrence of 2020-04-01 is in the window and March
    is consumed. *)
Example consume_until_april_1 :
  let line := Sample.line_of Sample.monthly in
  exists db' created,
    consume (Sample.db_of [line] []) [Sample.monthly] (Some (mkdate 2020 4 1))
    = Ok (db', created)
    /\ map (fun row =>
              (ContractConsumption.start_date (snd row),
               ContractConsumption.end_date (snd row)))
           created
       = [(Some (mkdate 2020 1 1), Some (mkdate 2020 1 31));
          (Some (mkdate 2020 2 1), Some (mkdate 2020 2 29));
          (Some (mkdate 2020 3 1), Some (mkdate 2020 3 31))].
Proof.
  intros line. eexists. eexists. split; vm_compute; reflexivity.
Qed.

(** The invoice dates along one run of the inner loop. *)
Lemma consumptions_loop_invoice_dates (self : Contract.t)
    (line : ContractLine.t) (dates : list date) :
  forall start lcd lid cs,
    consumptions_loop self line dates start lcd lid = Ok cs ->
    forall n c,
      nth_error cs n = Some c ->
      exists inv e,
        ContractConsumption.invoice_date c = Some inv
        /\ ContractConsumption.end_date c = Some e
        /\ match
             match n with
             | O => lid
             | Datatypes.S m =>
                 match nth_error cs m with
                 | Some c' => ContractConsumption.invoice_date c'
                 | None => None
                 end
             end
           with
           | Some p => get_invoice_date self p = Ok inv
           | None =>
               inv = match Contract.first_invoice_date self with
                     | Some f => f
                     | None => e
                     end
           end.
Proof.
  induction dates as [|d dates IH]; intros start lcd lid cs H n c Hn.
  - inversion H; subst. destruct n; discriminate.
  - apply consumptions_loop_cons in H.
    destruct H as (inv0 & rest & Hinv & Hrest & ->).
    destruct n as [|n].
    + inversion Hn; subst. exists inv0, (d - 1). simpl.
      repeat split. destruct lid; auto.
    + simpl in Hn.
      destruct (IH _ _ _ _ Hrest n c Hn) as (inv & e & H1 & H2 & H3).
      exists inv, e. repeat split; auto.
      destruct n as [|n]; exact H3.
Qed.

(** C3, as the code has it.  For a contract whose interval is 1 or unset,
    the invoice date of a generated consumption that follows another one
    in its run is the first occurrence, strictly after the invoice date of
    the consumption before it, of the rule of the contract (same frequency
    and interval) started at that date.  The first consumption of a line
    that has no recorded consumption has no previous invoice date: its
    invoice date is the first invoice date of the contract and, when that
    is unset too, the end date of the consumption, the day before the
    occurrence.  Nothing is said of the first consumption of a run that
    resumes after recorded consumptions. *)
Theorem C3_invoice_dates (db : DB) (self : Contract.t) (end_date : date)
    (line : ContractLine.t) (cs : list ContractConsumption.t) :
  Contract.interval self = None \/ Contract.interval self = Some 1 ->
  line_consumptions db self end_date line = Ok cs ->
  forall n c,
    nth_error cs n = Some c ->
    exists inv e,
      ContractConsumption.invoice_date c = Some inv
      /\ ContractConsumption.end_date c = Some e
      /\ match n with
         | Datatypes.S m =>
             exists c0 p r,
               nth_error cs m = Some c0
               /\ ContractConsumption.invoice_date c0 = Some p
               /\ rrule self = Ok r
               /\ Dateutil.first_after
                    (Dateutil.mk_rrule (Dateutil._freq r) (Dateutil._interval r) p)
                    p inv
         | O =>
             consumptions_of db (ContractLine.id line) = [] ->
             inv = match Contract.first_invoice_date self with
                   | Some f => f
                   | None => e
                   end
         end.
Proof.
  intros Hi H n c Hn. apply line_consumptions_Ok in H.
  destruct H as (r & dates & Hr & _ & Hloop).
  destruct (consumptions_loop_invoice_dates _ _ _ _ _ _ _ Hloop n c Hn)
    as (inv & e & H1 & H2 & H3).
  exists inv, e. split; [exact H1|]. split; [exact H2|].
  destruct n as [|m].
  - intros Hnone.
    assert (Hlid : last_consumption_invoice_date db line = None).
    { unfold last_consumption_invoice_date, get_last_consumption_date.
      cbn [map dict_get]. rewrite Z.eqb_refl, Hnone. reflexivity. }
    rewrite Hlid in H3. exact H3.
  - assert (Hprev : exists c0, nth_error cs m = Some c0).
    { destruct (nth_error cs m) as [c0|] eqn:E; [eauto|].
      apply nth_error_None in E.
      assert (Hlt : (Datatypes.S m < List.length cs)%nat)
        by (apply nth_error_Some; congruence).
      lia. }
    destruct Hprev as (c0 & Hc0). rewrite Hc0 in H3.
    destruct (consumptions_loop_invoice_dates _ _ _ _ _ _ _ Hloop m c0 Hc0)
      as (p & _ & Hp & _).
    rewrite Hp in H3. exists c0, p, r.
    split; [exact Hc0|]. split; [exact Hp|]. split; [exact Hr|].
    assert (Hone : Dateutil._interval r = 1).
    { revert Hr. unfold rrule, rrule_new, Contract_rrule_values,
        RRuleMixin_rrule_values. cbn [kw_freq kw_interval kw_dtstart].
      destruct (Contract.freq self); [|discriminate].
      destruct Hi as [-> | ->]; cbn; intros [= <-]; reflexivity. }
    rewrite Hone. rewrite (get_invoice_date_rule self r p Hr) in H3.
    bind_inv H3 as res Hres. destruct res as [d|]; [|discriminate].
    inversion H3; subst. apply DateutilFacts.after_spec in Hres. exact Hres.
Qed.

Lemma C3_invoice_dates_witness :
  let line := Sample.line_of Sample.monthly in
  let db := Sample.db_of [line] [] in
  (exists inv e,
     ContractConsumption.invoice_date (january_2020 Sample.monthly line)
     = Some inv
     /\ ContractConsumption.end_date (january_2020 Sample.monthly line)
        = Some e
     /\ (consumptions_of db (ContractLine.id line) = [] -> inv = e))
  /\ exists inv e,
       ContractConsumption.invoice_date (february_2020 line) = Some inv
       /\ ContractConsumption.end_date (february_2020 line) = Some e
       /\ exists c0 p r,
            nth_error [january_2020 Sample.monthly line; february_2020 line] 0
            = Some c0
            /\ ContractConsumption.invoice_date c0 = Some p
            /\ rrule Sample.monthly = Ok r
            /\ Dateutil.first_after
                 (Dateutil.mk_rrule (Dateutil._freq r) (Dateutil._interval r) p)
                 p inv.
Proof.
  intros line db.
  assert (Hrun : line_consumptions db Sample.monthly (mkdate 2020 4 1) line
                 = Ok [january_2020 Sample.monthly line; february_2020 line])
    by (vm_compute; reflexivity).
  split.
  - exact (C3_invoice_dates db Sample.monthly (mkdate 2020 4 1) line
             [january_2020 Sample.monthly line; february_2020 line]
             (or_intror eq_refl) Hrun 0%nat (january_2020 Sample.monthly line)
             eq_refl).
  - exact (C3_invoice_dates db Sample.monthly (mkdate 2020 4 1) line
             [january_2020 Sample.monthly line; february_2020 line]
             (or_intror eq_refl) Hrun 1%nat (february_2020 line) eq_refl).
Defined.

(** The claim as the spec states it fails twice on a contract billed every
    two months: with nothing to fall back on, the first invoice date is the
    end date of the consumption, not the occurrence that closes it; and the
    next invoice date is one month, not two, after the previous one. *)
Lemma C3_counterexample :
  let line := Sample.line_of Sample.bimonthly in
  let db := Sample.db_of [line] [] in
  let c1 :=
    get_consumption line (mkdate 2020 1 1) (mkdate 2020 2 29)
      (mkdate 2020 2 29) (mkdate 2020 1 1) (mkdate 2020 2 29) in
  let c2 :=
    get_consumption line (mkdate 2020 3 1) (mkdate 2020 4 30)
      (mkdate 2020 3 29) (mkdate 2020 3 1) (mkdate 2020 4 30) in
  get_consumptions db Sample.bimonthly (Some (mkdate 2020 6 1)) = Ok [c1; c2]
  /\ (exists r,
        rrule Sample.bimonthly = Ok r
        /\ Dateutil.between r (mkdate 2020 1 1) (mkdate 2020 6 1)
           = Ok [mkdate 2020 3 1; mkdate 2020 5 1]
        /\ Dateutil.after
             (Dateutil.mk_rrule (Dateutil._freq r) (Dateutil._interval r)
                (mkdate 2020 2 29))
             (mkdate 2020 2 29)
           = Ok (Some (mkdate 2020 4 29)))
  /\ ContractConsumption.invoice_date c1 <> Some (mkdate 2020 3 1)
  /\ ContractConsumption.invoice_date c2 <> Some (mkdate 2020 4 29).
Proof.
  intros line db c1 c2. split; [vm_compute; reflexivity|].
  split; [eexists; split; [reflexivity|split; vm_compute; reflexivity]|].
  split; vm_compute; discriminate.
Qed.

(** ** Validation of the start date *)

(** What [check_start_date] and [validate] answer, from what [after]
    answers. *)
Lemma check_start_date_after (self : Contract.t) (r : Dateutil.rrule)
    (d : date) :
  rrule self = Ok r ->
  Dateutil.after r (Contract.start_period_date self) = Ok (Some d) ->
  (check_start_date self = Raise (UserError "start_date_not_valid")
   <-> ~ (Contract.start_period_date self <= Contract.start_date self < d))
  /\ (validate [self] = Raise (UserError "start_date_not_valid")
      <-> ~ (Contract.start_period_date self <= Contract.start_date self < d))
  /\ (validate [self] = Ok tt
      <-> Contract.start_period_date self <= Contract.start_date self < d).
Proof.
  intros Hr Ha.
  assert (Hc : check_start_date self
               = if (Contract.start_period_date self <=? Contract.start_date self)
                    && (Contract.start_date self <? d)
                 then Ok (Some true)
                 else Raise (UserError "start_date_not_valid")).
  { unfold check_start_date, todatetime, date_of. rewrite Hr, Ha. reflexivity. }
  cbn [validate]. rewrite Hc.
  destruct (Z.leb_spec (Contract.start_period_date self) (Contract.start_date self));
    destruct (Z.ltb_spec (Contract.start_date self) d); cbn [andb bind];
    repeat split; intros; try discriminate; try lia; try reflexivity;
    try (exfalso; tauto).
Qed.

(** ** Running the generation twice *)

Lemma add_days_spec (d n d' : date) :
  add_days d n = Ok d' <-> d' = d + n /\ in_range (d + n).
Proof.
  unfold add_days, in_range.
  destruct (Z.ltb_spec (d + n) Calendar.MINORD);
    destruct (Z.ltb_spec Calendar.MAXORD (d + n)); cbn [orb]; split;
    try discriminate; try (intros [_ ?]; lia);
    try (intros [= <-]; split; [reflexivity|lia]);
    intros [-> _]; reflexivity.
Qed.

Lemma sql_max_attained (column : list (option date)) (m : date) :
  sql_max column = Some m -> In (Some m) column.
Proof.
  revert m. induction column as [|[x|] column IH]; intros m; simpl.
  - discriminate.
  - destruct (sql_max column) as [y|].
    + intros [= <-]. destruct (Z.max_spec x y) as [[_ ->]|[_ ->]]; auto.
    + intros [= <-]. auto.
  - intros H. right. auto.
Qed.

Lemma sql_max_upper (column : list (option date)) (x : date) :
  In (Some x) column -> exists m, sql_max column = Some m /\ x <= m.
Proof.
  induction column as [|[y|] column IH]; simpl; [intros []| |].
  - intros [[= ->]|Hin].
    + destruct (sql_max column) as [z|]; eexists; split; eauto; lia.
    + destruct (IH Hin) as (m & -> & Hm). eexists; split; eauto. lia.
  - intros [|Hin]; [discriminate|]. auto.
Qed.

Lemma last_consumption_date_max (db : DB) (line : ContractLine.t) :
  last_consumption_date db line
  = sql_max (map ContractConsumption.end_period_date
               (consumptions_of db (ContractLine.id line))).
Proof.
  unfold last_consumption_date, get_last_consumption_date. simpl.
  rewrite Z.eqb_refl. reflexivity.
Qed.

Lemma map_snd_number_from {A : Type} (records : list A) :
  forall n, map snd (number_from n records) = records.
Proof.
  induction records as [|x records IH]; intros n; simpl; [reflexivity|].
  rewrite IH. reflexivity.
Qed.

(** The consumptions of a line after a run: the ones it had and the ones
    the run created for it. *)
Lemma consumptions_of_after_create (db : DB)
    (to_create : list ContractConsumption.t) (id : Z)
    (c : ContractConsumption.t) :
  In c (consumptions_of
          (with_consumptions db
             (consumptions db ++ create (consumptions db) to_create)) id)
  <-> In c (consumptions_of db id)
      \/ (In c to_create
          /\ ContractLine.id (ContractConsumption.contract_line c) = id).
Proof.
  unfold consumptions_of. cbn [consumptions with_consumptions].
  rewrite filter_app, map_app, in_app_iff.
  apply or_iff_compat_l.
  rewrite in_map_iff. split.
  - intros ([k c'] & Heq & Hin). simpl in Heq. subst c'.
    apply filter_In in Hin. destruct Hin as (Hin & Hid). simpl in Hid.
    split; [|lia].
    unfold create in Hin.
    rewrite <- (map_snd_number_from to_create (next_id (consumptions db))).
    apply in_map_iff. exists (k, c). auto.
  - intros (Hin & Hid).
    unfold create.
    rewrite <- (map_snd_number_from to_create (next_id (consumptions db))) in Hin.
    apply in_map_iff in Hin. destruct Hin as ([k c'] & Heq & Hin).
    simpl in Heq. subst c'. exists (k, c). split; [reflexivity|].
    apply filter_In. split; [exact Hin|]. simpl. lia.
Qed.

Lemma concat_results_members {A B : Type} (f : A -> result (list B))
    (l : list A) (ys : list B) :
  concat_results f l = Ok ys ->
  (forall x, In x l -> exists zs, f x = Ok zs /\ incl zs ys)
  /\ (forall y, In y ys -> exists x zs, In x l /\ f x = Ok zs /\ In y zs).
Proof.
  revert ys. induction l as [|x l IH]; intros ys H; simpl in H.
  - inversion H; subst. split; [intros x []|intros y []].
  - bind_inv H as zs Hzs. bind_inv H as rest Hrest. inversion H; subst.
    destruct (IH _ Hrest) as (IH1 & IH2). split.
    + intros x' [<-|Hin].
      * exists zs. split; [exact Hzs|]. intros y Hy. apply in_app_iff. auto.
      * destruct (IH1 x' Hin) as (zs' & Hf & Hincl).
        exists zs'. split; [exact Hf|]. intros y Hy. apply in_app_iff. auto.
    + intros y Hy. apply in_app_iff in Hy. destruct Hy as [Hy|Hy].
      * exists x, zs. repeat split; simpl; auto.
      * destruct (IH2 y Hy) as (x' & zs' & Hin & Hf & Hy').
        exists x', zs'. repeat split; simpl; auto.
Qed.

Lemma consumptions_loop_range (self : Contract.t) (line : ContractLine.t)
    (dates : list date) :
  forall start lcd lid cs,
    consumptions_loop self line dates start lcd lid = Ok cs ->
    Forall (fun d => in_range (d - 1)) dates.
Proof.
  induction dates as [|d dates IH]; intros start lcd lid cs H; [constructor|].
  pose proof H as H'. apply consumptions_loop_cons in H'.
  destruct H' as (inv & rest & _ & Hrest & _).
  cbn [consumptions_loop] in H. bind_inv H as d1 Hd1.
  apply add_days_spec in Hd1. destruct Hd1 as (_ & Hd1).
  constructor; [|eapply IH; eauto].
  replace (d - 1) with (d + -1) by lia. exact Hd1.
Qed.

Lemma line_consumptions_range (db : DB) (self : Contract.t) (end_date : date)
    (line : ContractLine.t) (cs : list ContractConsumption.t) (l : date) :
  line_consumptions db self end_date line = Ok cs ->
  last_consumption_date db line = Some l ->
  in_range (l + 1) /\ in_range (l + 2).
Proof.
  unfold line_consumptions, todatetime. intros H Hl. rewrite Hl in H.
  bind_inv H as lcd Hlcd. bind_inv Hlcd as l1 Hl1.
  apply add_days_spec in Hl1. destruct Hl1 as (-> & Hr1).
  inversion Hlcd; subst.
  bind_inv H as start Hstart. bind_inv Hstart as l2 Hl2.
  apply add_days_spec in Hl2. destruct Hl2 as (-> & Hr2).
  replace (l + 1 + 1) with (l + 2) in Hr2 by lia. auto.
Qed.

(** A line whose window holds no occurrence gets no consumption. *)
Lemma line_consumptions_empty (db : DB) (self : Contract.t) (end_date : date)
    (line : ContractLine.t) (r : Dateutil.rrule) :
  rrule self = Ok r ->
  match last_consumption_date db line with
  | Some l =>
      in_range (l + 1) /\ in_range (l + 2)
      /\ Dateutil.between r (l + 2) end_date = Ok []
  | None =>
      Dateutil.between r (Contract.start_period_date self) end_date = Ok []
  end ->
  line_consumptions db self end_date line = Ok [].
Proof.
  intros Hr H. unfold line_consumptions, todatetime, date_of.
  destruct (last_consumption_date db line) as [l|].
  - destruct H as (H1 & H2 & Hb).
    rewrite (proj2 (add_days_spec l 1 (l + 1)) (conj eq_refl H1)).
    cbn [bind].
    replace (l + 2) with (l + 1 + 1) in H2, Hb by lia.
    rewrite (proj2 (add_days_spec (l + 1) 1 (l + 1 + 1)) (conj eq_refl H2)).
    cbn [bind]. rewrite Hr. cbn [bind]. rewrite Hb. reflexivity.
  - cbn [bind]. rewrite Hr. cbn [bind]. rewrite H. reflexivity.
Qed.

Lemma NoDup_map_injective {A B : Type} (f : A -> B) (l : list A) (a b : A) :
  NoDup (map f l) -> In a l -> In b l -> f a = f b -> a = b.
Proof.
  induction l as [|x l IH]; simpl; intros Hnd Ha Hb Heq; [contradiction|].
  inversion Hnd as [|? ? Hnotin Hnd']; subst.
  destruct Ha as [->|Ha], Hb as [->|Hb]; auto.
  - exfalso. apply Hnotin. rewrite Heq. apply in_map. exact Hb.
  - exfalso. apply Hnotin. rewrite <- Heq. apply in_map. exact Ha.
Qed.

Lemma Forall2_In_l {A B : Type} (P : A -> B -> Prop) (l : list A) (l' : list B)
    (a : A) :
  Forall2 P l l' -> In a l -> exists b, In b l' /\ P a b.
Proof.
  induction 1 as [|x y l l' Hxy _ IH]; simpl; [intros []|].
  intros [->|Hin]; [eauto|].
  destruct (IH Hin) as (b & Hb & HP). eauto.
Qed.

Lemma Forall2_In_r {A B : Type} (P : A -> B -> Prop) (l : list A) (l' : list B)
    (b : B) :
  Forall2 P l l' -> In b l' -> exists a, In a l /\ P a b.
Proof.
  induction 1 as [|x y l l' Hxy _ IH]; simpl; [intros []|].
  intros [->|Hin]; [eauto|].
  destruct (IH Hin) as (a & Ha & HP). eauto.
Qed.

Section SecondRun.
Variables (db : DB) (contracts : list Contract.t) (end_date : date).
Variable to_create : list ContractConsumption.t.
Hypothesis line_ids : NoDup (map ContractLine.id (contract_lines db)).
Hypothesis contract_ids : NoDup (map Contract.id contracts).
Hypothesis end_in_range : end_date <= Calendar.MAXORD.
Hypothesis first_run :
  concat_results (fun c => get_consumptions db c (Some end_date)) contracts
  = Ok to_create.

Let db1 : DB :=
  with_consumptions db (consumptions db ++ create (consumptions db) to_create).

(** What the first run did for a line of a contract. *)
Lemma first_run_line (c : Contract.t) (line : ContractLine.t) :
  In c contracts ->
  In line (Contract_lines db c) ->
  exists r dates cs,
    rrule c = Ok r
    /\ Dateutil.between r
         (match last_consumption_date db line with
          | Some l => l + 2
          | None => Contract.start_period_date c
          end) end_date = Ok dates
    /\ line_consumptions db c end_date line = Ok cs
    /\ incl cs to_create
    /\ Forall2
         (fun d x =>
            ContractConsumption.contract_line x = line
            /\ ContractConsumption.end_period_date x = Some (d - 1)
            /\ ContractConsumption.end_date x = Some (d - 1))
         dates cs
    /\ Forall (fun d => in_range (d - 1)) dates.
Proof.
  intros Hc Hline.
  destruct (proj1 (concat_results_members _ _ _ first_run) c Hc)
    as (zs & Hzs & Hincl).
  unfold get_consumptions, todatetime in Hzs.
  destruct (proj1 (concat_results_members _ _ _ Hzs) line Hline)
    as (cs & Hcs & Hincl').
  pose proof Hcs as H. apply line_consumptions_Ok in H.
  destruct H as (r & dates & Hr & Hb & Hloop).
  exists r, dates, cs. repeat split; auto.
  - intros x Hx. apply Hincl, Hincl', Hx.
  - eapply consumptions_loop_periods; eauto.
  - eapply consumptions_loop_range; eauto.
Qed.

(** A created consumption belongs to the run of its own line. *)
Lemma created_origin (c : Contract.t) (line : ContractLine.t)
    (cs : list ContractConsumption.t) (x : ContractConsumption.t) :
  In c contracts ->
  In line (Contract_lines db c) ->
  line_consumptions db c end_date line = Ok cs ->
  In x to_create ->
  ContractLine.id (ContractConsumption.contract_line x) = ContractLine.id line ->
  In x cs.
Proof.
  intros Hc Hline Hcs Hx Hid.
  destruct (proj2 (concat_results_members _ _ _ first_run) x Hx)
    as (c' & zs & Hc' & Hzs & Hxz).
  unfold get_consumptions, todatetime in Hzs.
  destruct (proj2 (concat_results_members _ _ _ Hzs) x Hxz)
    as (line' & cs' & Hline' & Hcs' & Hxc).
  destruct (first_run_line c' line' Hc' Hline')
    as (r & dates & cs'' & _ & _ & Hcs'' & _ & HF & _).
  rewrite Hcs' in Hcs''. inversion Hcs''; subst cs''.
  destruct (Forall2_In_r _ _ _ _ HF Hxc) as (d & _ & Hcl & _).
  rewrite Hcl in Hid.
  apply filter_In in Hline. destruct Hline as (Hl & Hcid).
  apply filter_In in Hline'. destruct Hline' as (Hl' & Hcid').
  apply Z.eqb_eq in Hcid, Hcid'.
  assert (Hline_eq : line' = line)
    by (eapply NoDup_map_injective; eauto).
  rewrite Hline_eq in Hcs', Hcid'.
  assert (Hc_eq : c' = c).
  { eapply (NoDup_map_injective Contract.id); eauto. congruence. }
  rewrite Hc_eq in Hcs'. rewrite Hcs in Hcs'. inversion Hcs'; subst cs'.
  exact Hxc.
Qed.

(** The second run finds no occurrence left for any line. *)
Lemma second_run_line (c : Contract.t) (line : ContractLine.t) :
  In c contracts ->
  In line (Contract_lines db c) ->
  line_consumptions db1 c end_date line = Ok [].
Proof.
  intros Hc Hline.
  destruct (first_run_line c line Hc Hline)
    as (r & dates & cs & Hr & Hb & Hcs & Hincl & HF & Hrange).
  pose proof (DateutilFacts.between_spec _ _ _ _ Hb) as Hspec.
  assert (Hrows : forall x,
            In x (consumptions_of db1 (ContractLine.id line))
            <-> In x (consumptions_of db (ContractLine.id line))
                \/ (In x to_create
                    /\ ContractLine.id (ContractConsumption.contract_line x)
                       = ContractLine.id line))
    by (intros x; apply consumptions_of_after_create).
  (* every date of the first run is recorded for the line *)
  assert (Hrecorded : forall d, In d dates ->
            In (Some (d - 1))
               (map ContractConsumption.end_period_date
                    (consumptions_of db1 (ContractLine.id line)))).
  { intros d Hd. destruct (Forall2_In_l _ _ _ _ HF Hd) as (x & Hx & Hcl & Hep & _).
    rewrite <- Hep. apply in_map. apply Hrows. right.
    split; [apply Hincl, Hx|]. rewrite Hcl. reflexivity. }
  (* a recorded period end is an old one or one of the first run *)
  assert (Horigin : forall m,
            In (Some m)
               (map ContractConsumption.end_period_date
                    (consumptions_of db1 (ContractLine.id line))) ->
            In (Some m)
               (map ContractConsumption.end_period_date
                    (consumptions_of db (ContractLine.id line)))
            \/ exists d, In d dates /\ m = d - 1).
  { intros m Hm. apply in_map_iff in Hm. destruct Hm as (x & Hep & Hx).
    apply Hrows in Hx. destruct Hx as [Hx|(Hx & Hid)].
    - left. rewrite <- Hep. apply in_map. exact Hx.
    - right. pose proof (created_origin c line cs x Hc Hline Hcs Hx Hid) as Hxc.
      destruct (Forall2_In_r _ _ _ _ HF Hxc) as (d & Hd & _ & Hep' & _).
      exists d. split; [exact Hd|]. congruence. }
  assert (Hold : forall m,
            In (Some m)
               (map ContractConsumption.end_period_date
                    (consumptions_of db (ContractLine.id line))) ->
            In (Some m)
               (map ContractConsumption.end_period_date
                    (consumptions_of db1 (ContractLine.id line)))).
  { intros m Hm. apply in_map_iff in Hm. destruct Hm as (x & Hep & Hx).
    rewrite <- Hep. apply in_map. apply Hrows. left. exact Hx. }
  apply (line_consumptions_empty db1 c end_date line r Hr).
  rewrite (last_consumption_date_max db1).
  rewrite (last_consumption_date_max db) in Hb, Hspec.
  pose proof (line_consumptions_range db c end_date line cs) as Hrange1.
  rewrite (last_consumption_date_max db) in Hrange1.
  destruct (sql_max (map ContractConsumption.end_period_date
                         (consumptions_of db1 (ContractLine.id line))))
    as [m|] eqn:Emax.
  - pose proof (sql_max_attained _ _ Emax) as Hm.
    assert (Hupper : forall x,
              In (Some x)
                 (map ContractConsumption.end_period_date
                      (consumptions_of db1 (ContractLine.id line))) ->
              x <= m).
    { intros x Hx. destruct (sql_max_upper _ _ Hx) as (m' & Hm' & Hle).
      rewrite Emax in Hm'. inversion Hm'; subst. exact Hle. }
    assert (Hbounds : in_range (m + 1) /\ in_range (m + 2)).
    { destruct (Horigin m Hm) as [Ho|(d & Hd & ->)].
      - destruct (sql_max_upper _ _ Ho) as (m1 & Hm1 & Hle).
        pose proof (Hupper m1 (Hold m1 (sql_max_attained _ _ Hm1))).
        assert (m1 = m) by lia. subst m1. apply Hrange1; auto.
      - pose proof (proj1 (Forall_forall _ _) Hrange d Hd) as Hd1.
        destruct (proj1 (Hspec d) Hd) as (_ & _ & Hlt).
        unfold in_range in *. lia. }
    destruct Hbounds as (Hb1 & Hb2). split; [exact Hb1|]. split; [exact Hb2|].
    destruct (DateutilFacts.between_any_after r _ (m + 2) _ _ Hb)
      as (dates2 & Hb').
    rewrite Hb'. f_equal.
    destruct dates2 as [|i dates2]; [reflexivity|exfalso].
    destruct (proj1 (DateutilFacts.between_spec _ _ _ _ Hb' i) (or_introl eq_refl))
      as (Hocc & Hlo & Hhi).
    assert (Hin : In i dates).
    { apply Hspec. split; [exact Hocc|]. split; [|exact Hhi].
      destruct (sql_max (map ContractConsumption.end_period_date
                             (consumptions_of db (ContractLine.id line))))
        as [m1|] eqn:Emax1.
      - pose proof (Hupper m1 (Hold m1 (sql_max_attained _ _ Emax1))). lia.
      - destruct (Horigin m Hm) as [Ho|(d & Hd & ->)].
        + destruct (sql_max_upper _ _ Ho) as (m1 & Hm1 & _). congruence.
        + destruct (proj1 (Hspec d) Hd) as (_ & Hlt & _). lia. }
    pose proof (Hupper (i - 1) (Hrecorded i Hin)). lia.
  - assert (Emax1 : sql_max (map ContractConsumption.end_period_date
                                (consumptions_of db (ContractLine.id line)))
                    = None).
    { destruct (sql_max (map ContractConsumption.end_period_date
                             (consumptions_of db (ContractLine.id line))))
        as [m1|] eqn:Emax1; [|reflexivity].
      destruct (sql_max_upper _ _ (Hold m1 (sql_max_attained _ _ Emax1)))
        as (m' & Hm' & _).
      congruence. }
    rewrite Emax1 in Hb. rewrite Hb. f_equal.
    destruct dates as [|d dates]; [reflexivity|exfalso].
    destruct (sql_max_upper _ _ (Hrecorded d (or_introl eq_refl)))
      as (m' & Hm' & _).
    congruence.
Qed.

End SecondRun.

Lemma flat_map_nil {A B : Type} (l : list A) :
  flat_map (fun _ : A => @nil B) l = [].
Proof. induction l; simpl; auto. Qed.

(** C5.  Once the consumptions of a run are recorded, a second run for the
    same contracts and the same end date returns normally and creates no
    consumption at all (hence none that repeats a date range of the first
    run); the database is left as the first run left it.  Lines and
    contracts are told apart by their ids. *)
Theorem C5_second_run_creates_nothing (db : DB) (contracts : list Contract.t)
    (date : option date) (db1 : DB)
    (created : list (Z * ContractConsumption.t)) :
  NoDup (map ContractLine.id (contract_lines db)) ->
  NoDup (map Contract.id contracts) ->
  consume db contracts date = Ok (db1, created) ->
  consume db1 contracts date = Ok (db1, []).
Proof.
  intros Hlines Hcontracts H. unfold consume in H.
  destruct date as [d|]; [|discriminate].
  bind_inv H as e He. bind_inv H as to_create Hrun.
  inversion H; subst db1 created. clear H.
  unfold consume. rewrite He. cbn [bind].
  apply add_days_spec in He. destruct He as (-> & _ & Hmax).
  set (db1 := with_consumptions db
                (consumptions db ++ create (consumptions db) to_create)).
  assert (Hnone : forall c, In c contracts ->
            get_consumptions db1 c (Some (d + 1)) = Ok []).
  { intros c Hc. unfold get_consumptions, todatetime.
    change (Contract_lines db1 c) with (Contract_lines db c).
    rewrite (concat_results_all_Ok _ (fun _ => [])).
    - rewrite flat_map_nil. reflexivity.
    - intros line Hline.
      exact (second_run_line db contracts (d + 1) to_create Hlines Hcontracts
               Hmax Hrun c line Hc Hline). }
  rewrite (concat_results_all_Ok _ (fun _ => [])) by exact Hnone.
  rewrite flat_map_nil.
  cbn [bind]. unfold create at 1 2. cbn [number_from].
  rewrite app_nil_r. reflexivity.
Qed.

Lemma C5_second_run_creates_nothing_witness :
  let line := Sample.line_of Sample.monthly in
  let db := Sample.db_of [line] [] in
  let created := [(1, january_2020 Sample.monthly line); (2, february_2020 line)] in
  consume (with_consumptions db created) [Sample.monthly]
    (Some (mkdate 2020 3 31))
  = Ok (with_consumptions db created, []).
Proof.
  intros line db created.
  refine (C5_second_run_creates_nothing db [Sample.monthly]
            (Some (mkdate 2020 3 31)) (with_consumptions db created) created
            _ _ _).
  - repeat constructor; simpl; tauto.
  - repeat constructor; simpl; tauto.
  - vm_compute. reflexivity.
Defined.

(** ** Ordered keys *)

Lemma lex_Eq (c1 c2 : comparison) : lex c1 c2 = Eq <-> c1 = Eq /\ c2 = Eq.
Proof. destruct c1, c2; simpl; intuition discriminate. Qed.

Lemma lex_Lt (c1 c2 : comparison) :
  lex c1 c2 = Lt <-> c1 = Lt \/ (c1 = Eq /\ c2 = Lt).
Proof. destruct c1, c2; simpl; intuition discriminate. Qed.

#[export] Instance Ordered_Z : Ordered Z.
Proof.
  refine {| cmp := Z.compare |}.
  - apply Z.compare_refl.
  - intros x y. apply Z.compare_antisym.
  - intros x y z. rewrite !Z.compare_lt_iff. lia.
  - intros x y z H. apply Z.compare_eq in H. subst. reflexivity.
Defined.

#[export] Instance Ordered_string : Ordered string.
Proof.
  refine {| cmp := String.compare |}.
  - intros x. pose proof (String.compare_antisym x x) as H.
    destruct (String.compare x x); simpl in H; congruence.
  - intros x y. apply String.compare_antisym.
  - intros x y z H1 H2.
    apply OrderedTypeEx.String_as_OT.cmp_lt in H1, H2.
    apply OrderedTypeEx.String_as_OT.cmp_lt.
    eapply OrderedTypeEx.String_as_OT.lt_trans; eauto.
  - intros x y z H. apply String.compare_eq_iff in H. subst. reflexivity.
Defined.

#[export] Instance Ordered_option_date : Ordered (option date).
Proof.
  refine {| cmp := option_compare |}.
  - intros [x|]; simpl; [apply Z.compare_refl|reflexivity].
  - intros [x|] [y|]; simpl; try reflexivity. apply Z.compare_antisym.
  - intros [x|] [y|] [z|]; simpl; try discriminate; try reflexivity.
    rewrite !Z.compare_lt_iff. lia.
  - intros [x|] [y|] [z|]; simpl; try discriminate; try reflexivity;
      intros H; apply Z.compare_eq in H; subst; reflexivity.
Defined.

#[export] Instance Ordered_party : Ordered Party.t.
Proof.
  refine {| cmp := party_compare |}; unfold party_compare.
  - intros x. apply Z.compare_refl.
  - intros x y. apply Z.compare_antisym.
  - intros x y z. rewrite !Z.compare_lt_iff. lia.
  - intros x y z H. apply Z.compare_eq in H. rewrite H. reflexivity.
Defined.

#[export] Instance Ordered_pair {A B : Type} `{Ordered A} `{Ordered B}
  : Ordered (A * B).
Proof.
  refine {| cmp := pair_compare cmp cmp |}; unfold pair_compare.
  - intros [a b]. simpl. rewrite !cmp_refl. reflexivity.
  - intros [a b] [a' b']. simpl.
    rewrite (cmp_antisym a a'), (cmp_antisym b b').
    destruct (cmp a a'), (cmp b b'); reflexivity.
  - intros [a b] [a' b'] [a'' b'']. simpl. rewrite !lex_Lt.
    intros [H1|[H1 H1']] [H2|[H2 H2']].
    + left. eapply cmp_trans; eauto.
    + left. rewrite (cmp_antisym a' a) in H1.
      rewrite (cmp_antisym a'' a). rewrite <- (cmp_eq_compat _ _ a H2).
      destruct (cmp a' a); simpl in *; congruence.
    + left. rewrite (cmp_eq_compat _ _ a'' H1). exact H2.
    + right. split.
      * rewrite (cmp_eq_compat _ _ a'' H1). exact H2.
      * eapply cmp_trans; eauto.
  - intros [a b] [a' b'] [a'' b'']. simpl. rewrite lex_Eq. intros [H1 H2].
    rewrite (cmp_eq_compat _ _ a'' H1), (cmp_eq_compat _ _ b'' H2).
    reflexivity.
Defined.

#[export] Instance Ordered_invoice_key : Ordered invoice_key :=
  Ordered_pair.

Lemma cmp_invoice_key : @cmp invoice_key _ = key_compare.
Proof. reflexivity. Qed.

(** ** Sorting and grouping by key *)

Section SortGroupFacts.
Context {A K : Type} `{Ordered K} (key : A -> K).

Lemma cmp_Eq_sym (x y : K) : cmp x y = Eq -> cmp y x = Eq.
Proof. intros E. rewrite cmp_antisym, E. reflexivity. Qed.

Lemma cmp_eq_compat_r (x y z : K) : cmp x y = Eq -> cmp z x = cmp z y.
Proof.
  intros E. rewrite (cmp_antisym x z), (cmp_antisym y z).
  rewrite (cmp_eq_compat _ _ z E). reflexivity.
Qed.

Lemma cmp_Gt_Lt (x y : K) : cmp x y = Gt <-> cmp y x = Lt.
Proof.
  rewrite (cmp_antisym y x). destruct (cmp y x); simpl; intuition discriminate.
Qed.

Lemma cmp_lt_le_trans (x y z : K) :
  cmp x y = Lt -> cmp y z <> Gt -> cmp x z = Lt.
Proof.
  intros H1 H2. destruct (cmp y z) eqn:E.
  - rewrite <- (cmp_eq_compat_r _ _ x E). exact H1.
  - eapply cmp_trans; eauto.
  - congruence.
Qed.

Lemma cmp_le_trans (x y z : K) :
  cmp x y <> Gt -> cmp y z <> Gt -> cmp x z <> Gt.
Proof.
  intros H1 H2. destruct (cmp x y) eqn:E.
  - rewrite (cmp_eq_compat _ _ z E). exact H2.
  - rewrite (cmp_lt_le_trans x y z E H2). discriminate.
  - congruence.
Qed.

Lemma insert_sorted_perm (x : A) (l : list A) :
  Permutation (insert_sorted key cmp x l) (x :: l).
Proof.
  induction l as [|y l IH]; simpl; [reflexivity|].
  destruct (cmp (key y) (key x)); try reflexivity.
  rewrite IH. apply perm_swap.
Qed.

Lemma sorted_perm (l : list A) : Permutation (sorted key cmp l) l.
Proof.
  induction l as [|x l IH]; simpl; [reflexivity|].
  rewrite insert_sorted_perm. constructor. exact IH.
Qed.

Lemma insert_sorted_sorted (x : A) (l : list A) :
  StronglySorted (key_le key cmp) l -> StronglySorted (key_le key cmp) (insert_sorted key cmp x l).
Proof.
  induction l as [|y l IH]; intros Hs; simpl.
  - repeat constructor.
  - apply StronglySorted_inv in Hs. destruct Hs as (Hs & Hy).
    destruct (cmp (key y) (key x)) eqn:E.
    + constructor; [constructor; auto|].
      assert (Hxy : key_le key cmp x y)
        by (unfold key_le; rewrite (cmp_Eq_sym _ _ E); discriminate).
      constructor; [exact Hxy|].
      eapply Forall_impl; [|exact Hy].
      intros a Ha. unfold key_le in *. eapply cmp_le_trans; eauto.
    + constructor; [auto|].
      apply (Permutation_Forall (Permutation_sym (insert_sorted_perm x l))).
      constructor; [unfold key_le; rewrite E; discriminate|exact Hy].
    + constructor; [constructor; auto|].
      assert (Hxy : key_le key cmp x y).
      { unfold key_le. apply cmp_Gt_Lt in E. rewrite E. discriminate. }
      constructor; [exact Hxy|].
      eapply Forall_impl; [|exact Hy].
      intros a Ha. unfold key_le in *. eapply cmp_le_trans; eauto.
Qed.

Lemma sorted_sorted (l : list A) : StronglySorted (key_le key cmp) (sorted key cmp l).
Proof.
  induction l as [|x l IH]; simpl; [constructor|].
  apply insert_sorted_sorted. exact IH.
Qed.

Lemma groupby_nil (l : list A) : groupby key cmp l = [] -> l = [].
Proof.
  destruct l as [|x l]; [reflexivity|]. simpl.
  destruct (groupby key cmp l) as [|[k g] gs]; [discriminate|].
  destruct (cmp (key x) k); discriminate.
Qed.

Lemma groupby_head (x : A) (l : list A) :
  exists g gs, groupby key cmp (x :: l) = (key x, x :: g) :: gs.
Proof.
  simpl. destruct (groupby key cmp l) as [|[k g] gs]; [eauto|].
  destruct (cmp (key x) k); eauto.
Qed.

Lemma groupby_concat (l : list A) :
  List.concat (map snd (groupby key cmp l)) = l.
Proof.
  induction l as [|x l IH]; simpl; [reflexivity|].
  destruct (groupby key cmp l) as [|[k g] gs].
  - simpl in *. rewrite <- IH. reflexivity.
  - destruct (cmp (key x) k); simpl in *; rewrite <- IH; reflexivity.
Qed.

Lemma groupby_nonempty (l : list A) (k : K) (g : list A) :
  In (k, g) (groupby key cmp l) -> g <> [].
Proof.
  revert k g. induction l as [|x l IH]; intros k g; simpl; [intros []|].
  destruct (groupby key cmp l) as [|[k1 g1] gs].
  - intros [[= <- <-]|[]]. discriminate.
  - destruct (cmp (key x) k1); simpl.
    + intros [[= <- <-]|Hin]; [discriminate|]. apply (IH k g). right. exact Hin.
    + intros [[= <- <-]|Hin]; [discriminate|]. apply (IH k g). exact Hin.
    + intros [[= <- <-]|Hin]; [discriminate|]. apply (IH k g). exact Hin.
Qed.

(** The keys of the groups of a sorted list increase strictly. *)
Lemma groupby_keys_sorted (l : list A) :
  StronglySorted (key_le key cmp) l ->
  StronglySorted (fun k k' => cmp k k' = Lt) (map fst (groupby key cmp l)).
Proof.
  induction l as [|x l IH]; intros Hs; [constructor|].
  apply StronglySorted_inv in Hs. destruct Hs as (Hs & Hx).
  specialize (IH Hs). simpl.
  destruct (groupby key cmp l) as [|[k1 g1] gs] eqn:E.
  - repeat constructor.
  - destruct l as [|y l']; [discriminate|].
    destruct (groupby_head y l') as (g' & gs' & Ehead).
    rewrite Ehead in E. injection E as Ek _ _. subst k1.
    assert (Hxy : cmp (key x) (key y) <> Gt)
      by (inversion Hx; assumption).
    simpl in IH. apply StronglySorted_inv in IH. destruct IH as (IH1 & IH2).
    destruct (cmp (key x) (key y)) eqn:C; [| |congruence]; simpl.
    + constructor; [exact IH1|].
      eapply Forall_impl; [|exact IH2].
      intros k Hk. simpl in Hk. rewrite (cmp_eq_compat _ _ k C). exact Hk.
    + constructor; [constructor; assumption|].
      constructor; [exact C|].
      eapply Forall_impl; [|exact IH2].
      intros k Hk. simpl in Hk. eapply cmp_trans; eauto.
Qed.

Lemma filter_none {B : Type} (p : B -> bool) (l : list B) :
  (forall a, In a l -> p a = false) -> filter p l = [].
Proof.
  induction l as [|x l IH]; intros Hp; simpl; [reflexivity|].
  rewrite (Hp x (or_introl eq_refl)). apply IH. intros a Ha. apply Hp. right. exact Ha.
Qed.

Lemma groupby_first (l : list A) (k1 : K) (g1 : list A)
    (gs : list (K * list A)) :
  StronglySorted (key_le key cmp) l ->
  groupby key cmp l = (k1, g1) :: gs ->
  exists y,
    In y l /\ k1 = key y /\ forall a, In a l -> cmp (key y) (key a) <> Gt.
Proof.
  intros Hs E. destruct l as [|y l']; [discriminate|].
  destruct (groupby_head y l') as (g' & gs' & Ehead).
  rewrite Ehead in E. injection E as Ek _ _.
  exists y. split; [left; reflexivity|]. split; [auto|].
  intros a [<-|Ha]; [rewrite cmp_refl; discriminate|].
  apply StronglySorted_inv in Hs. destruct Hs as (_ & Hy).
  rewrite Forall_forall in Hy. apply Hy. exact Ha.
Qed.

(** A group of a sorted list holds all the items of its key. *)
Lemma groupby_filter (l : list A) :
  StronglySorted (key_le key cmp) l ->
  forall k g,
    In (k, g) (groupby key cmp l) ->
    g = filter (fun a => is_Eq (cmp (key a) k)) l.
Proof.
  induction l as [|x l IH]; intros Hs k g Hin; [destruct Hin|].
  pose proof (groupby_keys_sorted l) as Hkeys.
  apply StronglySorted_inv in Hs. destruct Hs as (Hs & Hx).
  specialize (IH Hs). specialize (Hkeys Hs). simpl in Hin.
  destruct (groupby key cmp l) as [|[k1 g1] gs] eqn:E.
  - apply groupby_nil in E. subst l.
    destruct Hin as [[= <- <-]|[]]. simpl. rewrite cmp_refl. reflexivity.
  - destruct (groupby_first l k1 g1 gs Hs E) as (y & Hy & -> & Hmin).
    assert (Hxy : cmp (key x) (key y) <> Gt).
    { rewrite Forall_forall in Hx. apply Hx. exact Hy. }
    simpl in Hkeys. apply StronglySorted_inv in Hkeys.
    destruct Hkeys as (_ & Hk1).
    destruct (cmp (key x) (key y)) eqn:C; [| |congruence].
    + (* x joins the first group *)
      destruct Hin as [[= <- <-]|Hin].
      * cbn [filter]. rewrite cmp_refl. cbn [is_Eq]. f_equal.
        rewrite (IH (key y) g1 (or_introl eq_refl)).
        apply filter_ext. intros a.
        rewrite (cmp_eq_compat_r _ _ (key a) C). reflexivity.
      * cbn [filter].
        assert (Hlt : cmp (key y) k = Lt).
        { rewrite Forall_forall in Hk1. apply Hk1.
          apply in_map_iff. exists (k, g). auto. }
        rewrite (cmp_eq_compat _ _ k C), Hlt. cbn [is_Eq].
        apply IH. right. exact Hin.
    + (* x opens a group of its own *)
      destruct Hin as [[= <- <-]|Hin].
      * cbn [filter]. rewrite cmp_refl. cbn [is_Eq]. f_equal. symmetry.
        apply filter_none. intros a Ha.
        pose proof (cmp_lt_le_trans _ _ _ C (Hmin a Ha)) as Hxa.
        apply cmp_Gt_Lt in Hxa. rewrite Hxa. reflexivity.
      * cbn [filter].
        assert (Hlt : cmp (key x) k = Lt).
        { destruct Hin as [[= <- _]|Hin]; [exact C|].
          eapply cmp_trans; [exact C|].
          rewrite Forall_forall in Hk1. apply Hk1.
          apply in_map_iff. exists (k, g). auto. }
        rewrite Hlt. cbn [is_Eq]. apply IH. exact Hin.
Qed.

Lemma Permutation_filter_compat {B : Type} (p : B -> bool) (l l' : list B) :
  Permutation l l' -> Permutation (filter p l) (filter p l').
Proof.
  induction 1 as [|x l l' _ IH|x y l|l l' l'' _ IH1 _ IH2]; simpl.
  - constructor.
  - destruct (p x); [constructor|]; exact IH.
  - destruct (p x), (p y); try reflexivity. apply perm_swap.
  - etransitivity; eauto.
Qed.

(** Sorting then grouping puts every item in the group of its key: one
    group per key, each holding the items of that key. *)
Theorem sorted_groupby (l : list A) :
  let groups := groupby key cmp (sorted key cmp l) in
  StronglySorted (fun k k' => cmp k k' = Lt) (map fst groups)
  /\ (forall k g, In (k, g) groups ->
        g <> []
        /\ Permutation g (filter (fun a => is_Eq (cmp (key a) k)) l))
  /\ (forall a, In a l -> exists k g, In (k, g) groups /\ In a g).
Proof.
  intros groups. pose proof (sorted_sorted l) as Hs. split; [|split].
  - apply groupby_keys_sorted. exact Hs.
  - intros k g Hin. split; [eapply groupby_nonempty; eauto|].
    rewrite (groupby_filter _ Hs k g Hin).
    apply Permutation_filter_compat, sorted_perm.
  - intros a Ha.
    assert (Ha' : In a (List.concat (map snd groups))).
    { unfold groups. rewrite groupby_concat.
      eapply Permutation_in; [symmetry; apply sorted_perm|exact Ha]. }
    apply in_concat in Ha'. destruct Ha' as (g & Hg & Hag).
    apply in_map_iff in Hg. destruct Hg as ([k g'] & Heq & Hin).
    simpl in Heq. subst g'. eauto.
Qed.

End SortGroupFacts.

(** ** Invoice lines *)

Lemma py_round_compat (x y : Q) : x == y -> Uom.py_round x = Uom.py_round y.
Proof.
  intros E. unfold Uom.py_round.
  assert (Hle : Qle_bool 0 x = Qle_bool 0 y).
  { destruct (Qle_bool 0 x) eqn:Hx, (Qle_bool 0 y) eqn:Hy; auto.
    - apply Qle_bool_iff in Hx. rewrite E in Hx. apply Qle_bool_iff in Hx.
      congruence.
    - apply Qle_bool_iff in Hy. rewrite <- E in Hy. apply Qle_bool_iff in Hy.
      congruence. }
  rewrite Hle. destruct (Qle_bool 0 y).
  - apply Qfloor_comp. rewrite E. reflexivity.
  - apply Qceiling_comp. rewrite E. reflexivity.
Qed.

Lemma Uom_round_compat (x y p : Q) : x == y -> Uom.round x p = Uom.round y p.
Proof.
  intros E. unfold Uom.round. destruct (Qeq_bool p 0); [reflexivity|].
  f_equal. apply Qred_complete.
  rewrite (py_round_compat (x / p) (y / p)) by (rewrite E; reflexivity).
  reflexivity.
Qed.

Lemma inject_Z_zero (z : Z) : inject_Z z == 0 <-> z = 0.
Proof. unfold Qeq. simpl. lia. Qed.

Lemma total_seconds_ratio (a b : Z) :
  b <> 0 ->
  (total_seconds a / total_seconds b == inject_Z a / inject_Z b)%Q.
Proof.
  intros Hb. unfold total_seconds. rewrite !inject_Z_mult.
  field. rewrite inject_Z_zero. exact Hb.
Qed.

(** When an invoice line is built, its quantity is the ratio of the span of
    the consumption to the span of its period, rounded to the rounding of
    the unit of the product (to 1 without a product); the ratio of a
    consumption that spans its whole period is 1. *)
Lemma get_invoice_line_quantity (db : DB) (self : ContractConsumption.t)
    (il : InvoiceLine.t) :
  get_invoice_line db self = Ok il ->
  exists s e ip ep,
    ContractConsumption.start_date self = Some s
    /\ ContractConsumption.end_date self = Some e
    /\ ContractConsumption.init_period_date self = Some ip
    /\ ContractConsumption.end_period_date self = Some ep
    /\ ep - ip <> 0
    /\ InvoiceLine.unit il
       = option_map Product.default_uom
           (option_map ContractService.product
              (ContractLine.service (ContractConsumption.contract_line self)))
    /\ Uom.round (inject_Z (e - s) / inject_Z (ep - ip)) (rounding_of il)
       = Ok (InvoiceLine.quantity il)
    /\ (e - s = ep - ip ->
        Uom.round 1 (rounding_of il) = Ok (InvoiceLine.quantity il)).
Proof.
  unfold get_invoice_line. intros H.
  bind_inv H as head Hhead. destruct head as [[unit taxes] account].
  assert (Hunit : unit
                  = option_map Product.default_uom
                      (option_map ContractService.product
                         (ContractLine.service
                            (ContractConsumption.contract_line self)))).
  { destruct (ContractLine.service (ContractConsumption.contract_line self))
      as [service|]; simpl in Hhead.
    - bind_inv Hhead as a Ha. inversion Hhead; reflexivity.
    - bind_inv Hhead as a Ha. inversion Hhead; reflexivity. }
  clear Hhead.
  bind_inv H as e He. bind_inv H as s Hs. bind_inv H as ep Hep.
  bind_inv H as ip Hip.
  destruct (ContractConsumption.end_date self) as [e'|]; [|discriminate].
  destruct (ContractConsumption.start_date self) as [s'|]; [|discriminate].
  destruct (ContractConsumption.end_period_date self) as [ep'|]; [|discriminate].
  destruct (ContractConsumption.init_period_date self) as [ip'|]; [|discriminate].
  simpl in He, Hs, Hep, Hip.
  inversion He; inversion Hs; inversion Hep; inversion Hip; subst e' s' ep' ip'.
  bind_inv H as q Hq. bind_inv H as quantity Hquantity.
  inversion H; subst il; clear H. cbn [InvoiceLine.unit InvoiceLine.quantity].
  unfold rounding_of. cbn [InvoiceLine.unit].
  unfold float_div in Hq.
  destruct (Qeq_bool (total_seconds (ep - ip)) 0) eqn:Ez; [discriminate|].
  inversion Hq; subst q; clear Hq.
  assert (Hnz : ep - ip <> 0).
  { intros Hz. rewrite Hz in Ez. discriminate. }
  exists s, e, ip, ep. repeat split; auto.
  - rewrite <- Hquantity. apply Uom_round_compat. symmetry.
    apply total_seconds_ratio. exact Hnz.
  - intros Hfull. rewrite <- Hquantity. apply Uom_round_compat.
    rewrite total_seconds_ratio by exact Hnz. rewrite Hfull.
    symmetry. apply Qmult_inv_r. rewrite inject_Z_zero. exact Hnz.
Qed.

(** C7 at a failing input.  The consumptions of a daily contract start and
    end on the same day, and so do their periods: they span their whole
    period, yet no invoice line can be built for them, because the span of
    the period, which divides, is zero. *)
Theorem C7_daily_consumption_divides_by_zero :
  let line := Sample.line_of Sample.daily in
  let db := Sample.db_of [line] [] in
  let day (d : date) := get_consumption line d d d d d in
  get_consumptions db Sample.daily (Some (mkdate 2020 1 4))
  = Ok [day (mkdate 2020 1 1); day (mkdate 2020 1 2)]
  /\ get_invoice_line db (day (mkdate 2020 1 1)) = Raise ZeroDivisionError
  /\ get_invoice_line db (day (mkdate 2020 1 2)) = Raise ZeroDivisionError.
Proof.
  intros line db day. repeat split; vm_compute; reflexivity.
Qed.

(** ** Tables *)

Lemma next_id_bound {A : Type} (table : list (Z * A)) (k : Z) (v : A) :
  In (k, v) table -> k < next_id table.
Proof.
  induction table as [|[k' v'] table IH]; simpl; [intros []|].
  intros [[= -> ->]|Hin]; [lia|]. specialize (IH Hin). lia.
Qed.

Lemma next_id_snoc {A : Type} (table : list (Z * A)) (k : Z) (v : A) :
  next_id (table ++ [(k, v)]) = Z.max (next_id table) (k + 1).
Proof.
  unfold next_id.
  induction table as [|[k' v'] table IH]; simpl; [lia|].
  rewrite IH. lia.
Qed.

Lemma lookup_fresh {A : Type} (table : list (Z * A)) (n : Z) :
  (forall k v, In (k, v) table -> k < n) -> lookup table n = None.
Proof.
  induction table as [|[k v] table IH]; simpl; intros Hb; [reflexivity|].
  destruct (Z.eqb_spec k n) as [->|_].
  - specialize (Hb n v (or_introl eq_refl)). lia.
  - apply IH. intros k' v' Hin. apply (Hb k' v'). right. exact Hin.
Qed.

Lemma lookup_app {A : Type} (t1 t2 : list (Z * A)) (k : Z) :
  lookup (t1 ++ t2) k
  = match lookup t1 k with
    | Some v => Some v
    | None => lookup t2 k
    end.
Proof.
  induction t1 as [|[k' v'] t1 IH]; simpl; [reflexivity|].
  destruct (k' =? k); auto.
Qed.

Lemma number_from_keys {A : Type} (l : list A) :
  forall n k v, In (k, v) (number_from n l) -> n <= k.
Proof.
  induction l as [|x l IH]; intros n k v; simpl; [intros []|].
  intros [[= -> ->]|Hin]; [lia|]. specialize (IH _ _ _ Hin). lia.
Qed.

Lemma lookup_number_from {A : Type} (l : list A) :
  forall n k v, In (k, v) (number_from n l) -> lookup (number_from n l) k = Some v.
Proof.
  induction l as [|x l IH]; intros n k v; simpl; [intros []|].
  intros [[= -> ->]|Hin]; [rewrite Z.eqb_refl; reflexivity|].
  pose proof (number_from_keys _ _ _ _ Hin).
  destruct (Z.eqb_spec n k); [lia|]. apply IH. exact Hin.
Qed.

Lemma number_from_length {A : Type} (l : list A) :
  forall n, List.length (number_from n l) = List.length l.
Proof. induction l; intros n; simpl; auto. Qed.

Lemma combine_number_from {A B : Type} (l1 : list A) (l2 : list B) :
  forall n a k b,
    In (a, (k, b)) (combine l1 (number_from n l2)) -> In (a, b) (combine l1 l2).
Proof.
  revert l2. induction l1 as [|x l1 IH]; intros [|y l2] n a k b; simpl;
    try contradiction.
  intros [[= -> _ ->]|Hin]; [auto|]. right. eapply IH; eauto.
Qed.

Lemma Forall2_combine {A B : Type} (P : A -> B -> Prop) (l1 : list A)
    (l2 : list B) (a : A) (b : B) :
  Forall2 P l1 l2 -> In (a, b) (combine l1 l2) -> P a b.
Proof.
  induction 1 as [|x y l1 l2 Hxy _ IH]; simpl; [intros []|].
  intros [[= -> ->]|Hin]; auto.
Qed.

Lemma map_fst_combine {A B : Type} (l1 : list A) (l2 : list B) :
  List.length l1 = List.length l2 -> map fst (combine l1 l2) = l1.
Proof.
  revert l2. induction l1 as [|x l1 IH]; intros [|y l2]; simpl;
    try discriminate; auto.
  intros [= Hlen]. rewrite IH; auto.
Qed.

(** ** The first loop of [invoice] *)

Lemma invoice_loop_spec (db : DB) (ids : list Z) :
  forall st st',
    invoice_loop db ids st = (st', Ok tt) ->
    exists ils,
      Forall2
        (fun id il =>
           exists c, browse db id = Ok c /\ get_invoice_line db c = Ok il)
        ids ils
      /\ saved_lines st'
         = saved_lines st ++ number_from (next_id (saved_lines st)) ils
      /\ to_write st'
         = to_write st
           ++ map (fun p => (fst p, fst (snd p)))
                  (combine ids (number_from (next_id (saved_lines st)) ils))
      /\ lines st'
         = fold_left (fun d p => dict_set d (fst p) (snd p))
             (combine ids (number_from (next_id (saved_lines st)) ils))
             (lines st).
Proof.
  induction ids as [|id ids IH]; intros st st' H; simpl in H.
  - inversion H; subst. exists []. simpl. rewrite !app_nil_r.
    repeat split. constructor.
  - destruct (browse db id) as [c|e] eqn:Hc; cbn [bind] in H;
      [|discriminate].
    destruct (get_invoice_line db c) as [il|e] eqn:Hil; [|discriminate].
    apply IH in H. destruct H as (ils & HF & Hsaved & Hwrite & Hlines).
    cbn [saved_lines to_write lines] in *.
    rewrite next_id_snoc in *.
    replace (Z.max (next_id (saved_lines st)) (next_id (saved_lines st) + 1))
      with (next_id (saved_lines st) + 1) in * by lia.
    exists (il :: ils). cbn [number_from combine map fold_left fst snd].
    repeat split.
    + constructor; [eauto|exact HF].
    + rewrite Hsaved, <- app_assoc. reflexivity.
    + rewrite Hwrite, <- app_assoc. reflexivity.
    + exact Hlines.
Qed.

Lemma dict_set_not_nil {A : Type} (d : list (Z * A)) (k : Z) (v : A) :
  dict_set d k v <> [].
Proof.
  destruct d as [|[k' v'] d]; simpl; [discriminate|].
  destruct (k' =? k); discriminate.
Qed.

Lemma dict_fold_not_nil {A : Type} (ps : list (Z * A)) :
  forall d,
    d <> [] \/ ps <> [] ->
    fold_left (fun d p => dict_set d (fst p) (snd p)) ps d <> [].
Proof.
  induction ps as [|p ps IH]; intros d Hd; simpl.
  - destruct Hd; congruence.
  - apply IH. left. apply dict_set_not_nil.
Qed.

Lemma dict_set_new {A : Type} (d : list (Z * A)) (k : Z) (v : A) :
  ~ In k (map fst d) -> dict_set d k v = d ++ [(k, v)].
Proof.
  induction d as [|[k' v'] d IH]; simpl; intros Hk; [reflexivity|].
  destruct (Z.eqb_spec k' k) as [->|_]; [tauto|].
  rewrite IH by tauto. reflexivity.
Qed.

(** With distinct keys the dictionary is the list of its insertions. *)
Lemma dict_fold_distinct {A : Type} (ps : list (Z * A)) :
  forall d,
    NoDup (map fst d ++ map fst ps) ->
    fold_left (fun d p => dict_set d (fst p) (snd p)) ps d = d ++ ps.
Proof.
  induction ps as [|[k v] ps IH]; intros d Hnd; simpl.
  - rewrite app_nil_r. reflexivity.
  - simpl in Hnd. pose proof (NoDup_remove_2 _ _ _ Hnd) as Hk.
    rewrite dict_set_new by (intros Hin; apply Hk, in_or_app; auto).
    rewrite IH.
    + rewrite <- app_assoc. reflexivity.
    + rewrite map_app, <- app_assoc. exact Hnd.
Qed.

(** ** Writing the links *)

Lemma lookup_write (table : list (Z * ContractConsumption.t)) (w : Z * Z)
    (id : Z) :
  lookup (write_invoice_line table w) id
  = option_map
      (fun c => if fst w =? id then with_invoice_line c (snd w) else c)
      (lookup table id).
Proof.
  induction table as [|[k c] table IH]; simpl; [reflexivity|].
  destruct (Z.eqb_spec k (fst w)) as [Hk|Hk]; simpl;
    destruct (Z.eqb_spec k id) as [Hi|Hi]; simpl; auto.
  - subst. rewrite Z.eqb_refl. reflexivity.
  - subst. destruct (Z.eqb_spec (fst w) id); [congruence|reflexivity].
Qed.

Lemma lookup_writes (ws : list (Z * Z)) (id : Z) :
  forall table,
    lookup (fold_left write_invoice_line ws table) id
    = option_map
        (fun c =>
           fold_left
             (fun c w => if fst w =? id then with_invoice_line c (snd w) else c)
             ws c)
        (lookup table id).
Proof.
  induction ws as [|w ws IH]; intros table; simpl.
  - destruct (lookup table id); reflexivity.
  - rewrite IH, lookup_write. destruct (lookup table id); reflexivity.
Qed.

(** The last write to a consumption decides its link. *)
Lemma writes_last (ws : list (Z * Z)) (id : Z) (c : ContractConsumption.t) :
  In id (map fst ws) ->
  exists l,
    In (id, l) ws
    /\ ContractConsumption.invoice_line
         (fold_left
            (fun c w => if fst w =? id then with_invoice_line c (snd w) else c)
            ws c)
       = Some l.
Proof.
  revert c. induction ws as [|[k l] ws IH] using rev_ind; intros c Hin;
    [destruct Hin|].
  rewrite fold_left_app. simpl.
  destruct (Z.eqb_spec k id) as [->|Hk].
  - exists l. split; [apply in_or_app; right; left; reflexivity|reflexivity].
  - rewrite map_app, in_app_iff in Hin. destruct Hin as [Hin|[Hin|[]]].
    + destruct (IH c Hin) as (l' & Hl' & Hlink).
      exists l'. split; [apply in_or_app; left; exact Hl'|exact Hlink].
    + simpl in Hin. congruence.
Qed.

(** ** Claims about invoicing *)

Lemma browse_lookup (db : DB) (id : Z) (c : ContractConsumption.t) :
  browse db id = Ok c -> lookup (consumptions db) id = Some c.
Proof.
  unfold browse, require. destruct (lookup (consumptions db) id);
    congruence.
Qed.

(** What [invoice] leaves in the database when it is given consumptions. *)
Lemma invoice_Ok (db : DB) (ids : list Z) (db' : DB) :
  invoice db ids = Ok db' ->
  ids <> [] ->
  exists ils,
    let rows := number_from (next_id (invoice_lines db)) ils in
    Forall2
      (fun id il =>
         exists c, browse db id = Ok c /\ get_invoice_line db c = Ok il)
      ids ils
    /\ invoice_lines db' = invoice_lines db ++ rows
    /\ consumptions db'
       = fold_left write_invoice_line
           (map (fun p => (fst p, fst (snd p))) (combine ids rows))
           (consumptions db)
    /\ invoices db'
       = invoices db
         ++ create (invoices db)
              (build_invoices db
                 (fold_left (fun d p => dict_set d (fst p) (snd p))
                    (combine ids rows) [])).
Proof.
  unfold invoice, invoice_run. intros H Hids.
  destruct (invoice_loop db ids _) as [st outcome] eqn:Hst.
  destruct outcome as [[]|e]; [|discriminate].
  apply invoice_loop_spec in Hst.
  destruct Hst as (ils & HF & Hsaved & Hwrite & Hlines).
  cbn [saved_lines to_write lines] in *. simpl in Hwrite.
  exists ils. cbn zeta.
  assert (Hne : lines st <> []).
  { rewrite Hlines. apply dict_fold_not_nil. right.
    destruct ids as [|id ids]; [congruence|].
    inversion HF; subst. simpl. discriminate. }
  destruct (lines st) as [|p ps] eqn:E; [congruence|].
  destruct (sortable _); [|discriminate].
  inversion H; subst db'; clear H.
  cbn [invoice_lines consumptions invoices].
  rewrite <- Hlines, Hsaved, Hwrite. auto.
Qed.

(** C6, as the code has it.  The field [invoice_line] holds one invoice
    line at most, but [invoice] does not look at it: for every consumption
    it is given, linked or not, it builds a new invoice line and links the
    consumption to it. *)
Theorem C6_invoice_links_a_new_line (db : DB) (ids : list Z) (db' : DB) :
  invoice db ids = Ok db' ->
  forall id,
    In id ids ->
    exists c c' line_id il,
      lookup (consumptions db) id = Some c
      /\ lookup (consumptions db') id = Some c'
      /\ ContractConsumption.invoice_line c' = Some line_id
      /\ lookup (invoice_lines db) line_id = None
      /\ lookup (invoice_lines db') line_id = Some il
      /\ get_invoice_line db c = Ok il.
Proof.
  intros H id Hid.
  assert (Hne : ids <> []) by (intros ->; destruct Hid).
  apply invoice_Ok in H; [|exact Hne].
  destruct H as (ils & HF & Hlines & Hcons & _).
  set (rows := number_from (next_id (invoice_lines db)) ils) in *.
  assert (Hlen : List.length ids = List.length rows).
  { unfold rows. rewrite number_from_length.
    eapply Forall2_length; eauto. }
  destruct (Forall2_In_l _ _ _ _ HF Hid) as (il0 & _ & c & Hc & _).
  apply browse_lookup in Hc.
  set (ws := map (fun p : Z * (Z * InvoiceLine.t) => (fst p, fst (snd p)))
                 (combine ids rows)) in *.
  assert (Hin : In id (map fst ws)).
  { unfold ws. rewrite map_map.
    rewrite (map_ext _ fst) by (intros []; reflexivity).
    rewrite (map_fst_combine ids rows Hlen). exact Hid. }
  destruct (writes_last ws id c Hin) as (l & Hl & Hlink).
  unfold ws in Hl. apply in_map_iff in Hl.
  destruct Hl as ([id' [l' il]] & [= -> ->] & Hp).
  pose proof (in_combine_r _ _ _ _ Hp) as Hrow.
  destruct (Forall2_combine _ _ _ _ _ HF (combine_number_from _ _ _ _ _ _ Hp))
    as (c1 & Hc1 & Hil).
  apply browse_lookup in Hc1. rewrite Hc in Hc1. inversion Hc1; subst c1.
  assert (Hfresh : lookup (invoice_lines db) l = None).
  { apply lookup_fresh. intros k v Hk.
    pose proof (next_id_bound _ _ _ Hk).
    pose proof (number_from_keys _ _ _ _ Hrow). lia. }
  eexists c, _, l, il. repeat split.
  - exact Hc.
  - rewrite Hcons, lookup_writes, Hc. reflexivity.
  - exact Hlink.
  - exact Hfresh.
  - rewrite Hlines, lookup_app, Hfresh. apply lookup_number_from. exact Hrow.
  - exact Hil.
Qed.

Lemma C6_invoice_links_a_new_line_witness :
  exists c c' line_id il,
    lookup (consumptions SampleInvoice.invoiced_db) 1 = Some c
    /\ lookup
         (consumptions
            (match invoice SampleInvoice.invoiced_db [1] with
             | Ok db' => db'
             | Raise _ => SampleInvoice.invoiced_db
             end)) 1 = Some c'
    /\ ContractConsumption.invoice_line c' = Some line_id
    /\ lookup (invoice_lines SampleInvoice.invoiced_db) line_id = None
    /\ lookup
         (invoice_lines
            (match invoice SampleInvoice.invoiced_db [1] with
             | Ok db' => db'
             | Raise _ => SampleInvoice.invoiced_db
             end)) line_id = Some il
    /\ get_invoice_line SampleInvoice.invoiced_db c = Ok il.
Proof.
  refine (C6_invoice_links_a_new_line SampleInvoice.invoiced_db [1] _ _ 1
            (or_introl eq_refl)).
  vm_compute. reflexivity.
Defined.

(** The claim as the spec states it: a consumption that is linked to invoice
    line 1 is invoiced again, which makes a second invoice line and moves
    the link to it. *)
Lemma C6_counterexample :
  exists db',
    invoice SampleInvoice.invoiced_db [1] = Ok db'
    /\ option_map ContractConsumption.invoice_line
         (lookup (consumptions SampleInvoice.invoiced_db) 1) = Some (Some 1)
    /\ option_map ContractConsumption.invoice_line
         (lookup (consumptions db') 1) = Some (Some 2)
    /\ map fst (invoice_lines SampleInvoice.invoiced_db) = [1]
    /\ map fst (invoice_lines db') = [1; 2].
Proof.
  eexists. split; [vm_compute; reflexivity|].
  repeat split; reflexivity.
Qed.

Lemma StronglySorted_map {A B : Type} (R : B -> B -> Prop) (f : A -> B)
    (l : list A) :
  StronglySorted R (map f l) <-> StronglySorted (fun a b => R (f a) (f b)) l.
Proof.
  induction l as [|x l IH]; simpl; split; intros Hs; try constructor.
  - apply IH. inversion Hs; assumption.
  - inversion Hs as [|? ? _ HF]; subst. rewrite Forall_map in HF. exact HF.
  - apply IH. inversion Hs; assumption.
  - inversion Hs as [|? ? _ HF]; subst. rewrite Forall_map. exact HF.
Qed.

(** The second loop of [invoice]: the invoices have pairwise different
    keys, in increasing order; an invoice carries the lines of its key, all
    of them; every line is carried by the invoice of its key. *)
Lemma build_invoices_spec (db : DB) (items : list (Z * (Z * InvoiceLine.t))) :
  let invs := build_invoices db items in
  StronglySorted
    (fun i1 i2 => key_compare (key_of i1) (key_of i2) = Lt) invs
  /\ (forall inv,
        In inv invs ->
        Invoice.lines inv <> []
        /\ Permutation (Invoice.lines inv)
             (map snd
                (filter
                   (fun it =>
                      is_Eq (key_compare (_group_invoice_key db it) (key_of inv)))
                   items)))
  /\ (forall it,
        In it items ->
        exists inv,
          In inv invs
          /\ key_compare (_group_invoice_key db it) (key_of inv) = Eq
          /\ In (snd it) (Invoice.lines inv)).
Proof.
  intros invs.
  destruct (sorted_groupby (_group_invoice_key db) items)
    as (Hsorted & Hgroups & Hcover).
  rewrite cmp_invoice_key in *.
  set (groups := groupby (_group_invoice_key db) key_compare
                   (sorted (_group_invoice_key db) key_compare items)) in *.
  set (mk := fun group : invoice_key * list (Z * (Z * InvoiceLine.t)) =>
               let invoice := _get_invoice db (fst group) in
               {| Invoice.party := Invoice.party invoice;
                  Invoice.company := Invoice.company invoice;
                  Invoice.currency := Invoice.currency invoice;
                  Invoice.type := Invoice.type invoice;
                  Invoice.invoice_date := Invoice.invoice_date invoice;
                  Invoice.journal := Invoice.journal invoice;
                  Invoice.lines := Invoice.lines invoice ++ map snd (snd group) |}).
  assert (Hinvs : invs = map mk groups) by reflexivity.
  assert (Hkey : forall group, key_of (mk group) = fst group).
  { intros [[[[[p c] cu] t] d] g]. reflexivity. }
  assert (Hlines : forall group, Invoice.lines (mk group) = map snd (snd group)).
  { intros [[[[[p c] cu] t] d] g]. reflexivity. }
  rewrite Hinvs. split; [|split].
  - apply StronglySorted_map. apply StronglySorted_map in Hsorted.
    eapply StronglySorted_ind with (P := fun l =>
      StronglySorted
        (fun a b => key_compare (key_of (mk a)) (key_of (mk b)) = Lt) l);
      [constructor| |exact Hsorted].
    intros a l _ IH HF. constructor; [exact IH|].
    eapply Forall_impl; [|exact HF].
    intros b Hb. rewrite !Hkey. exact Hb.
  - intros inv Hin. apply in_map_iff in Hin.
    destruct Hin as ([k g] & <- & Hin).
    destruct (Hgroups k g Hin) as (Hne & Hperm).
    rewrite Hlines, Hkey. cbn [fst snd]. split.
    + destruct g; [congruence|discriminate].
    + apply Permutation_map. exact Hperm.
  - intros it Hit. destruct (Hcover it Hit) as (k & g & Hin & Hitg).
    exists (mk (k, g)). split; [apply in_map; exact Hin|].
    rewrite Hlines, Hkey. cbn [fst snd].
    destruct (Hgroups k g Hin) as (_ & Hperm). split.
    + pose proof (Permutation_in _ Hperm Hitg) as Hf.
      apply filter_In in Hf. destruct Hf as (_ & Hf).
      destruct (key_compare (_group_invoice_key db it) k);
        [reflexivity|discriminate|discriminate].
    + apply in_map. exact Hitg.
Qed.

Lemma number_from_NoDup {A : Type} (l : list A) :
  forall n, NoDup (map fst (number_from n l)).
Proof.
  induction l as [|x l IH]; intros n; simpl; constructor; [|apply IH].
  intros Hin. apply in_map_iff in Hin. destruct Hin as ([k v] & Hk & Hin).
  simpl in Hk. subst k. apply number_from_keys in Hin. lia.
Qed.

Lemma build_invoices_lines (db : DB) (items : list (Z * (Z * InvoiceLine.t))) :
  Permutation (flat_map Invoice.lines (build_invoices db items))
    (map snd items).
Proof.
  unfold build_invoices.
  set (l := sorted (_group_invoice_key db) key_compare items).
  assert (Hperm : Permutation l items).
  { exact (@sorted_perm _ _ Ordered_invoice_key (_group_invoice_key db) items). }
  rewrite <- Hperm.
  rewrite <- (@groupby_concat _ _ Ordered_invoice_key (_group_invoice_key db) l)
    at 2.
  change (@cmp invoice_key Ordered_invoice_key) with key_compare.
  generalize (groupby (_group_invoice_key db) key_compare l). intros gs.
  induction gs as [|[k g] gs IH]; simpl; [reflexivity|].
  destruct k as [[[[party company] currency] type] invoice_date]. simpl.
  rewrite map_app. apply Permutation_app_head. exact IH.
Qed.

Lemma combine_In_r_unique {A B : Type} (l1 : list A) (l2 : list B) (a a' : A)
    (b : B) :
  NoDup l2 ->
  In (a, b) (combine l1 l2) -> In (a', b) (combine l1 l2) -> a = a'.
Proof.
  revert l2. induction l1 as [|x l1 IH]; intros [|y l2] Hnd; simpl;
    try contradiction.
  inversion Hnd as [|? ? Hnot Hnd']; subst.
  intros [H1|H1] [H2|H2].
  - congruence.
  - exfalso. apply Hnot. inversion H1; subst. eapply in_combine_r; eauto.
  - exfalso. apply Hnot. inversion H2; subst. eapply in_combine_r; eauto.
  - eapply IH; eauto.
Qed.

(** Two keys compare equal exactly when they agree on the id of the party,
    the company, the currency, the type and the invoice date. *)
Lemma key_compare_Eq (p1 p2 : Party.t) (c1 c2 u1 u2 : Z) (t1 t2 : string)
    (d1 d2 : option date) :
  key_compare (p1, c1, u1, t1, d1) (p2, c2, u2, t2, d2) = Eq
  <-> (Party.id p1, c1, u1, t1, d1) = (Party.id p2, c2, u2, t2, d2).
Proof.
  unfold key_compare, pair_compare, party_compare. cbn [fst snd].
  assert (Hd : option_compare d1 d2 = Eq <-> d1 = d2).
  { destruct d1 as [x|], d2 as [y|]; simpl; try rewrite Z.compare_eq_iff;
      split; intros H; congruence. }
  split.
  - intros H. apply lex_Eq in H. destruct H as (H & H5).
    apply lex_Eq in H. destruct H as (H & H4).
    apply lex_Eq in H. destruct H as (H & H3).
    apply lex_Eq in H. destruct H as (H1 & H2).
    apply Z.compare_eq_iff in H1, H2, H3. apply String.compare_eq_iff in H4.
    apply Hd in H5. congruence.
  - intros [= H1 H2 H3 H4 H5]. subst c2 u2 t2 d2.
    pose proof (@cmp_refl string Ordered_string t1) as Ht.
    change (String.compare t1 t1 = Eq) in Ht.
    rewrite H1, !Z.compare_refl, Ht, (proj2 Hd eq_refl).
    reflexivity.
Qed.

Lemma key_of_item (db : DB) (id line_id : Z) (il : InvoiceLine.t)
    (c : ContractConsumption.t) (inv : Invoice.t) :
  lookup (consumptions db) id = Some c ->
  key_compare (_group_invoice_key db (id, (line_id, il))) (key_of inv) = Eq
  <-> tuple_of_line c il = tuple_of_invoice inv.
Proof.
  intros Hc. unfold _group_invoice_key, key_of. rewrite Hc.
  apply key_compare_Eq.
Qed.

Lemma sorted_invoices_NoDup (invs : list Invoice.t) :
  StronglySorted (fun i1 i2 => key_compare (key_of i1) (key_of i2) = Lt) invs ->
  NoDup (map tuple_of_invoice invs).
Proof.
  induction 1 as [|inv invs _ IH Hall]; simpl; constructor; [|exact IH].
  intros Hin. apply in_map_iff in Hin. destruct Hin as (inv' & Heq & Hin').
  rewrite Forall_forall in Hall. specialize (Hall inv' Hin').
  assert (E : key_compare (key_of inv) (key_of inv') = Eq).
  { unfold key_of. apply key_compare_Eq. symmetry. exact Heq. }
  congruence.
Qed.

(** C8.  [invoice], given distinct consumptions, groups the invoice lines
    it generated by the tuple (party, company, currency, invoice type of
    the line, invoice date of the consumption) and creates one invoice for
    each tuple that occurs: the invoices have pairwise different tuples for
    their own party, company, currency, type and invoice date; every
    generated line is attached to one invoice and only generated lines are
    attached; and a line is attached to an invoice exactly when its tuple is
    the tuple of the invoice. *)
Theorem C8_one_invoice_per_key (db : DB) (ids : list Z) (db' : DB) :
  invoice db ids = Ok db' ->
  NoDup ids ->
  exists (items : list (Z * (Z * InvoiceLine.t))) (invs : list Invoice.t),
    map fst items = ids
    /\ (forall id line_id il,
          In (id, (line_id, il)) items ->
          lookup (invoice_lines db') line_id = Some il
          /\ exists c, browse db id = Ok c /\ get_invoice_line db c = Ok il)
    /\ invoices db' = invoices db ++ create (invoices db) invs
    /\ NoDup (map tuple_of_invoice invs)
    /\ Permutation (flat_map Invoice.lines invs) (map snd items)
    /\ (forall inv, In inv invs -> Invoice.lines inv <> [])
    /\ (forall id line_id il c inv,
          In (id, (line_id, il)) items ->
          browse db id = Ok c ->
          In inv invs ->
          (In (line_id, il) (Invoice.lines inv)
           <-> tuple_of_line c il = tuple_of_invoice inv)).
Proof.
  intros H Hnd.
  destruct ids as [|id0 ids0] eqn:Eids.
  { inversion H; subst db'. exists [], []. unfold create. simpl.
    rewrite app_nil_r. repeat split; try constructor; intros; contradiction. }
  rewrite <- Eids in *.
  assert (Hne : ids <> []) by (rewrite Eids; discriminate).
  clear Eids id0 ids0.
  apply invoice_Ok in H; [|exact Hne].
  destruct H as (ils & HF & Hlines & _ & Hinvoices).
  set (rows := number_from (next_id (invoice_lines db)) ils) in *.
  assert (Hlen : List.length ids = List.length rows).
  { unfold rows. rewrite number_from_length. eapply Forall2_length; eauto. }
  assert (Hdict : fold_left (fun d p => dict_set d (fst p) (snd p))
                    (combine ids rows) [] = combine ids rows).
  { rewrite dict_fold_distinct; [reflexivity|].
    simpl. rewrite (map_fst_combine ids rows Hlen). exact Hnd. }
  rewrite Hdict in Hinvoices.
  assert (Hrows : NoDup rows).
  { apply (NoDup_map_inv fst). apply number_from_NoDup. }
  exists (combine ids rows), (build_invoices db (combine ids rows)).
  destruct (build_invoices_spec db (combine ids rows)) as (H1 & H2 & H3).
  split; [apply map_fst_combine; exact Hlen|].
  split.
  { intros id line_id il Hit. pose proof (in_combine_r _ _ _ _ Hit) as Hrow.
    split.
    - rewrite Hlines, lookup_app, lookup_fresh.
      + apply lookup_number_from. exact Hrow.
      + intros k v Hk. pose proof (next_id_bound _ _ _ Hk).
        pose proof (number_from_keys _ _ _ _ Hrow). lia.
    - exact (Forall2_combine _ _ _ _ _ HF
               (combine_number_from _ _ _ _ _ _ Hit)). }
  split; [exact Hinvoices|].
  split; [apply sorted_invoices_NoDup; exact H1|].
  split; [apply build_invoices_lines|].
  split; [intros inv Hinv; apply (H2 inv Hinv)|].
  intros id line_id il c inv Hit Hc Hinv.
  apply browse_lookup in Hc.
  destruct (H2 inv Hinv) as (_ & Hperm).
  rewrite <- (key_of_item db id line_id il c inv Hc). split.
  - intros Hin. apply (Permutation_in _ Hperm) in Hin.
    apply in_map_iff in Hin. destruct Hin as ([id' row] & Hrow & Hf).
    simpl in Hrow. subst row. apply filter_In in Hf. destruct Hf as (Hit' & Hk).
    rewrite (combine_In_r_unique _ _ _ _ _ Hrows Hit Hit').
    destruct (key_compare _ _); [reflexivity|discriminate|discriminate].
  - intros Hk. apply (Permutation_in _ (Permutation_sym Hperm)).
    apply in_map_iff. exists (id, (line_id, il)). split; [reflexivity|].
    apply filter_In. split; [exact Hit|]. rewrite Hk. reflexivity.
Qed.

(** January of two lines and February of one of them: the two consumptions
    of January have the same tuple and go into one invoice with two lines,
    February, whose invoice date is another one, into a second invoice. *)
Lemma C8_one_invoice_per_key_witness :
  exists db',
    invoice SampleInvoice.three_lines_db [1; 2; 3] = Ok db'
    /\ map (fun row =>
              (tuple_of_invoice (snd row), map fst (Invoice.lines (snd row))))
         (invoices db')
       = [((1, 1, 1, "out_invoice"%string, Some (mkdate 2020 1 31)), [1; 2]);
          ((1, 1, 1, "out_invoice"%string, Some (mkdate 2020 3 31)), [3])]
    /\ exists (items : list (Z * (Z * InvoiceLine.t))) (invs : list Invoice.t),
         map fst items = [1; 2; 3]
         /\ invoices db' = create [] invs
         /\ NoDup (map tuple_of_invoice invs)
         /\ Permutation (flat_map Invoice.lines invs) (map snd items)
         /\ forall id line_id il c inv,
              In (id, (line_id, il)) items ->
              browse SampleInvoice.three_lines_db id = Ok c ->
              In inv invs ->
              (In (line_id, il) (Invoice.lines inv)
               <-> tuple_of_line c il = tuple_of_invoice inv).
Proof.
  destruct (invoice SampleInvoice.three_lines_db [1; 2; 3]) as [db'|e] eqn:Hrun;
    [|vm_compute in Hrun; discriminate].
  exists db'. split; [reflexivity|]. split.
  { vm_compute in Hrun. inversion Hrun. vm_compute. reflexivity. }
  destruct (C8_one_invoice_per_key SampleInvoice.three_lines_db [1; 2; 3] db'
              Hrun)
    as (items & invs & H1 & _ & H3 & H4 & H5 & _ & H7).
  - repeat constructor; simpl; intuition discriminate.
  - exists items, invs. auto.
Defined.

(** ** The scans of a rule end

    The depth given to [iterate] is enough for [between] and [after] on any
    rule that starts at a date and has a positive interval: the answer
    [Unmodelled] stands only for what lies outside of the model, never for
    a scan that was cut short. *)

Module Termination.
Import Calendar Dateutil.

Lemma ord2ymd_bounds (n : Z) :
  1 <= n ->
  1 <= fst (fst (ord2ymd n)) /\ 1 <= snd (fst (ord2ymd n)) <= 12.
Proof.
  intros Hn. unfold ord2ymd, DI400Y, DI100Y, DI4Y. cbv zeta.
  rewrite Z.shiftr_div_pow2 by lia. change (2 ^ 5) with 32.
  set (n0 := n - 1).
  set (r400 := n0 mod 146097).
  set (r100 := r400 mod 36524).
  set (r4 := r100 mod 1461).
  assert (H0 : 0 <= n0 / 146097) by (apply Z.div_pos; lia).
  assert (H400 : 0 <= r400 < 146097) by (apply Z.mod_pos_bound; lia).
  assert (H100 : 0 <= r100 < 36524) by (apply Z.mod_pos_bound; lia).
  assert (H4 : 0 <= r4 < 1461) by (apply Z.mod_pos_bound; lia).
  assert (H1 : 0 <= r4 mod 365 < 365) by (apply Z.mod_pos_bound; lia).
  assert (Hn100 : 0 <= r400 / 36524) by (apply Z.div_pos; lia).
  assert (Hn4 : 0 <= r100 / 1461) by (apply Z.div_pos; lia).
  assert (Hn1 : 0 <= r4 / 365) by (apply Z.div_pos; lia).
  assert (Hm : 1 <= (r4 mod 365 + 50) / 32 <= 12).
  { clear - H1. Z.div_mod_to_equations. lia. }
  destruct ((r4 / 365 =? 4) || (r400 / 36524 =? 4)) eqn:E1.
  - cbn [fst snd]. apply orb_true_iff in E1. rewrite !Z.eqb_eq in E1. lia.
  - set (month := (r4 mod 365 + 50) / 32) in *.
    destruct (r4 mod 365 <? _) eqn:E2; cbn [fst snd]; [|lia].
    apply Z.ltb_lt in E2.
    assert (month <> 1).
    { intros E. rewrite E in E2. cbn in E2. lia. }
    lia.
Qed.

Section Rule.
Variable r : rrule.
Hypothesis interval_pos : 1 <= _interval r.
Hypothesis dtstart_in_range : in_range (_dtstart r).

(** From period [MAXORD] on the generator is exhausted. *)
Lemma period_exhausted (k : Z) : MAXORD <= k -> period r k = Stop.
Proof.
  intros Hk. unfold period.
  pose proof (ord2ymd_bounds (_dtstart r) (proj1 dtstart_in_range)) as Hb.
  destruct (ord2ymd (_dtstart r)) as [[y m] d]. cbn [fst snd] in Hb.
  destruct dtstart_in_range as (Hlo & _).
  unfold MAXORD, MAXYEAR, MINORD in *.
  assert (Hki : k <= k * _interval r) by nia.
  destruct (_freq r).
  - destruct (Z.ltb_spec 9999 (y + k * _interval r)); [reflexivity|lia].
  - destruct (Z.ltb_spec 9999 ((12 * y + (m - 1) + k * _interval r) / 12));
      [reflexivity|].
    assert (10000 <= (12 * y + (m - 1) + k * _interval r) / 12)
      by (apply Z.div_le_lower_bound; lia).
    lia.
  - destruct (Z.eqb_spec k 0); [lia|].
    assert (0 <= weekday (_dtstart r) < 7)
      by (apply Z.mod_pos_bound; lia).
    destruct (Z.ltb_spec 3652059
                (_dtstart r + 7 * (k * _interval r) - weekday (_dtstart r)));
      [reflexivity|lia].
  - destruct (Z.ltb_spec 3652059 (_dtstart r + k * _interval r));
      [reflexivity|lia].
Qed.

Lemma between_loop_ends (after before : date) (n : nat) :
  forall k started l,
    0 <= k ->
    (1 <= n)%nat ->
    MAXORD <= k + Z.of_nat n - 1 ->
    exists res,
      iterate_n n (between_step r after before) (k, started, l) = inr res
      /\ res <> Raise Unmodelled.
Proof.
  induction n as [|n IH]; intros k started l Hk Hn Hmax; [lia|].
  assert (Hnext : forall started' l',
            period r k <> Stop ->
            exists res,
              iterate_n n (between_step r after before) (k + 1, started', l')
              = inr res
              /\ res <> Raise Unmodelled).
  { intros started' l' Hns.
    assert (k < MAXORD).
    { destruct (Z.lt_ge_cases k MAXORD); [auto|].
      exfalso. apply Hns, period_exhausted. lia. }
    apply IH; lia. }
  simpl. destruct (period r k) as [| |i|] eqn:Ep.
  - eexists. split; [reflexivity|discriminate].
  - apply Hnext. discriminate.
  - destruct (before <=? i); [eexists; split; [reflexivity|discriminate]|].
    destruct started; [apply Hnext; discriminate|].
    destruct (after <? i); apply Hnext; discriminate.
  - eexists. split; [reflexivity|discriminate].
Qed.

Lemma after_loop_ends (dt : date) (n : nat) :
  forall k,
    0 <= k ->
    (1 <= n)%nat ->
    MAXORD <= k + Z.of_nat n - 1 ->
    exists res,
      iterate_n n (after_step r dt) k = inr res /\ res <> Raise Unmodelled.
Proof.
  induction n as [|n IH]; intros k Hk Hn Hmax; [lia|].
  assert (Hnext : period r k <> Stop ->
            exists res,
              iterate_n n (after_step r dt) (k + 1) = inr res
              /\ res <> Raise Unmodelled).
  { intros Hns.
    assert (k < MAXORD).
    { destruct (Z.lt_ge_cases k MAXORD); [auto|].
      exfalso. apply Hns, period_exhausted. lia. }
    apply IH; lia. }
  simpl. unfold after_step at 1. destruct (period r k) as [| |i|] eqn:Ep.
  - eexists. split; [reflexivity|discriminate].
  - apply Hnext. discriminate.
  - destruct (dt <? i); [eexists; split; [reflexivity|discriminate]|].
    apply Hnext. discriminate.
  - eexists. split; [reflexivity|discriminate].
Qed.

Lemma depth_covers : MAXORD <= 0 + Z.of_nat (2 ^ DEPTH) - 1.
Proof.
  rewrite Nat2Z.inj_pow. unfold DEPTH.
  change (Z.of_nat 2 ^ Z.of_nat 22) with 4194304. unfold MAXORD. lia.
Qed.

Lemma depth_positive : (1 <= 2 ^ DEPTH)%nat.
Proof.
  apply Nat2Z.inj_le. pose proof depth_covers. unfold MAXORD in *. lia.
Qed.

(** [between] and [after] answer for every rule of the model. *)
Theorem between_total (after before : date) :
  between r after before <> Raise Unmodelled.
Proof.
  unfold between. destruct (Z.ltb_spec (_interval r) 1); [lia|].
  rewrite iterate_unary.
  destruct (between_loop_ends after before (2 ^ DEPTH) 0 false []
              ltac:(lia) depth_positive depth_covers) as (res & -> & Hres).
  exact Hres.
Qed.

Theorem after_total (dt : date) : after r dt <> Raise Unmodelled.
Proof.
  unfold after. destruct (Z.ltb_spec (_interval r) 1); [lia|].
  rewrite iterate_unary.
  destruct (after_loop_ends dt (2 ^ DEPTH) 0 ltac:(lia) depth_positive
              depth_covers) as (res & -> & Hres).
  exact Hres.
Qed.

(** After a failure the generator yields nothing. *)
Lemma period_fail_mono (k k' : Z) (i : date) :
  0 <= k <= k' -> period r k = Fail -> period r k' <> Yield i.
Proof.
  intros Hk. unfold period.
  destruct (ord2ymd (_dtstart r)) as [[y m] d].
  assert (Hn : 0 <= k' * _interval r - k * _interval r) by nia.
  destruct (_freq r).
  - destruct (MAXYEAR <? _); [discriminate|]. destruct (d <=? _); discriminate.
  - destruct (MAXYEAR <? _); [discriminate|]. destruct (d <=? _); discriminate.
  - destruct (Z.eqb_spec k 0); [discriminate|].
    destruct (Z.eqb_spec k' 0); [lia|].
    destruct (MAXORD <? _); [discriminate|].
    destruct (Z.ltb_spec MAXORD (_dtstart r + 7 * (k * _interval r)));
      [|discriminate].
    intros _.
    destruct (MAXORD <? _); [discriminate|].
    destruct (Z.ltb_spec MAXORD (_dtstart r + 7 * (k' * _interval r)));
      [discriminate|lia].
  - destruct (MAXORD <? _); discriminate.
Qed.

Lemma after_run_any (dt : date) (n : nat) :
  forall k res,
    0 <= k ->
    iterate_n n (after_step r dt) k = inr res ->
    exists k_end,
      k <= k_end
      /\ (forall j i, k <= j < k_end -> period r j = Yield i -> i <= dt)
      /\ match res with
         | Ok (Some d) => period r k_end = Yield d /\ dt < d
         | Ok None => period r k_end = Stop
         | Raise _ => period r k_end = Fail
         end.
Proof.
  induction n as [|n IH]; intros k res Hk Hrun; simpl in Hrun; [discriminate|].
  unfold after_step in Hrun at 1.
  destruct (period r k) as [| |i|] eqn:Ep.
  - inversion Hrun; subst. exists k. repeat split; auto; try lia.
    all: intros; lia.
  - destruct (IH (k + 1) res ltac:(lia) Hrun) as (ke & H1 & H2 & H3).
    exists ke. repeat split; auto; try lia.
    intros j i Hj Hy. destruct (Z.eq_dec j k) as [->|]; [congruence|].
    apply (H2 j); auto. lia.
  - destruct (Z.ltb_spec dt i) as [Hd|Hd].
    + inversion Hrun; subst. exists k. repeat split; auto; try lia.
      all: intros; lia.
    + destruct (IH (k + 1) res ltac:(lia) Hrun) as (ke & H1 & H2 & H3).
      exists ke. repeat split; auto; try lia.
      intros j i' Hj Hy. destruct (Z.eq_dec j k) as [->|].
      * rewrite Ep in Hy. apply DateutilFacts.Yield_inj in Hy. lia.
      * apply (H2 j); auto. lia.
  - inversion Hrun; subst. exists k. repeat split; auto; try lia.
    all: intros; lia.
Qed.

(** [after] finds the first occurrence after [dt] whenever there is one. *)
Theorem after_complete (dt d : date) :
  first_after r dt d -> after r dt = Ok (Some d).
Proof.
  intros (Hocc & Hlt & Hfirst).
  assert (Hrun : exists n res,
            after r dt = res
            /\ iterate_n n (after_step r dt) 0 = inr res).
  { unfold after. destruct (Z.ltb_spec (_interval r) 1); [lia|].
    rewrite iterate_unary.
    destruct (after_loop_ends dt (2 ^ DEPTH) 0 ltac:(lia) depth_positive
                depth_covers) as (res & Hres & _).
    exists (2 ^ DEPTH)%nat, res. rewrite Hres. auto. }
  destruct Hrun as (n & res & -> & Hrun).
  apply after_run_any in Hrun; [|lia].
  destruct Hrun as (ke & Hke0 & Hbefore & Hend).
  destruct Hocc as (j & Hj & Hy).
  assert (Hke : ke <= j).
  { destruct (Z.lt_ge_cases j ke) as [Hlt'|]; [|lia].
    specialize (Hbefore j d ltac:(lia) Hy). lia. }
  destruct res as [[d'|]|e].
  - destruct Hend as (Hy' & Hlt').
    assert (Hocc' : occurrence r d') by (exists ke; split; [lia|auto]).
    pose proof (Hfirst d' Hocc' Hlt').
    destruct (Z.eq_dec j ke) as [->|].
    + rewrite Hy in Hy'. apply DateutilFacts.Yield_inj in Hy'. congruence.
    + pose proof (DateutilFacts.period_yield_mono r interval_pos ke j d' d
                    ltac:(lia) Hy' Hy). lia.
  - rewrite (DateutilFacts.period_stop_mono r interval_pos ke j) in Hy
      by (auto; lia).
    discriminate.
  - exfalso. apply (period_fail_mono ke j d); auto.
Qed.

(** The first occurrence of a rule is its start. *)
Lemma year_in_range (n : Z) :
  in_range n -> fst (fst (ord2ymd n)) <= MAXYEAR.
Proof.
  intros (Hlo & Hhi). unfold MINORD, MAXORD, MAXYEAR in *.
  pose proof (Roundtrip.ymd2ord_ord2ymd n Hlo) as H.
  destruct (ord2ymd n) as [[y m] d]. cbn [fst]. destruct H as (Hord & Hm & Hd).
  destruct (Z.le_gt_cases y 9999) as [|Hy]; [assumption|exfalso].
  pose proof (CalendarFacts.ymd2ord_year_mono 10000 1 1 (y - 10000) ltac:(lia))
    as Hmono.
  replace (10000 + (y - 10000)) with y in Hmono by lia.
  change (ymd2ord 10000 1 1) with 3652060 in Hmono.
  unfold ymd2ord, days_before_month in *.
  change (2 <? 1) with false in Hmono. cbn [andb] in Hmono.
  change (DAYS_BEFORE_MONTH 1) with 0 in Hmono.
  assert (0 <= DAYS_BEFORE_MONTH m).
  { unfold DAYS_BEFORE_MONTH.
    repeat match goal with
           | |- context [if ?c then _ else _] => destruct c
           end; lia. }
  destruct ((2 <? m) && is_leap y); lia.
Qed.

Lemma period_first : period r 0 = Yield (_dtstart r).
Proof.
  unfold period.
  pose proof (year_in_range _ dtstart_in_range) as Hy.
  pose proof (Roundtrip.ymd2ord_ord2ymd _ (proj1 dtstart_in_range)) as H.
  destruct (ord2ymd (_dtstart r)) as [[y m] d]. cbn [fst] in Hy.
  destruct H as (Hord & Hm & Hd).
  destruct dtstart_in_range as (_ & Hhi).
  replace (y + 0 * _interval r) with y by lia.
  replace (12 * y + (m - 1) + 0 * _interval r) with (m - 1 + y * 12) by lia.
  rewrite Z.div_add, Z.mod_add, Z.div_small, Z.mod_small by lia.
  replace (0 + y) with y by lia. replace (m - 1 + 1) with m by lia.
  replace (_dtstart r + 0 * _interval r) with (_dtstart r) by lia.
  destruct (_freq r).
  - destruct (Z.ltb_spec MAXYEAR y); [lia|].
    destruct (Z.leb_spec d (days_in_month y m)); [congruence|lia].
  - destruct (Z.ltb_spec MAXYEAR y); [lia|].
    destruct (Z.leb_spec d (days_in_month y m)); [congruence|lia].
  - reflexivity.
  - destruct (Z.ltb_spec MAXORD (_dtstart r)); [lia|reflexivity].
Qed.

Theorem dtstart_occurrence : occurrence r (_dtstart r).
Proof. exists 0. split; [lia|apply period_first]. Qed.

End Rule.
End Termination.

(** ** Validation of the start date, against the occurrences of the rule *)

(** C9.  For a contract with a recurrence rule, [d] being the first
    occurrence of the rule strictly after the start period date, validation
    raises the user error ['start_date_not_valid'] exactly when the start
    date is outside [start_period_date, d), and passes otherwise. *)
Theorem C9_start_date_validation (self : Contract.t) (r : Dateutil.rrule)
    (d : date) :
  rrule self = Ok r ->
  1 <= Dateutil._interval r ->
  in_range (Contract.start_period_date self) ->
  Dateutil.first_after r (Contract.start_period_date self) d ->
  (check_start_date self = Raise (UserError "start_date_not_valid")
   <-> ~ (Contract.start_period_date self <= Contract.start_date self < d))
  /\ (validate [self] = Raise (UserError "start_date_not_valid")
      <-> ~ (Contract.start_period_date self <= Contract.start_date self < d))
  /\ (validate [self] = Ok tt
      <-> Contract.start_period_date self <= Contract.start_date self < d).
Proof.
  intros Hr Hint Hrange Hfirst.
  apply (check_start_date_after self r d Hr).
  apply Termination.after_complete; auto.
  revert Hr. unfold rrule, rrule_new, Contract_rrule_values, todatetime.
  cbn [kw_freq kw_interval kw_dtstart].
  destruct (kw_freq _); [|discriminate].
  intros [= <-]. exact Hrange.
Qed.

Lemma C9_start_date_validation_witness :
  validate [Sample.late_start] = Raise (UserError "start_date_not_valid")
  <-> ~ (Contract.start_period_date Sample.late_start
         <= Contract.start_date Sample.late_start < mkdate 2020 2 1).
Proof.
  refine (proj1 (proj2
    (C9_start_date_validation Sample.late_start
       (Dateutil.mk_rrule Dateutil.MONTHLY 1 (mkdate 2020 1 1))
       (mkdate 2020 2 1) eq_refl _ _ _))).
  - simpl. lia.
  - unfold in_range. vm_compute. split; discriminate.
  - apply DateutilFacts.after_spec. vm_compute. reflexivity.
Defined.

(** * Further properties *)

(** ** The dates of a run are increasing *)

Module DateutilOrder.
Import Dateutil DateutilFacts.

Section Rule.
Variable r : rrule.
Hypothesis interval_pos : 1 <= _interval r.

Lemma between_run_sorted (after before : date) (n : nat) :
  forall k started l res,
    0 <= k ->
    iterate_n n (between_step r after before) (k, started, l) = inr (Ok res) ->
    exists tail,
      res = rev l ++ tail
      /\ StronglySorted Z.lt tail
      /\ forall i, In i tail -> exists j, k <= j /\ period r j = Yield i.
Proof.
  induction n as [|n IH]; intros k started l res Hk Hrun;
    simpl in Hrun; [discriminate|].
  assert (Hnil : inr (Ok (rev l)) = @inr (Z * bool * list date) _ (Ok res) ->
                 exists tail,
                   res = rev l ++ tail /\ StronglySorted Z.lt tail
                   /\ forall i, In i tail ->
                                exists j, k <= j /\ period r j = Yield i).
  { intros [= <-]. exists []. rewrite app_nil_r.
    repeat split; [constructor|intros i []]. }
  assert (Hskip : forall started',
             iterate_n n (between_step r after before) (k + 1, started', l)
             = inr (Ok res) ->
             exists tail,
               res = rev l ++ tail /\ StronglySorted Z.lt tail
               /\ forall i, In i tail ->
                            exists j, k <= j /\ period r j = Yield i).
  { intros started' H. destruct (IH (k + 1) started' l res ltac:(lia) H) as (tail & ? & ? & Hin).
    exists tail. repeat split; auto.
    intros i Hi. destruct (Hin i Hi) as (j & ? & ?). exists j. split; [lia|auto]. }
  destruct (period r k) as [| |i|] eqn:Ep;
    [exact (Hnil Hrun)|exact (Hskip _ Hrun)| |discriminate Hrun].
  destruct (before <=? i); [exact (Hnil Hrun)|].
  assert (Hkeep : iterate_n n (between_step r after before) (k + 1, true, i :: l)
                  = inr (Ok res) ->
                  exists tail,
                    res = rev l ++ tail /\ StronglySorted Z.lt tail
                    /\ forall i, In i tail ->
                                 exists j, k <= j /\ period r j = Yield i).
  { intros H. destruct (IH (k + 1) true (i :: l) res ltac:(lia) H) as (tail & -> & Hs & Hin).
    exists (i :: tail). simpl. rewrite <- app_assoc. simpl.
    repeat split; auto.
    - constructor; auto. apply Forall_forall. intros i' Hi'.
      destruct (Hin i' Hi') as (j & Hj & Hy).
      apply (period_yield_mono r interval_pos k j); auto. lia.
    - intros i' [<-|Hi'].
      + exists k. split; [lia|auto].
      + destruct (Hin i' Hi') as (j & ? & ?). exists j. split; [lia|auto]. }
  destruct started; [exact (Hkeep Hrun)|].
  destruct (after <? i); [exact (Hkeep Hrun)|exact (Hskip _ Hrun)].
Qed.

End Rule.

(** [between] lists the occurrences in increasing order, each one once. *)
Lemma between_sorted (r : rrule) (after before : date) (l : list date) :
  between r after before = Ok l -> StronglySorted Z.lt l.
Proof.
  intros H. apply between_Ok_inv in H. destruct H as (Hint & n & Hrun).
  apply (between_run_sorted r Hint after before n 0 false [] l ltac:(lia))
    in Hrun.
  destruct Hrun as (tail & -> & Hs & _). exact Hs.
Qed.

End DateutilOrder.

(** ** The ranges of the consumptions of a run *)

(** Two consecutive consumptions of the inner loop and the date between
    them. *)
Lemma consumptions_loop_chain (self : Contract.t) (line : ContractLine.t)
    (dates : list date) :
  forall start lcd lid cs n c1 c2,
    consumptions_loop self line dates start lcd lid = Ok cs ->
    nth_error cs n = Some c1 ->
    nth_error cs (S n) = Some c2 ->
    exists d,
      nth_error dates n = Some d
      /\ ContractConsumption.end_date c1 = Some (d - 1)
      /\ ContractConsumption.end_period_date c1 = Some (d - 1)
      /\ ContractConsumption.start_date c2 = Some d
      /\ ContractConsumption.init_period_date c2 = Some d.
Proof.
  induction dates as [|d dates IH]; intros start lcd lid cs n c1 c2 H H1 H2.
  - inversion H; subst. destruct n; discriminate.
  - apply consumptions_loop_cons in H.
    destruct H as (inv & rest & _ & Hrest & ->).
    destruct n as [|n].
    + simpl in H1, H2. inversion H1; subst c1. exists d.
      destruct dates as [|d' dates].
      * inversion Hrest; subst. discriminate.
      * apply consumptions_loop_cons in Hrest.
        destruct Hrest as (inv' & rest' & _ & _ & ->).
        simpl in H2. inversion H2; subst c2. simpl. auto.
    + simpl in H1, H2. simpl. eapply IH; eauto.
Qed.

(** X1.  In the consumptions that [get_consumptions] generates for a line,
    a consumption starts on the day after the end of the one before it,
    and from the second one on a consumption covers exactly its period:
    its start date is the start of the period and its end date the end of
    the period. *)
Theorem X1_consecutive_consumptions_are_contiguous (db : DB)
    (self : Contract.t) (end_date : date) (line : ContractLine.t)
    (cs : list ContractConsumption.t) (n : nat)
    (c1 c2 : ContractConsumption.t) :
  line_consumptions db self end_date line = Ok cs ->
  nth_error cs n = Some c1 ->
  nth_error cs (S n) = Some c2 ->
  contiguous c1 c2
  /\ ContractConsumption.init_period_date c2
     = ContractConsumption.start_date c2
  /\ ContractConsumption.end_period_date c2 = ContractConsumption.end_date c2
  /\ ContractConsumption.end_period_date c1 = ContractConsumption.end_date c1.
Proof.
  intros H H1 H2. apply line_consumptions_Ok in H.
  destruct H as (r & dates & _ & _ & Hloop).
  destruct (consumptions_loop_chain _ _ _ _ _ _ _ _ _ _ Hloop H1 H2)
    as (d & _ & He & Hep & Hs & Hip).
  pose proof (consumptions_loop_periods _ _ _ _ _ _ _ Hloop) as Hall.
  assert (Hc2 : ContractConsumption.end_period_date c2
                = ContractConsumption.end_date c2).
  { apply nth_error_In in H2.
    destruct (Forall2_In_r _ _ _ _ Hall H2) as (d' & _ & _ & -> & ->).
    reflexivity. }
  unfold contiguous. rewrite He, Hs, Hep, Hip. repeat split; auto; lia.
Qed.

Lemma X1_consecutive_consumptions_are_contiguous_witness :
  let line := Sample.line_of Sample.monthly in
  let db := Sample.db_of [line] [] in
  contiguous (january_2020 Sample.monthly line) (february_2020 line)
  /\ ContractConsumption.init_period_date (february_2020 line)
     = ContractConsumption.start_date (february_2020 line)
  /\ ContractConsumption.end_period_date (february_2020 line)
     = ContractConsumption.end_date (february_2020 line)
  /\ ContractConsumption.end_period_date (january_2020 Sample.monthly line)
     = ContractConsumption.end_date (january_2020 Sample.monthly line).
Proof.
  intros line db.
  refine (X1_consecutive_consumptions_are_contiguous db Sample.monthly
            (mkdate 2020 4 1) line
            [january_2020 Sample.monthly line; february_2020 line] 0
            _ _ _ _ _).
  - vm_compute. reflexivity.
  - reflexivity.
  - reflexivity.
Defined.

(** The end dates of a run, read off the dates that [between] returned. *)
Lemma consumptions_loop_end_dates (self : Contract.t) (line : ContractLine.t)
    (dates : list date) (start : date) (lcd lid : option date)
    (cs : list ContractConsumption.t) :
  consumptions_loop self line dates start lcd lid = Ok cs ->
  map ContractConsumption.end_date cs = map (fun d => Some (d - 1)) dates
  /\ map ContractConsumption.end_period_date cs
     = map (fun d => Some (d - 1)) dates.
Proof.
  intros H. apply consumptions_loop_periods in H.
  induction H as [|d c dates cs (_ & Hp & He) _ (IH1 & IH2)]; simpl; [auto|].
  rewrite Hp, He, IH1, IH2. auto.
Qed.

(** X2.  The consumptions that [get_consumptions] generates for a line end
    on the days before the occurrences of the rule of the contract that lie
    strictly between the resume point and the end date: one consumption for
    each such occurrence, in increasing order.  The resume point is the
    start period date of the contract for a line without consumption, and
    two days after the last period end otherwise. *)
Theorem X2_one_consumption_per_occurrence (db : DB) (self : Contract.t)
    (end_date : date) (line : ContractLine.t)
    (cs : list ContractConsumption.t) (r : Dateutil.rrule) :
  line_consumptions db self end_date line = Ok cs ->
  rrule self = Ok r ->
  exists dates,
    map ContractConsumption.end_date cs = map (fun d => Some (d - 1)) dates
    /\ map ContractConsumption.end_period_date cs
       = map (fun d => Some (d - 1)) dates
    /\ StronglySorted Z.lt dates
    /\ forall i,
         In i dates
         <-> Dateutil.occurrence r i
             /\ match last_consumption_date db line with
                | Some l => l + 2
                | None => Contract.start_period_date self
                end < i < end_date.
Proof.
  intros H Hr. apply line_consumptions_Ok in H.
  destruct H as (r' & dates & Hr' & Hb & Hloop).
  rewrite Hr in Hr'. inversion Hr'; subst r'.
  exists dates.
  destruct (consumptions_loop_end_dates _ _ _ _ _ _ _ Hloop) as (He & Hp).
  split; [exact He|]. split; [exact Hp|]. split.
  - exact (DateutilOrder.between_sorted _ _ _ _ Hb).
  - exact (DateutilFacts.between_spec _ _ _ _ Hb).
Qed.

Lemma X2_one_consumption_per_occurrence_witness :
  let line := Sample.line_of Sample.monthly in
  let db := Sample.db_of [line] [] in
  exists dates,
    map ContractConsumption.end_date
      [january_2020 Sample.monthly line; february_2020 line]
    = map (fun d => Some (d - 1)) dates
    /\ map ContractConsumption.end_period_date
         [january_2020 Sample.monthly line; february_2020 line]
       = map (fun d => Some (d - 1)) dates
    /\ StronglySorted Z.lt dates
    /\ forall i,
         In i dates
         <-> Dateutil.occurrence
               (Dateutil.mk_rrule Dateutil.MONTHLY 1 (mkdate 2020 1 1)) i
             /\ match last_consumption_date db line with
                | Some l => l + 2
                | None => Contract.start_period_date Sample.monthly
                end < i < mkdate 2020 4 1.
Proof.
  intros line db.
  refine (X2_one_consumption_per_occurrence db Sample.monthly (mkdate 2020 4 1)
            line _ _ _ _).
  - vm_compute. reflexivity.
  - reflexivity.
Defined.

(** X3.  The first consumption of a line that has no consumption yet starts
    on the start date of the contract, while its period starts on the start
    period date; the period ends on the day before the first occurrence of
    the rule after the start period date, and so does the consumption. *)
Theorem X3_first_consumption_of_a_line (db : DB) (self : Contract.t)
    (end_date : date) (line : ContractLine.t) (c : ContractConsumption.t)
    (cs : list ContractConsumption.t) (r : Dateutil.rrule) :
  last_consumption_date db line = None ->
  line_consumptions db self end_date line = Ok (c :: cs) ->
  rrule self = Ok r ->
  ContractConsumption.start_date c = Some (Contract.start_date self)
  /\ ContractConsumption.init_period_date c
     = Some (Contract.start_period_date self)
  /\ exists d,
       Dateutil.first_after r (Contract.start_period_date self) d
       /\ d < end_date
       /\ ContractConsumption.end_date c = Some (d - 1)
       /\ ContractConsumption.end_period_date c = Some (d - 1).
Proof.
  intros Hnone H Hr. apply line_consumptions_Ok in H.
  destruct H as (r' & dates & Hr' & Hb & Hloop).
  rewrite Hr in Hr'. inversion Hr'; subst r'. clear Hr'.
  rewrite Hnone in Hb, Hloop. simpl in Hloop.
  pose proof (DateutilOrder.between_sorted _ _ _ _ Hb) as Hsorted.
  pose proof (DateutilFacts.between_spec _ _ _ _ Hb) as Hspec.
  destruct dates as [|d dates]; [inversion Hloop|].
  apply consumptions_loop_cons in Hloop.
  destruct Hloop as (inv & rest & _ & _ & Hcs). inversion Hcs; subst c cs.
  simpl. repeat split; auto.
  exists d. destruct (proj1 (Hspec d) (or_introl eq_refl)) as (Hocc & Hlo & Hhi).
  repeat split; auto.
  intros i Hi Hlt.
  destruct (Z.lt_ge_cases i end_date) as [Hin|]; [|lia].
  assert (Hmem : In i (d :: dates)) by (apply Hspec; auto).
  destruct Hmem as [->|Hmem]; [lia|].
  apply StronglySorted_inv in Hsorted. destruct Hsorted as (_ & Hall).
  rewrite Forall_forall in Hall. specialize (Hall i Hmem). lia.
Qed.

Lemma X3_first_consumption_of_a_line_witness :
  let line := Sample.line_of Sample.late_start in
  let db := Sample.db_of [line] [] in
  ContractConsumption.start_date (january_2020 Sample.late_start line)
  = Some (mkdate 2020 2 1)
  /\ ContractConsumption.init_period_date
       (january_2020 Sample.late_start line)
     = Some (mkdate 2020 1 1)
  /\ exists d,
       Dateutil.first_after
         (Dateutil.mk_rrule Dateutil.MONTHLY 1 (mkdate 2020 1 1))
         (mkdate 2020 1 1) d
       /\ d < mkdate 2020 2 15
       /\ ContractConsumption.end_date (january_2020 Sample.late_start line)
          = Some (d - 1)
       /\ ContractConsumption.end_period_date
            (january_2020 Sample.late_start line)
          = Some (d - 1).
Proof.
  intros line db.
  refine (X3_first_consumption_of_a_line db Sample.late_start
            (mkdate 2020 2 15) line _ [] _ _ _ _).
  - reflexivity.
  - vm_compute. reflexivity.
  - reflexivity.
Defined.

(** What [check_start_date] has tested when it returns [True]. *)
Lemma check_start_date_True (self : Contract.t) :
  check_start_date self = Ok (Some true) ->
  exists r d,
    rrule self = Ok r
    /\ Dateutil.first_after r (Contract.start_period_date self) d
    /\ Contract.start_period_date self <= Contract.start_date self < d.
Proof.
  unfold check_start_date, todatetime, date_of.
  destruct (rrule self) as [r|e]; [|discriminate].
  intros H. bind_inv H as od Hafter. destruct od as [d|]; [|discriminate].
  simpl in H.
  destruct (Z.leb_spec (Contract.start_period_date self)
              (Contract.start_date self)); [|discriminate].
  destruct (Z.ltb_spec (Contract.start_date self) d); [|discriminate].
  exists r, d. split; [reflexivity|]. split; [|lia].
  apply DateutilFacts.after_spec. exact Hafter.
Qed.

(** A run over increasing dates that all lie after the start of the first
    consumption gives consumptions that do not end before they start. *)
Lemma consumptions_loop_spans (self : Contract.t) (line : ContractLine.t)
    (dates : list date) :
  forall start lcd lid cs,
    consumptions_loop self line dates start lcd lid = Ok cs ->
    StronglySorted Z.lt dates ->
    (forall d, In d dates ->
               match lcd with
               | None => Contract.start_date self
               | Some _ => start
               end < d) ->
    forall c, In c cs ->
      exists s e,
        ContractConsumption.start_date c = Some s
        /\ ContractConsumption.end_date c = Some e
        /\ s <= e.
Proof.
  induction dates as [|d dates IH]; intros start lcd lid cs H Hsorted Hlow c Hc.
  - inversion H; subst. destruct Hc.
  - apply consumptions_loop_cons in H.
    destruct H as (inv & rest & _ & Hrest & ->).
    apply StronglySorted_inv in Hsorted. destruct Hsorted as (Hsorted & Hall).
    destruct Hc as [<-|Hc].
    + simpl. eexists _, _. split; [reflexivity|]. split; [reflexivity|].
      specialize (Hlow d (or_introl eq_refl)). destruct lcd; lia.
    + apply (IH d (Some d) (Some inv) rest Hrest Hsorted); auto.
      rewrite Forall_forall in Hall. exact Hall.
Qed.

(** X4.  For a contract that [check_start_date] accepts, no consumption
    that [get_consumptions] generates ends before it starts. *)
Theorem X4_valid_start_date_gives_positive_spans (db : DB)
    (self : Contract.t) (end_date : date) (line : ContractLine.t)
    (cs : list ContractConsumption.t) (c : ContractConsumption.t) :
  check_start_date self = Ok (Some true) ->
  line_consumptions db self end_date line = Ok cs ->
  In c cs ->
  exists s e,
    ContractConsumption.start_date c = Some s
    /\ ContractConsumption.end_date c = Some e
    /\ s <= e.
Proof.
  intros Hcheck H Hc. apply check_start_date_True in Hcheck.
  destruct Hcheck as (r & d1 & Hr & (Hocc & Hlt & Hfirst) & Hstart).
  apply line_consumptions_Ok in H.
  destruct H as (r' & dates & Hr' & Hb & Hloop).
  rewrite Hr in Hr'. inversion Hr'; subst r'. clear Hr'.
  pose proof (DateutilOrder.between_sorted _ _ _ _ Hb) as Hsorted.
  pose proof (DateutilFacts.between_spec _ _ _ _ Hb) as Hspec.
  apply (consumptions_loop_spans _ _ _ _ _ _ _ Hloop Hsorted); auto.
  intros d Hd. apply Hspec in Hd. destruct Hd as (Hoccd & Hlo & _).
  destruct (last_consumption_date db line) as [l|]; simpl; [lia|].
  specialize (Hfirst d Hoccd Hlo). lia.
Qed.

Lemma X4_valid_start_date_gives_positive_spans_witness :
  let line := Sample.line_of Sample.monthly in
  exists s e,
    ContractConsumption.start_date (february_2020 line) = Some s
    /\ ContractConsumption.end_date (february_2020 line) = Some e
    /\ s <= e.
Proof.
  intros line.
  refine (X4_valid_start_date_gives_positive_spans (Sample.db_of [line] [])
            Sample.monthly (mkdate 2020 4 1) line
            [january_2020 Sample.monthly line; february_2020 line] _ _ _ _).
  - vm_compute. reflexivity.
  - vm_compute. reflexivity.
  - simpl. auto.
Defined.

(** ** A later end date *)

Module DateutilPrefix.
Import Dateutil DateutilFacts.

Section Rule.
Variable r : rrule.
Hypothesis interval_pos : 1 <= _interval r.

Lemma between_run_prefix (after b1 b2 : date) (n : nat) :
  b1 <= b2 ->
  forall k started l res2,
    0 <= k ->
    iterate_n n (between_step r after b2) (k, started, l) = inr (Ok res2) ->
    exists res1 extra,
      iterate_n n (between_step r after b1) (k, started, l) = inr (Ok res1)
      /\ res2 = res1 ++ extra.
Proof.
  intros Hb. induction n as [|n IH]; intros k started l res2 Hk Hrun;
    simpl in Hrun; [discriminate|].
  simpl. destruct (period r k) as [| |i|] eqn:Ep.
  - inversion Hrun; subst. exists (rev l), []. rewrite app_nil_r. auto.
  - apply IH; auto. lia.
  - destruct (Z.leb_spec b2 i) as [H2|H2].
    + destruct (Z.leb_spec b1 i) as [_|H1]; [|lia].
      inversion Hrun; subst. exists (rev l), []. rewrite app_nil_r. auto.
    + destruct (Z.leb_spec b1 i) as [H1|H1].
      * exists (rev l).
        assert (Hrest : exists started' l' tail',
                   iterate_n n (between_step r after b2) (k + 1, started', l')
                   = inr (Ok res2)
                   /\ rev l' = rev l ++ tail').
        { destruct started; [exists true, (i :: l), [i]; auto|].
          destruct (after <? i); [exists true, (i :: l), [i]; auto|].
          exists false, l, []. rewrite app_nil_r. auto. }
        destruct Hrest as (started' & l' & tail' & Hrun' & Hl').
        apply (DateutilOrder.between_run_sorted r interval_pos) in Hrun';
          [|lia].
        destruct Hrun' as (tail & -> & _). rewrite Hl', <- app_assoc. eauto.
      * destruct started; [apply IH; auto; lia|].
        destruct (after <? i); apply IH; auto; lia.
  - discriminate.
Qed.

End Rule.

(** The occurrences before an earlier bound are the first ones of those
    before a later bound. *)
Lemma between_prefix (r : rrule) (after b1 b2 : date) (l2 : list date) :
  b1 <= b2 ->
  between r after b2 = Ok l2 ->
  exists l1 extra, between r after b1 = Ok l1 /\ l2 = l1 ++ extra.
Proof.
  intros Hb. unfold between.
  destruct (Z.ltb_spec (_interval r) 1) as [|Hint]; [discriminate|].
  rewrite (iterate_unary (between_step r after b2)),
    (iterate_unary (between_step r after b1)).
  generalize (2 ^ DEPTH)%nat. intros n.
  destruct (iterate_n n (between_step r after b2) _) as [s|res] eqn:E;
    [discriminate|].
  intros ->.
  destruct (between_run_prefix r Hint after b1 b2 n Hb 0 false [] l2
              ltac:(lia) E) as (l1 & extra & -> & ->).
  eauto.
Qed.

End DateutilPrefix.

(** The inner loop over the first dates of a list gives the first
    consumptions of the loop over the list. *)
Lemma consumptions_loop_prefix (self : Contract.t) (line : ContractLine.t)
    (dates extra : list date) :
  forall start lcd lid cs2,
    consumptions_loop self line (dates ++ extra) start lcd lid = Ok cs2 ->
    exists cs1 more,
      consumptions_loop self line dates start lcd lid = Ok cs1
      /\ cs2 = cs1 ++ more.
Proof.
  induction dates as [|d dates IH]; intros start lcd lid cs2 H.
  - exists [], cs2. auto.
  - cbn [app consumptions_loop] in H. cbn [consumptions_loop].
    bind_inv H as d1 Hd1. rewrite Hd1. cbn [bind].
    bind_inv H as inv Hinv. rewrite Hinv. cbn [bind].
    destruct lcd as [x|].
    + bind_inv H as d2 Hd2. rewrite Hd2. cbn [bind].
      bind_inv H as rest Hrest.
      destruct (IH _ _ _ _ Hrest) as (cs1 & more & -> & ->). cbn [bind].
      inversion H; subst. eexists _, more. split; reflexivity.
    + bind_inv H as d2 Hd2. rewrite Hd2. cbn [bind].
      bind_inv H as rest Hrest.
      destruct (IH _ _ _ _ Hrest) as (cs1 & more & -> & ->). cbn [bind].
      inversion H; subst. eexists _, more. split; reflexivity.
Qed.

(** [line_consumptions] from the dates of its window. *)
Lemma line_consumptions_run (db : DB) (self : Contract.t) (end_date : date)
    (line : ContractLine.t) (r : Dateutil.rrule) (dates : list date) :
  rrule self = Ok r ->
  match last_consumption_date db line with
  | Some l => in_range (l + 1) /\ in_range (l + 2)
  | None => True
  end ->
  Dateutil.between r
    (match last_consumption_date db line with
     | Some l => l + 2
     | None => Contract.start_period_date self
     end) end_date = Ok dates ->
  line_consumptions db self end_date line
  = consumptions_loop self line dates
      (match last_consumption_date db line with
       | Some l => l + 2
       | None => Contract.start_period_date self
       end)
      (option_map (fun l => l + 1) (last_consumption_date db line))
      (last_consumption_invoice_date db line).
Proof.
  intros Hr H Hb. unfold line_consumptions, todatetime, date_of.
  destruct (last_consumption_date db line) as [l|].
  - destruct H as (H1 & H2).
    rewrite (proj2 (add_days_spec l 1 (l + 1)) (conj eq_refl H1)).
    cbn [bind].
    replace (l + 2) with (l + 1 + 1) in * by lia.
    rewrite (proj2 (add_days_spec (l + 1) 1 (l + 1 + 1)) (conj eq_refl H2)).
    cbn [bind]. rewrite Hr. cbn [bind]. rewrite Hb. reflexivity.
  - cbn [bind]. rewrite Hr. cbn [bind]. rewrite Hb. reflexivity.
Qed.

(** X5.  Generation up to an earlier end date gives, line by line, the
    first consumptions of the generation up to a later end date in the
    same database: moving the end date forward adds consumptions and
    changes none. *)
Theorem X5_later_end_date_extends_the_run (db : DB) (self : Contract.t)
    (e1 e2 : date) (line : ContractLine.t)
    (cs2 : list ContractConsumption.t) :
  e1 <= e2 ->
  line_consumptions db self e2 line = Ok cs2 ->
  exists cs1 more,
    line_consumptions db self e1 line = Ok cs1 /\ cs2 = cs1 ++ more.
Proof.
  intros He H.
  assert (Hrange : match last_consumption_date db line with
                   | Some l => in_range (l + 1) /\ in_range (l + 2)
                   | None => True
                   end).
  { destruct (last_consumption_date db line) as [l|] eqn:El; [|exact I].
    exact (line_consumptions_range _ _ _ _ _ _ H El). }
  apply line_consumptions_Ok in H.
  destruct H as (r & dates2 & Hr & Hb & Hloop).
  destruct (DateutilPrefix.between_prefix _ _ _ _ _ He Hb)
    as (dates1 & extra & Hb1 & ->).
  destruct (consumptions_loop_prefix _ _ _ _ _ _ _ _ Hloop)
    as (cs1 & more & Hloop1 & ->).
  exists cs1, more. split; [|reflexivity].
  rewrite (line_consumptions_run _ _ _ _ _ _ Hr Hrange Hb1). exact Hloop1.
Qed.

Lemma X5_later_end_date_extends_the_run_witness :
  let line := Sample.line_of Sample.monthly in
  exists cs1 more,
    line_consumptions (Sample.db_of [line] []) Sample.monthly
      (mkdate 2020 2 15) line = Ok cs1
    /\ [january_2020 Sample.monthly line; february_2020 line] = cs1 ++ more.
Proof.
  intros line.
  refine (X5_later_end_date_extends_the_run (Sample.db_of [line] [])
            Sample.monthly (mkdate 2020 2 15) (mkdate 2020 4 1) line _ _ _).
  - vm_compute. discriminate.
  - vm_compute. reflexivity.
Defined.

(** ** What the generation reads *)

Lemma concat_results_ext {A B : Type} (f g : A -> result (list B))
    (l : list A) :
  (forall x, In x l -> f x = g x) -> concat_results f l = concat_results g l.
Proof.
  induction l as [|x l IH]; intros H; simpl; [reflexivity|].
  rewrite (H x (or_introl eq_refl)), IH; [reflexivity|].
  intros y Hy. apply H. right. exact Hy.
Qed.

Lemma line_consumptions_ext (db db' : DB) (self : Contract.t) (end_date : date)
    (line : ContractLine.t) :
  last_consumption_date db line = last_consumption_date db' line ->
  line_consumptions db self end_date line
  = line_consumptions db' self end_date line.
Proof.
  intros H. unfold line_consumptions.
  change (last_consumption_invoice_date db line)
    with (last_consumption_date db line).
  change (last_consumption_invoice_date db' line)
    with (last_consumption_date db' line).
  rewrite H. reflexivity.
Qed.

Lemma get_consumptions_db_ext (db db' : DB) (self : Contract.t)
    (end_date : option date) :
  contract_lines db = contract_lines db' ->
  today db = today db' ->
  (forall line, In line (Contract_lines db self) ->
     last_consumption_date db line = last_consumption_date db' line) ->
  get_consumptions db self end_date = get_consumptions db' self end_date.
Proof.
  intros Hlines Htoday Hlast. unfold get_consumptions, Contract_lines.
  rewrite <- Hlines, <- Htoday. apply concat_results_ext.
  intros line Hline. apply line_consumptions_ext. apply Hlast. exact Hline.
Qed.

(** X6.  Of the recorded consumptions, [get_consumptions] reads nothing but
    the greatest period end of each line of the contract: two databases
    with the same contract lines that agree on it give the same
    consumptions, whatever invoice dates, invoice lines and other dates
    their consumptions carry. *)
Theorem X6_generation_reads_only_the_last_period_end (db db' : DB)
    (self : Contract.t) (end_date : option date) :
  contract_lines db = contract_lines db' ->
  today db = today db' ->
  (forall line, In line (Contract_lines db self) ->
     last_consumption_date db line = last_consumption_date db' line) ->
  get_consumptions db self end_date = get_consumptions db' self end_date.
Proof.
  intros Hlines Htoday Hlast. apply get_consumptions_db_ext; assumption.
Qed.

Lemma X6_generation_reads_only_the_last_period_end_witness :
  let line := Sample.line_of Sample.monthly in
  get_consumptions (Sample.db_of [line] [(1, Sample.february)])
    Sample.monthly (Some (mkdate 2020 5 1))
  = get_consumptions
      (Sample.db_of [line]
         [(5, with_invoice_line
                (get_consumption line (mkdate 2020 2 3) (mkdate 2020 2 20)
                   (mkdate 2021 7 7) (mkdate 2020 2 2) (mkdate 2020 2 29)) 9)])
      Sample.monthly (Some (mkdate 2020 5 1)).
Proof.
  intros line.
  refine (X6_generation_reads_only_the_last_period_end _ _ Sample.monthly
            (Some (mkdate 2020 5 1)) _ _ _).
  - reflexivity.
  - reflexivity.
  - intros l Hl. simpl in Hl. destruct Hl as [<-|[]]. reflexivity.
Defined.

(** What the generation reads of the contract. *)
Lemma consumptions_loop_self_ext (self self' : Contract.t)
    (line : ContractLine.t) (dates : list date) :
  rrule self = rrule self' ->
  Contract.first_invoice_date self = Contract.first_invoice_date self' ->
  Contract.start_period_date self = Contract.start_period_date self' ->
  Contract.start_date self = Contract.start_date self' ->
  forall start lcd lid,
    consumptions_loop self line dates start lcd lid
    = consumptions_loop self' line dates start lcd lid.
Proof.
  intros Hr Hf Hp Hs.
  induction dates as [|d dates IH]; intros start lcd lid; [reflexivity|].
  cbn [consumptions_loop]. unfold get_invoice_date.
  rewrite Hr, Hf, Hp, Hs.
  destruct (add_days d (-1)); [|reflexivity]. cbn [bind].
  match goal with |- bind ?x _ = bind _ _ => destruct x end; [|reflexivity].
  cbn [bind]. destruct lcd.
  - destruct (add_days _ 1); [|reflexivity]. cbn [bind]. rewrite IH.
    reflexivity.
  - destruct (add_days _ 1); [|reflexivity]. cbn [bind]. rewrite IH.
    reflexivity.
Qed.

Lemma get_consumptions_self_ext (db : DB) (self self' : Contract.t)
    (d : option date) :
  Contract.id self = Contract.id self' ->
  rrule self = rrule self' ->
  Contract.first_invoice_date self = Contract.first_invoice_date self' ->
  Contract.start_period_date self = Contract.start_period_date self' ->
  Contract.start_date self = Contract.start_date self' ->
  get_consumptions db self d = get_consumptions db self' d.
Proof.
  intros Hid Hr Hf Hp Hs. unfold get_consumptions, Contract_lines.
  rewrite Hid. apply concat_results_ext. intros line _.
  unfold line_consumptions. rewrite Hr, Hp.
  destruct (match last_consumption_date db line with
            | Some d0 => _
            | None => _
            end); [|reflexivity].
  cbn [bind].
  match goal with |- bind ?x _ = bind _ _ => destruct x end; [|reflexivity].
  cbn [bind]. destruct (rrule self') eqn:Er; [|reflexivity]. cbn [bind].
  destruct (Dateutil.between _ _ _); [|reflexivity]. cbn [bind].
  apply consumptions_loop_self_ext; auto. congruence.
Qed.

(** X7.  [get_consumptions] and [check_start_date] read neither the end
    date of the contract nor its state: consumptions are generated past
    the end date of a contract, and for a draft or a cancelled contract as
    for a validated one. *)
Theorem X7_end_date_and_state_are_not_read (db : DB) (self : Contract.t)
    (e : option date) (s : State) (d : option date) :
  get_consumptions db (with_state (with_end_date self e) s) d
  = get_consumptions db self d
  /\ consume db [with_state (with_end_date self e) s] d = consume db [self] d
  /\ check_start_date (with_state (with_end_date self e) s)
     = check_start_date self.
Proof.
  assert (H : forall d, get_consumptions db (with_state (with_end_date self e) s) d
                        = get_consumptions db self d).
  { intros d'. apply get_consumptions_self_ext; reflexivity. }
  split; [apply H|]. split; [|reflexivity].
  unfold consume. destruct d as [d|]; [|reflexivity].
  destruct (add_days d 1); [|reflexivity].
  cbn [bind concat_results]. rewrite H. reflexivity.
Qed.

(** X8.  An interval of [0] is left out of the arguments of the rule like
    an interval that is not set, and the rule then has interval [1]: the
    contract generates the consumptions, and passes or fails
    [check_start_date], as with interval [1]. *)
Theorem X8_interval_zero_is_interval_one (db : DB) (self : Contract.t)
    (d : option date) (i : option Z) :
  i = None \/ i = Some 0 ->
  rrule (with_interval self i) = rrule (with_interval self (Some 1))
  /\ get_consumptions db (with_interval self i) d
     = get_consumptions db (with_interval self (Some 1)) d
  /\ check_start_date (with_interval self i)
     = check_start_date (with_interval self (Some 1)).
Proof.
  intros Hi.
  assert (Hr : rrule (with_interval self i)
               = rrule (with_interval self (Some 1)))
    by (destruct Hi as [-> | ->]; reflexivity).
  split; [exact Hr|]. split.
  - apply get_consumptions_self_ext; auto.
  - unfold check_start_date. rewrite Hr. reflexivity.
Qed.

Lemma X8_interval_zero_is_interval_one_witness :
  rrule (with_interval Sample.monthly (Some 0))
  = rrule (with_interval Sample.monthly (Some 1))
  /\ get_consumptions (Sample.db_of [Sample.line_of Sample.monthly] [])
       (with_interval Sample.monthly (Some 0)) (Some (mkdate 2020 4 1))
     = get_consumptions (Sample.db_of [Sample.line_of Sample.monthly] [])
         (with_interval Sample.monthly (Some 1)) (Some (mkdate 2020 4 1))
  /\ check_start_date (with_interval Sample.monthly (Some 0))
     = check_start_date (with_interval Sample.monthly (Some 1)).
Proof.
  refine (X8_interval_zero_is_interval_one _ Sample.monthly _ (Some 0) _).
  right. reflexivity.
Defined.

(** ** What [consume] records *)

Lemma consumptions_loop_not_invoiced (self : Contract.t)
    (line : ContractLine.t) (dates : list date) :
  forall start lcd lid cs,
    consumptions_loop self line dates start lcd lid = Ok cs ->
    Forall (fun c => ContractConsumption.invoice_line c = None) cs.
Proof.
  induction dates as [|d dates IH]; intros start lcd lid cs H.
  - inversion H. constructor.
  - apply consumptions_loop_cons in H.
    destruct H as (inv & rest & _ & Hrest & ->).
    constructor; [reflexivity|]. eapply IH; eauto.
Qed.

(** Where a consumption that [consume] is about to create comes from. *)
Lemma to_create_origin (db : DB) (contracts : list Contract.t) (d : date)
    (to_create : list ContractConsumption.t) (c : ContractConsumption.t) :
  concat_results (fun contract => get_consumptions db contract (Some d))
    contracts = Ok to_create ->
  In c to_create ->
  exists contract e,
    In contract contracts
    /\ In (ContractConsumption.contract_line c) (Contract_lines db contract)
    /\ ContractConsumption.invoice_line c = None
    /\ ContractConsumption.end_date c = Some e
    /\ e + 1 < d.
Proof.
  intros H Hc.
  destruct (proj2 (concat_results_members _ _ _ H) c Hc)
    as (contract & zs & Hcontract & Hzs & Hcz).
  unfold get_consumptions, todatetime in Hzs.
  destruct (proj2 (concat_results_members _ _ _ Hzs) c Hcz)
    as (line & cs & Hline & Hcs & Hccs).
  apply line_consumptions_Ok in Hcs.
  destruct Hcs as (r & dates & Hr & Hb & Hloop).
  pose proof (consumptions_loop_periods _ _ _ _ _ _ _ Hloop) as Hall.
  destruct (Forall2_In_r _ _ _ _ Hall Hccs) as (d0 & Hd0 & Hl & _ & He).
  pose proof (consumptions_loop_not_invoiced _ _ _ _ _ _ _ Hloop) as Hnone.
  rewrite Forall_forall in Hnone.
  apply (DateutilFacts.between_spec _ _ _ _ Hb) in Hd0.
  exists contract, (d0 - 1). rewrite Hl. repeat split; auto; lia.
Qed.

Lemma number_from_In {A : Type} (l : list A) :
  forall n k v, In (k, v) (number_from n l) -> In v l.
Proof.
  induction l as [|x l IH]; intros n k v; simpl; [auto|].
  intros [[= _ ->]|Hin]; [auto|]. right. eapply IH; eauto.
Qed.

(** What a successful call of [consume] has computed. *)
Lemma consume_Ok_inv (db : DB) (contracts : list Contract.t)
    (date : option date) (db1 : DB)
    (created : list (Z * ContractConsumption.t)) :
  consume db contracts date = Ok (db1, created) ->
  exists d to_create,
    date = Some d
    /\ concat_results
         (fun contract => get_consumptions db contract (Some (d + 1)))
         contracts = Ok to_create
    /\ created = create (consumptions db) to_create
    /\ db1 = with_consumptions db (consumptions db ++ created).
Proof.
  unfold consume. intros H.
  destruct date as [d|]; [|discriminate].
  bind_inv H as d' Hd'. apply add_days_Ok in Hd'. subst d'.
  bind_inv H as to_create Hto. inversion H; subst db1 created.
  exists d, to_create. auto.
Qed.

(** X9.  [consume] only adds rows to the table of consumptions.  The rows
    it returns have distinct ids that no row had before, and each of them
    is read back at its id afterwards, while every earlier row is read as
    before.  A created consumption carries no invoice line, belongs to a
    line of one of the contracts given, and ends before the date given to
    [consume]. *)
Theorem X9_consume_appends_fresh_consumptions (db : DB)
    (contracts : list Contract.t) (date : option date) (db1 : DB)
    (created : list (Z * ContractConsumption.t)) :
  consume db contracts date = Ok (db1, created) ->
  db1 = with_consumptions db (consumptions db ++ created)
  /\ NoDup (map fst created)
  /\ (forall id c, lookup (consumptions db) id = Some c ->
                   lookup (consumptions db1) id = Some c)
  /\ (forall id c,
        In (id, c) created ->
        lookup (consumptions db) id = None
        /\ lookup (consumptions db1) id = Some c
        /\ ContractConsumption.invoice_line c = None
        /\ exists contract d e,
             In contract contracts
             /\ In (ContractConsumption.contract_line c)
                   (Contract_lines db contract)
             /\ date = Some d
             /\ ContractConsumption.end_date c = Some e
             /\ e < d).
Proof.
  intros H. apply consume_Ok_inv in H.
  destruct H as (d & to_create & -> & Hto & -> & ->).
  split; [reflexivity|]. split; [apply number_from_NoDup|].
  cbn [consumptions with_consumptions]. split.
  - intros id c Hl. rewrite lookup_app, Hl. reflexivity.
  - intros id c Hin.
    assert (Hfresh : lookup (consumptions db) id = None).
    { apply lookup_fresh. intros k v Hk. apply next_id_bound in Hk.
      apply number_from_keys in Hin. lia. }
    split; [exact Hfresh|].
    split; [rewrite lookup_app, Hfresh; apply lookup_number_from; exact Hin|].
    apply number_from_In in Hin.
    destruct (to_create_origin _ _ _ _ _ Hto Hin)
      as (contract & e & H1 & H2 & H3 & H4 & H5).
    split; [exact H3|]. exists contract, d, e. repeat split; auto. lia.
Qed.

Lemma X9_consume_appends_fresh_consumptions_witness :
  let line := Sample.line_of Sample.monthly in
  let db := Sample.db_of [line] [] in
  let created :=
    [(1, january_2020 Sample.monthly line); (2, february_2020 line)] in
  NoDup (map fst created)
  /\ forall id c,
       In (id, c) created ->
       lookup (consumptions db) id = None
       /\ lookup (consumptions (with_consumptions db created)) id = Some c
       /\ ContractConsumption.invoice_line c = None
       /\ exists contract d e,
            In contract [Sample.monthly]
            /\ In (ContractConsumption.contract_line c)
                  (Contract_lines db contract)
            /\ Some (mkdate 2020 3 31) = Some d
            /\ ContractConsumption.end_date c = Some e
            /\ e < d.
Proof.
  intros line db created.
  assert (H : consume db [Sample.monthly] (Some (mkdate 2020 3 31))
              = Ok (with_consumptions db created, created))
    by (vm_compute; reflexivity).
  pose proof (X9_consume_appends_fresh_consumptions _ _ _ _ _ H)
    as (_ & H1 & _ & H2).
  exact (conj H1 H2).
Defined.

(** ** Consuming contracts one after the other *)

Lemma concat_results_app {A B : Type} (f : A -> result (list B))
    (l1 l2 : list A) :
  concat_results f (l1 ++ l2)
  = (xs <- concat_results f l1 ;;
     ys <- concat_results f l2 ;;
     Ok (xs ++ ys)).
Proof.
  induction l1 as [|x l1 IH]; simpl.
  - destruct (concat_results f l2); reflexivity.
  - destruct (f x) as [zs|e]; [|reflexivity]. cbn [bind]. rewrite IH.
    destruct (concat_results f l1) as [xs|e]; [|reflexivity]. cbn [bind].
    destruct (concat_results f l2) as [ys|e]; [|reflexivity]. cbn [bind].
    rewrite app_assoc. reflexivity.
Qed.

Lemma number_from_app {A : Type} (l1 l2 : list A) :
  forall n,
    number_from n (l1 ++ l2)
    = number_from n l1 ++ number_from (n + Z.of_nat (List.length l1)) l2.
Proof.
  induction l1 as [|x l1 IH]; intros n.
  - simpl. replace (n + 0) with n by lia. reflexivity.
  - cbn [app number_from List.length]. rewrite IH.
    replace (n + Z.of_nat (S (List.length l1)))
      with (n + 1 + Z.of_nat (List.length l1)) by lia.
    reflexivity.
Qed.

Lemma next_id_app {A : Type} (t1 t2 : list (Z * A)) :
  next_id (t1 ++ t2) = Z.max (next_id t1) (next_id t2).
Proof.
  unfold next_id. induction t1 as [|row t1 IH]; simpl.
  - assert (1 <= fold_right (fun (row : Z * A) acc => Z.max (fst row + 1) acc)
                   1 t2).
    { induction t2; simpl; lia. }
    lia.
  - rewrite IH. lia.
Qed.

Lemma next_id_number_from {A : Type} (l : list A) :
  forall n,
    1 <= n ->
    Z.max n (next_id (number_from n l)) = n + Z.of_nat (List.length l).
Proof.
  induction l as [|x l IH]; intros n Hn.
  - simpl. unfold next_id. simpl. lia.
  - cbn [number_from List.length]. specialize (IH (n + 1) ltac:(lia)).
    unfold next_id in *. simpl fold_right. simpl fst. lia.
Qed.

Lemma next_id_pos {A : Type} (t : list (Z * A)) : 1 <= next_id t.
Proof. unfold next_id. induction t; simpl; lia. Qed.

(** Creating records in two calls numbers them as in one. *)
Lemma create_app {A : Type} (table : list (Z * A)) (l1 l2 : list A) :
  create table (l1 ++ l2)
  = create table l1 ++ create (table ++ create table l1) l2.
Proof.
  unfold create. rewrite number_from_app, next_id_app.
  rewrite (next_id_number_from l1 _ (next_id_pos table)). reflexivity.
Qed.

Lemma filter_number_from {A : Type} (p : A -> bool) (l : list A) :
  forall n,
    map snd (filter (fun row => p (snd row)) (number_from n l)) = filter p l.
Proof.
  induction l as [|x l IH]; intros n; simpl; [reflexivity|].
  destruct (p x); simpl; rewrite IH; reflexivity.
Qed.

Lemma consumptions_of_created (db : DB)
    (to_create : list ContractConsumption.t) (id : Z) :
  consumptions_of
    (with_consumptions db (consumptions db ++ create (consumptions db) to_create))
    id
  = consumptions_of db id
    ++ filter
         (fun c => ContractLine.id (ContractConsumption.contract_line c) =? id)
         to_create.
Proof.
  unfold consumptions_of, create. cbn [consumptions with_consumptions].
  rewrite filter_app, map_app.
  rewrite (filter_number_from
             (fun c => ContractLine.id (ContractConsumption.contract_line c)
                       =? id)).
  reflexivity.
Qed.

Lemma filter_nothing {A : Type} (p : A -> bool) (l : list A) :
  (forall x, In x l -> p x = false) -> filter p l = [].
Proof.
  induction l as [|x l IH]; intros H; simpl; [reflexivity|].
  rewrite (H x (or_introl eq_refl)). apply IH. intros y Hy. apply H. right; auto.
Qed.

(** X10.  Consuming two lists of contracts in one call or in two calls, one
    after the other, comes to the same: the same database, the same rows
    with the same ids, and the same exception if one is raised.  The lines
    have distinct ids and no contract of the first list is in the second. *)
Theorem X10_consume_in_two_calls (db : DB) (a b : list Contract.t)
    (date : option date) :
  NoDup (map ContractLine.id (contract_lines db)) ->
  (forall ca cb, In ca a -> In cb b -> Contract.id ca <> Contract.id cb) ->
  consume db (a ++ b) date
  = match consume db a date with
    | Ok (db1, created_a) =>
        match consume db1 b date with
        | Ok (db2, created_b) => Ok (db2, created_a ++ created_b)
        | Raise e => Raise e
        end
    | Raise e => Raise e
    end.
Proof.
  intros Hnodup Hdisj. unfold consume.
  destruct date as [d|]; [|reflexivity]. cbn [bind].
  destruct (add_days d 1) as [d'|e]; [|reflexivity]. cbn [bind].
  rewrite concat_results_app.
  destruct (concat_results (fun contract => get_consumptions db contract (Some d')) a)
    as [xs|e] eqn:Exs; [|reflexivity].
  cbn [bind].
  set (db1 := with_consumptions db (consumptions db ++ create (consumptions db) xs)).
  assert (Hsame : concat_results
                    (fun contract => get_consumptions db1 contract (Some d')) b
                  = concat_results
                      (fun contract => get_consumptions db contract (Some d')) b).
  { apply concat_results_ext. intros cb Hcb.
    apply get_consumptions_db_ext; try reflexivity.
    intros line Hline. unfold last_consumption_date, get_last_consumption_date.
    cbn [map]. unfold db1. rewrite consumptions_of_created.
    rewrite filter_nothing; [rewrite app_nil_r; reflexivity|].
    intros c Hc. apply Z.eqb_neq. intros Heq.
    destruct (to_create_origin _ _ _ _ _ Exs Hc)
      as (ca & e & Hca & Hl & _).
    unfold Contract_lines in Hline, Hl. unfold db1 in Hline.
    cbn [contract_lines with_consumptions] in Hline.
    apply filter_In in Hline, Hl.
    destruct Hline as (Hline & Hidb). destruct Hl as (Hl & Hida).
    apply Z.eqb_eq in Hidb, Hida.
    pose proof (NoDup_map_injective _ _ _ _ Hnodup Hl Hline Heq) as E.
    rewrite E in Hida. apply (Hdisj ca cb Hca Hcb). congruence. }
  rewrite Hsame.
  destruct (concat_results (fun contract => get_consumptions db contract (Some d')) b)
    as [ys|e]; [|reflexivity].
  cbn [bind]. unfold db1. cbn [consumptions with_consumptions].
  rewrite create_app, app_assoc. reflexivity.
Qed.

Lemma X10_consume_in_two_calls_witness :
  let line1 := Sample.line_of Sample.monthly in
  let line2 :=
    {| ContractLine.id := 12; ContractLine.rec_name := "backup";
       ContractLine.contract := Sample.late_start;
       ContractLine.service := None;
       ContractLine.description := "Backup"; ContractLine.unit_price := 3 |} in
  let db := Sample.db_of [line1; line2] [] in
  let date := Some (mkdate 2020 3 31) in
  consume db ([Sample.monthly] ++ [Sample.late_start]) date
  = match consume db [Sample.monthly] date with
    | Ok (db1, created_a) =>
        match consume db1 [Sample.late_start] date with
        | Ok (db2, created_b) => Ok (db2, created_a ++ created_b)
        | Raise e => Raise e
        end
    | Raise e => Raise e
    end.
Proof.
  intros line1 line2 db date.
  refine (X10_consume_in_two_calls db [Sample.monthly] [Sample.late_start]
            date _ _).
  - repeat constructor; simpl; intuition discriminate.
  - intros ca cb [<-|[]] [<-|[]]. simpl. discriminate.
Defined.

(** ** The wizard that creates consumptions *)

(** X11.  The wizard consumes the validated contracts and no other: every
    consumption it reports was created for a line of a contract of the
    table whose state is [validated], and is read at the reported id
    afterwards.  The views of the action are reversed exactly when one
    consumption was created. *)
Theorem X11_wizard_consumes_validated_contracts {V : Type}
    (table : list Contract.t) (db : DB) (start_date : option date)
    (views : list V) (db' : DB) (views' : list V) (res_id : list Z) :
  do_create_consumptions table db start_date views
  = Ok (db', (views', res_id)) ->
  (forall id,
     In id res_id ->
     exists c contract,
       lookup (consumptions db') id = Some c
       /\ lookup (consumptions db) id = None
       /\ In contract table
       /\ Contract.state contract = validated
       /\ In (ContractConsumption.contract_line c)
             (Contract_lines db contract))
  /\ views' = (if (List.length res_id =? 1)%nat then rev views else views)
  /\ List.length (consumptions db')
     = (List.length (consumptions db) + List.length res_id)%nat.
Proof.
  unfold do_create_consumptions. intros H.
  bind_inv H as res Hres. destruct res as [db1 created].
  inversion H; subst db' views' res_id. clear H.
  apply consume_Ok_inv in Hres.
  destruct Hres as (d & to_create & -> & Hto & -> & ->).
  split; [|split].
  - intros id Hid. apply in_map_iff in Hid.
    destruct Hid as ([id' c] & Heq & Hin). simpl in Heq. subst id'.
    assert (Hfresh : lookup (consumptions db) id = None).
    { apply lookup_fresh. intros k v Hk. apply next_id_bound in Hk.
      apply number_from_keys in Hin. lia. }
    exists c.
    destruct (to_create_origin _ _ _ _ _ Hto (number_from_In _ _ _ _ Hin))
      as (contract & e & Hc & Hl & _).
    unfold search_validated in Hc. apply filter_In in Hc.
    destruct Hc as (Hc & Hstate).
    exists contract. cbn [consumptions with_consumptions].
    rewrite lookup_app, Hfresh. repeat split; auto.
    + apply lookup_number_from. exact Hin.
    + destruct (Contract.state contract); try discriminate. reflexivity.
  - rewrite length_map. reflexivity.
  - cbn [consumptions with_consumptions].
    rewrite length_app, length_map. reflexivity.
Qed.

Lemma X11_wizard_consumes_validated_contracts_witness :
  let line1 := Sample.line_of Sample.monthly in
  let line2 :=
    {| ContractLine.id := 12; ContractLine.rec_name := "backup";
       ContractLine.contract := Sample.late_start;
       ContractLine.service := None;
       ContractLine.description := "Backup"; ContractLine.unit_price := 3 |} in
  let db := Sample.db_of [line1; line2] [] in
  let created := [(1, january_2020 Sample.monthly line1)] in
  (forall id,
     In id [1] ->
     exists c contract,
       lookup (consumptions (with_consumptions db created)) id = Some c
       /\ lookup (consumptions db) id = None
       /\ In contract [Sample.monthly; Sample.late_start]
       /\ Contract.state contract = validated
       /\ In (ContractConsumption.contract_line c)
             (Contract_lines db contract))
  /\ ["form"; "tree"]%string
     = (if (List.length [1] =? 1)%nat
        then rev ["tree"; "form"]%string
        else ["tree"; "form"]%string)
  /\ List.length (consumptions (with_consumptions db created))
     = (List.length (consumptions db) + List.length [1])%nat.
Proof.
  intros line1 line2 db created.
  refine (X11_wizard_consumes_validated_contracts
            [Sample.monthly; Sample.late_start] db (Some (mkdate 2020 2 15))
            ["tree"; "form"]%string (with_consumptions db created)
            ["form"; "tree"]%string [1] _).
  vm_compute. reflexivity.
Defined.

(** ** Validation of a list of contracts *)

(** [check_start_date] answers [None] exactly for a contract without
    frequency. *)
Lemma check_start_date_passes (self : Contract.t) :
  (exists v, check_start_date self = Ok v)
  <-> Contract.freq self = None \/ check_start_date self = Ok (Some true).
Proof.
  unfold check_start_date, rrule, rrule_new, Contract_rrule_values,
    RRuleMixin_rrule_values. cbn [kw_freq kw_interval kw_dtstart].
  destruct (Contract.freq self) as [f|].
  - split.
    + intros (v & Hv). right.
      destruct (Dateutil.after _ _) as [[d|]|]; try discriminate.
      cbn [bind] in *. destruct (_ && _); [reflexivity|discriminate].
    + intros [H|H]; [discriminate|eauto].
  - split; [auto|eauto].
Qed.

(** X12.  [validate] accepts a list of contracts exactly when each of them
    either has no frequency, in which case its start date is not looked
    at, or has a start date that [check_start_date] accepts. *)
Theorem X12_validate_checks_every_contract (contracts : list Contract.t) :
  validate contracts = Ok tt
  <-> forall c, In c contracts ->
        Contract.freq c = None \/ check_start_date c = Ok (Some true).
Proof.
  induction contracts as [|c contracts IH]; simpl.
  - split; [intros _ c []|reflexivity].
  - split.
    + intros H. bind_inv H as v Hv. intros c' [<-|Hc'].
      * apply check_start_date_passes. eauto.
      * apply IH; auto.
    + intros H.
      destruct (proj2 (check_start_date_passes c) (H c (or_introl eq_refl)))
        as (v & ->).
      cbn [bind]. apply IH. intros c' Hc'. apply H. right. exact Hc'.
Qed.

(** ** The window of the start date *)

Module StartWindow.
Import Calendar Dateutil DateutilFacts.

(** The occurrence of the second period of a rule is the first one after
    its start. *)
Lemma first_after_dtstart (r : rrule) (d1 : date) :
  1 <= _interval r ->
  in_range (_dtstart r) ->
  period r 1 = Yield d1 ->
  first_after r (_dtstart r) d1.
Proof.
  intros Hint Hrange H1.
  pose proof (Termination.period_first r Hrange) as H0.
  assert (Hlt : _dtstart r < d1)
    by (apply (period_yield_mono r Hint 0 1); auto; lia).
  split; [exists 1; split; [lia|exact H1]|]. split; [exact Hlt|].
  intros i (k & Hk & Hy) Hi.
  destruct (Z.eq_dec k 0) as [->|Hk0].
  - rewrite H0 in Hy. apply Yield_inj in Hy. lia.
  - destruct (Z.eq_dec k 1) as [->|Hk1].
    + rewrite H1 in Hy. apply Yield_inj in Hy. lia.
    + pose proof (period_yield_mono r Hint 1 k d1 i ltac:(lia) H1 Hy). lia.
Qed.

End StartWindow.

(** The test of [check_start_date] once the rule and its next occurrence are
    known. *)
Lemma check_start_date_test (self : Contract.t) (r : Dateutil.rrule)
    (d : date) :
  rrule self = Ok r ->
  Dateutil.after r (Contract.start_period_date self) = Ok (Some d) ->
  check_start_date self
  = if (Contract.start_period_date self <=? Contract.start_date self)
       && (Contract.start_date self <? d)
    then Ok (Some true)
    else Raise (UserError "start_date_not_valid").
Proof.
  intros Hr Ha. unfold check_start_date, todatetime, date_of.
  rewrite Hr, Ha. reflexivity.
Qed.

Lemma check_start_date_window (self : Contract.t) (r : Dateutil.rrule)
    (d : date) :
  rrule self = Ok r ->
  1 <= Dateutil._interval r ->
  in_range (Dateutil._dtstart r) ->
  Dateutil._dtstart r = Contract.start_period_date self ->
  Dateutil.period r 1 = Dateutil.Yield d ->
  (check_start_date self = Ok (Some true)
   <-> Contract.start_period_date self <= Contract.start_date self < d)
  /\ (check_start_date self = Raise (UserError "start_date_not_valid")
      <-> ~ (Contract.start_period_date self <= Contract.start_date self < d)).
Proof.
  intros Hr Hint Hrange Hstart Hp.
  pose proof (StartWindow.first_after_dtstart r d Hint Hrange Hp) as Hfirst.
  apply (Termination.after_complete r Hint Hrange) in Hfirst.
  rewrite Hstart in Hfirst.
  rewrite (check_start_date_test self r d Hr Hfirst).
  destruct (Z.leb_spec (Contract.start_period_date self)
              (Contract.start_date self));
    destruct (Z.ltb_spec (Contract.start_date self) d); cbn [andb];
    split; split; intros H'; try discriminate; try reflexivity; lia.
Qed.

(** X13.  For a daily contract with interval [n], [check_start_date]
    accepts the start dates of the [n] days from the start period date on,
    and for a weekly contract those of the [7 * n] days from it on; it
    raises the user error for every other start date.  With a daily
    interval of 1 the start date has to be the start period date. *)
Theorem X13_start_date_window_in_days (self : Contract.t)
    (f : Dateutil.Freq) (n : Z) :
  Contract.freq self = Some f ->
  f = Dateutil.DAILY \/ f = Dateutil.WEEKLY ->
  Contract.interval self = Some n ->
  1 <= n ->
  let days := match f with Dateutil.WEEKLY => 7 * n | _ => n end in
  in_range (Contract.start_period_date self) ->
  Contract.start_period_date self + days <= Calendar.MAXORD ->
  (check_start_date self = Ok (Some true)
   <-> Contract.start_period_date self <= Contract.start_date self
       < Contract.start_period_date self + days)
  /\ (check_start_date self = Raise (UserError "start_date_not_valid")
      <-> ~ (Contract.start_period_date self <= Contract.start_date self
             < Contract.start_period_date self + days)).
Proof.
  intros Hf Hdw Hi Hn days Hrange Hmax.
  pose proof (rrule_of_fields self f n Hf Hi ltac:(lia)) as Hr.
  apply (check_start_date_window self _ _ Hr); auto.
  unfold Dateutil.period. cbn [Dateutil._dtstart Dateutil._freq Dateutil._interval].
  destruct (Calendar.ord2ymd (Contract.start_period_date self)) as [[y m] d].
  assert (Hwd : 0 <= Dateutil.weekday (Contract.start_period_date self))
    by (unfold Dateutil.weekday; apply Z.mod_pos_bound; lia).
  subst days. destruct Hdw as [-> | ->].
  - replace (1 * n) with n by lia.
    destruct (Z.ltb_spec Calendar.MAXORD (Contract.start_period_date self + n));
      [lia|reflexivity].
  - replace (1 * n) with n by lia. change (1 =? 0) with false. cbv iota.
    destruct (Z.ltb_spec Calendar.MAXORD
                (Contract.start_period_date self + 7 * n
                 - Dateutil.weekday (Contract.start_period_date self)));
      [lia|].
    destruct (Z.ltb_spec Calendar.MAXORD
                (Contract.start_period_date self + 7 * n));
      [lia|reflexivity].
Qed.

Lemma X13_start_date_window_in_days_witness :
  (check_start_date Sample.daily = Ok (Some true)
   <-> Contract.start_period_date Sample.daily
       <= Contract.start_date Sample.daily
       < Contract.start_period_date Sample.daily + 1)
  /\ (check_start_date Sample.daily = Raise (UserError "start_date_not_valid")
      <-> ~ (Contract.start_period_date Sample.daily
             <= Contract.start_date Sample.daily
             < Contract.start_period_date Sample.daily + 1)).
Proof.
  refine (X13_start_date_window_in_days Sample.daily Dateutil.DAILY 1
            eq_refl (or_introl eq_refl) eq_refl _ _ _).
  - lia.
  - unfold in_range. vm_compute. split; discriminate.
  - vm_compute. discriminate.
Defined.

(** X14.  For a monthly contract with interval 1, or without interval,
    whose start period date is at most the 28th of its month,
    [check_start_date] accepts exactly the start dates from the start
    period date to the day before the same day of the next month: the
    window has the length of the month of the start period date. *)
Theorem X14_start_date_window_of_a_month (self : Contract.t) (y m d : Z) :
  Contract.freq self = Some Dateutil.MONTHLY ->
  Contract.interval self = None \/ Contract.interval self = Some 1 ->
  in_range (Contract.start_period_date self) ->
  Calendar.ord2ymd (Contract.start_period_date self) = (y, m, d) ->
  d <= 28 ->
  12 * y + m <= 12 * Calendar.MAXYEAR + 11 ->
  (check_start_date self = Ok (Some true)
   <-> Contract.start_period_date self <= Contract.start_date self
       < Contract.start_period_date self + Calendar.days_in_month y m)
  /\ (check_start_date self = Raise (UserError "start_date_not_valid")
      <-> ~ (Contract.start_period_date self <= Contract.start_date self
             < Contract.start_period_date self + Calendar.days_in_month y m)).
Proof.
  intros Hf Hi Hrange Hymd Hd Hlast.
  assert (Hr : rrule self
               = Ok (Dateutil.mk_rrule Dateutil.MONTHLY 1
                       (Contract.start_period_date self))).
  { destruct Hi as [Hi|Hi].
    - unfold rrule, rrule_new, Contract_rrule_values, RRuleMixin_rrule_values,
        todatetime.
      cbn [kw_freq kw_interval kw_dtstart]. rewrite Hf, Hi. reflexivity.
    - apply rrule_of_fields; auto. lia. }
  apply (check_start_date_window self _ _ Hr); auto.
  { cbn [Dateutil._interval]. lia. }
  unfold Dateutil.period.
  cbn [Dateutil._dtstart Dateutil._freq Dateutil._interval]. rewrite Hymd.
  pose proof (Roundtrip.ymd2ord_ord2ymd _ (proj1 Hrange)) as Hround.
  rewrite Hymd in Hround. destruct Hround as (Hord & Hm & Hd1).
  set (mi := 12 * y + (m - 1)).
  assert (Hq : mi / 12 = y) by (unfold mi; Z.div_mod_to_equations; lia).
  assert (Hmod : mi mod 12 + 1 = m) by (unfold mi; Z.div_mod_to_equations; lia).
  replace (mi + 1 * 1) with (mi + 1) by lia.
  assert (Hy' : (mi + 1) / 12 <= Calendar.MAXYEAR).
  { unfold Calendar.MAXYEAR in *. unfold mi. Z.div_mod_to_equations. lia. }
  destruct (Z.ltb_spec Calendar.MAXYEAR ((mi + 1) / 12)); [lia|].
  pose proof (CalendarFacts.days_in_month_bounds ((mi + 1) / 12)
                ((mi + 1) mod 12 + 1)).
  destruct (Z.leb_spec d
              (Calendar.days_in_month ((mi + 1) / 12) ((mi + 1) mod 12 + 1)));
    [|lia].
  f_equal.
  change (Calendar.ymd2ord ((mi + 1) / 12) ((mi + 1) mod 12 + 1) d)
    with (Calendar.month_start (mi + 1) + d).
  rewrite CalendarFacts.month_start_succ, Hq, Hmod, <- Hord.
  unfold Calendar.month_start, Calendar.ymd2ord. rewrite Hq, Hmod. lia.
Qed.

Lemma X14_start_date_window_of_a_month_witness :
  (check_start_date Sample.late_start = Ok (Some true)
   <-> Contract.start_period_date Sample.late_start
       <= Contract.start_date Sample.late_start
       < Contract.start_period_date Sample.late_start
         + Calendar.days_in_month 2020 1)
  /\ (check_start_date Sample.late_start
      = Raise (UserError "start_date_not_valid")
      <-> ~ (Contract.start_period_date Sample.late_start
             <= Contract.start_date Sample.late_start
             < Contract.start_period_date Sample.late_start
               + Calendar.days_in_month 2020 1)).
Proof.
  refine (X14_start_date_window_of_a_month Sample.late_start 2020 1 1
            eq_refl (or_intror eq_refl) _ _ _ _).
  - unfold in_range. vm_compute. split; discriminate.
  - vm_compute. reflexivity.
  - lia.
  - vm_compute. discriminate.
Defined.

(** ** What [invoice] leaves as it was *)

Lemma write_invoice_line_ids (ws : list (Z * Z)) :
  forall table,
    map fst (fold_left write_invoice_line ws table) = map fst table.
Proof.
  induction ws as [|w ws IH]; intros table; simpl; [reflexivity|].
  rewrite IH. unfold write_invoice_line. rewrite map_map.
  apply map_ext. intros row. destruct (fst row =? fst w); reflexivity.
Qed.

Lemma writes_keep_fields (ws : list (Z * Z)) (id : Z) :
  forall c,
    same_but_invoice_line c
      (fold_left
         (fun c w => if fst w =? id then with_invoice_line c (snd w) else c)
         ws c).
Proof.
  induction ws as [|w ws IH]; intros c; simpl.
  - repeat split.
  - destruct (fst w =? id); [|apply IH].
    destruct (IH (with_invoice_line c (snd w))) as (H1 & H2 & H3 & H4 & H5 & H6).
    repeat split; simpl in *; congruence.
Qed.

Lemma writes_elsewhere (ws : list (Z * Z)) (id : Z) :
  ~ In id (map fst ws) ->
  forall c,
    fold_left
      (fun c w => if fst w =? id then with_invoice_line c (snd w) else c)
      ws c = c.
Proof.
  induction ws as [|w ws IH]; intros Hnot c; simpl; [reflexivity|].
  simpl in Hnot. destruct (Z.eqb_spec (fst w) id); [tauto|].
  apply IH. tauto.
Qed.

Lemma Forall2_length_eq {A B : Type} (P : A -> B -> Prop) (l : list A)
    (l' : list B) :
  Forall2 P l l' -> List.length l = List.length l'.
Proof. induction 1; simpl; auto. Qed.

Lemma to_write_ids {B : Type} (ids : list Z) (rows : list (Z * B)) :
  List.length ids = List.length rows ->
  map fst (map (fun p : Z * (Z * B) => (fst p, fst (snd p))) (combine ids rows))
  = ids.
Proof.
  intros Hlen. rewrite map_map. cbn [fst].
  change (map (fun x : Z * (Z * B) => fst x) (combine ids rows))
    with (map fst (combine ids rows)).
  apply map_fst_combine. exact Hlen.
Qed.

(** X15.  [invoice] adds invoice lines and invoices and deletes none; it
    leaves the contract lines alone, keeps the rows of the table of
    consumptions and their ids, and changes in a consumption nothing but
    its invoice line: a consumption that is not among those given is
    read afterwards as before. *)
Theorem X15_invoice_changes_only_the_link (db : DB) (ids : list Z) (db' : DB) :
  invoice db ids = Ok db' ->
  contract_lines db' = contract_lines db
  /\ (exists new_lines,
        invoice_lines db' = invoice_lines db ++ new_lines
        /\ List.length new_lines = List.length ids)
  /\ (exists new_invoices, invoices db' = invoices db ++ new_invoices)
  /\ map fst (consumptions db') = map fst (consumptions db)
  /\ forall id c,
       lookup (consumptions db) id = Some c ->
       exists c',
         lookup (consumptions db') id = Some c'
         /\ same_but_invoice_line c c'
         /\ (~ In id ids -> c' = c).
Proof.
  intros H. destruct ids as [|id0 ids0].
  - inversion H; subst db'. split; [reflexivity|].
    split; [exists []; rewrite app_nil_r; auto|].
    split; [exists []; rewrite app_nil_r; auto|].
    split; [reflexivity|].
    intros id c Hc. exists c. repeat split; auto.
  - pose proof H as H'. apply invoice_Ok in H'; [|discriminate].
    destruct H' as (ils & Hall & Hlines & Hcons & Hinv).
    set (ids := id0 :: ids0) in *.
    assert (Hlen : List.length ids
                   = List.length (number_from (next_id (invoice_lines db)) ils)).
    { rewrite number_from_length. eapply Forall2_length_eq; eauto. }
    split.
    { unfold invoice, invoice_run in H.
      destruct (invoice_loop db ids _) as [st [[]|e]]; [|discriminate].
      destruct (lines st); [|destruct (sortable _); [|discriminate]];
        inversion H; reflexivity. }
    split; [eexists; split; [exact Hlines|symmetry; exact Hlen]|].
    split; [eexists; exact Hinv|].
    split; [rewrite Hcons; apply write_invoice_line_ids|].
    intros id c Hc. rewrite Hcons, lookup_writes, Hc. cbn [option_map].
    eexists. split; [reflexivity|]. split; [apply writes_keep_fields|].
    intros Hnot. apply writes_elsewhere. rewrite to_write_ids; auto.
Qed.

Lemma X15_invoice_changes_only_the_link_witness :
  exists db',
    invoice SampleInvoice.two_lines_db [1] = Ok db'
    /\ forall id c,
         lookup (consumptions SampleInvoice.two_lines_db) id = Some c ->
         exists c',
           lookup (consumptions db') id = Some c'
           /\ same_but_invoice_line c c'
           /\ (~ In id [1] -> c' = c).
Proof.
  destruct (invoice SampleInvoice.two_lines_db [1]) as [db'|e] eqn:E;
    [|vm_compute in E; discriminate].
  exists db'. split; [reflexivity|].
  exact (proj2 (proj2 (proj2 (proj2
           (X15_invoice_changes_only_the_link _ _ _ E))))).
Defined.

(** ** A consumption given more than once *)

Lemma dict_set_keys {A : Type} (d : list (Z * A)) (k : Z) (v : A) :
  (forall x, In x (map fst (dict_set d k v)) <-> x = k \/ In x (map fst d))
  /\ (NoDup (map fst d) -> NoDup (map fst (dict_set d k v))).
Proof.
  induction d as [|[k' v'] d (IH1 & IH2)]; simpl.
  - split; [intros x; intuition|]. intros _. repeat constructor. intros [].
  - destruct (Z.eqb_spec k' k) as [->|Hne]; simpl.
    + split; [intros x; intuition|auto].
    + split.
      * intros x. rewrite IH1. intuition.
      * intros Hnd. inversion Hnd as [|? ? Hnot Hnd']; subst.
        constructor; [|auto]. rewrite IH1. intros [E|Hin]; [congruence|tauto].
Qed.






(** ** A consumption that cannot be invoiced *)

Lemma invoice_loop_raises (db : DB) (pre : list Z) (id : Z) (post : list Z)
    (c : ContractConsumption.t) (e : exn) :
  (forall x, In x pre ->
     exists cx il, lookup (consumptions db) x = Some cx
                   /\ get_invoice_line db cx = Ok il) ->
  lookup (consumptions db) id = Some c ->
  get_invoice_line db c = Raise e ->
  forall st,
    exists ils st',
      Forall2
        (fun x il =>
           exists cx, lookup (consumptions db) x = Some cx
                      /\ get_invoice_line db cx = Ok il)
        pre ils
      /\ invoice_loop db (pre ++ id :: post) st = (st', Raise e)
      /\ saved_lines st'
         = saved_lines st ++ number_from (next_id (saved_lines st)) ils.
Proof.
  intros Hpre Hc He. induction pre as [|x pre IH]; intros st; simpl.
  - exists [], st. unfold browse. rewrite Hc. simpl. rewrite He.
    split; [constructor|]. split; [reflexivity|].
    simpl. rewrite app_nil_r. reflexivity.
  - destruct (Hpre x (or_introl eq_refl)) as (cx & il & Hx & Hil).
    unfold browse. rewrite Hx. simpl. rewrite Hil.
    destruct (IH (fun y Hy => Hpre y (or_intror Hy))
                {| saved_lines :=
                     saved_lines st ++ [(next_id (saved_lines st), il)];
                   lines :=
                     dict_set (lines st) x (next_id (saved_lines st), il);
                   to_write :=
                     to_write st ++ [(x, next_id (saved_lines st))] |})
      as (ils & st' & HF & Hrun & Hsaved).
    cbn [saved_lines] in Hsaved. rewrite next_id_snoc in Hsaved.
    replace (Z.max (next_id (saved_lines st)) (next_id (saved_lines st) + 1))
      with (next_id (saved_lines st) + 1) in Hsaved by lia.
    exists (il :: ils), st'. split; [constructor; eauto|].
    split; [exact Hrun|].
    rewrite Hsaved, <- app_assoc. reflexivity.
Qed.

(** X17.  When an invoice line cannot be built for one of the consumptions
    given, [invoice] raises the exception of the first such consumption.
    The exception leaves the call with no invoice created and no
    consumption linked, but with the invoice lines of the consumptions
    before that one saved, one each and in their order: the call itself
    does not undo them. *)
Theorem X17_invoice_raises_the_first_failure (db : DB) (pre : list Z) (id : Z)
    (post : list Z) (c : ContractConsumption.t) (e : exn) :
  (forall x, In x pre ->
     exists cx il, lookup (consumptions db) x = Some cx
                   /\ get_invoice_line db cx = Ok il) ->
  lookup (consumptions db) id = Some c ->
  get_invoice_line db c = Raise e ->
  invoice db (pre ++ id :: post) = Raise e
  /\ exists ils,
       Forall2
         (fun x il =>
            exists cx, lookup (consumptions db) x = Some cx
                       /\ get_invoice_line db cx = Ok il)
         pre ils
       /\ invoice_run db (pre ++ id :: post)
          = (with_invoice_lines db
               (invoice_lines db ++ create (invoice_lines db) ils),
             Raise e).
Proof.
  intros Hpre Hc He.
  destruct (invoice_loop_raises db pre id post c e Hpre Hc He
              {| saved_lines := invoice_lines db; lines := [];
                 to_write := [] |})
    as (ils & st' & HF & Hrun & Hsaved).
  cbn [saved_lines] in Hsaved.
  assert (E : invoice_run db (pre ++ id :: post)
              = (with_invoice_lines db
                   (invoice_lines db ++ create (invoice_lines db) ils),
                 Raise e)).
  { unfold invoice_run. rewrite Hrun, Hsaved. reflexivity. }
  split.
  - unfold invoice. rewrite E. reflexivity.
  - exists ils. split; [exact HF|exact E].
Qed.

Lemma X17_invoice_raises_the_first_failure_witness :
  let line := Sample.line_of Sample.daily in
  let day := get_consumption line (mkdate 2020 1 1) (mkdate 2020 1 1)
               (mkdate 2020 1 1) (mkdate 2020 1 1) (mkdate 2020 1 1) in
  let db :=
    Sample.db_of [line] [(1, january_2020 Sample.monthly line); (2, day)] in
  invoice_lines db = []
  /\ map fst (invoice_lines (fst (invoice_run db ([1] ++ 2 :: [1])))) = [1]
  /\ invoices (fst (invoice_run db ([1] ++ 2 :: [1]))) = invoices db
  /\ consumptions (fst (invoice_run db ([1] ++ 2 :: [1]))) = consumptions db
  /\ invoice db ([1] ++ 2 :: [1]) = Raise ZeroDivisionError
  /\ exists ils,
       Forall2
         (fun x il =>
            exists cx, lookup (consumptions db) x = Some cx
                       /\ get_invoice_line db cx = Ok il)
         [1] ils
       /\ invoice_run db ([1] ++ 2 :: [1])
          = (with_invoice_lines db
               (invoice_lines db ++ create (invoice_lines db) ils),
             Raise ZeroDivisionError).
Proof.
  intros line day db.
  split; [reflexivity|].
  split; [vm_compute; reflexivity|].
  split; [vm_compute; reflexivity|].
  split; [vm_compute; reflexivity|].
  refine (X17_invoice_raises_the_first_failure db [1] 2 [1] day
            ZeroDivisionError _ _ _).
  - intros x [<-|[]]. eexists _, _. split; vm_compute; reflexivity.
  - reflexivity.
  - vm_compute. reflexivity.
Defined.

(** ** When an invoice line can be built *)

Lemma total_seconds_zero (days : Z) :
  Qeq_bool (total_seconds days) 0 = true <-> days = 0.
Proof.
  rewrite Qeq_bool_iff. unfold total_seconds. rewrite inject_Z_zero. lia.
Qed.

Lemma Qeq_bool_false (p : Q) : Qeq_bool p 0 = false <-> ~ p == 0.
Proof.
  destruct (Qeq_bool p 0) eqn:E.
  - apply Qeq_bool_iff in E. split; [discriminate|contradiction].
  - split; [|reflexivity]. intros _ H. apply Qeq_bool_iff in H. congruence.
Qed.

(** The outcomes of [get_invoice_line]: the choice of the account decides
    on the user errors, and what follows raises none. *)
Lemma get_invoice_line_cases (db : DB) (self : ContractConsumption.t) :
  let line := ContractConsumption.contract_line self in
  match ContractLine.service line with
  | Some s =>
      match Product.account_revenue_used (ContractService.product s) with
      | None =>
          get_invoice_line db self = Raise (UserError "missing_account_revenue")
      | Some _ =>
          (exists il, get_invoice_line db self = Ok il)
          /\ dates_ready self
          /\ ~ Uom.rounding (Product.default_uom (ContractService.product s))
               == 0
          \/ (get_invoice_line db self = Raise TypeError
              \/ get_invoice_line db self = Raise ZeroDivisionError)
             /\ ~ (dates_ready self
                   /\ ~ Uom.rounding
                          (Product.default_uom (ContractService.product s))
                        == 0)
      end
  | None =>
      match property_account_revenue db "product.template",
            property_account_revenue db "product.category" with
      | None, None =>
          get_invoice_line db self
          = Raise (UserError "missing_account_revenue_property")
      | _, _ =>
          (exists il, get_invoice_line db self = Ok il) /\ dates_ready self
          \/ (get_invoice_line db self = Raise TypeError
              \/ get_invoice_line db self = Raise ZeroDivisionError)
             /\ ~ dates_ready self
      end
  end.
Proof.
  intros line. subst line. unfold get_invoice_line, dates_ready.
  assert (Htail :
    forall (rounding : Q) (mk : Z -> Z -> Z -> Z -> Q -> InvoiceLine.t),
      let res :=
        (end_date <- require (ContractConsumption.end_date self) TypeError ;;
         start_date <- require (ContractConsumption.start_date self) TypeError ;;
         end_period_date <-
           require (ContractConsumption.end_period_date self) TypeError ;;
         init_period_date <-
           require (ContractConsumption.init_period_date self) TypeError ;;
         quantity <- float_div (total_seconds (end_date - start_date))
                       (total_seconds (end_period_date - init_period_date)) ;;
         quantity <- Uom.round quantity rounding ;;
         Ok (mk end_date start_date end_period_date init_period_date quantity))
      in
      let ready :=
        (exists s e ip ep,
            ContractConsumption.start_date self = Some s
            /\ ContractConsumption.end_date self = Some e
            /\ ContractConsumption.init_period_date self = Some ip
            /\ ContractConsumption.end_period_date self = Some ep
            /\ ep <> ip)
        /\ ~ rounding == 0 in
      (exists il, res = Ok il) /\ ready
      \/ (res = Raise TypeError \/ res = Raise ZeroDivisionError) /\ ~ ready).
  { intros rounding mk. cbv zeta.
    destruct (ContractConsumption.end_date self) as [e|];
      [|right; split; [left; reflexivity|];
        intros ((s & e & ip & ep & _ & H & _) & _); discriminate].
    destruct (ContractConsumption.start_date self) as [s|];
      [|right; split; [left; reflexivity|];
        intros ((s & e' & ip & ep & H & _) & _); discriminate].
    destruct (ContractConsumption.end_period_date self) as [ep|];
      [|right; split; [left; reflexivity|];
        intros ((s' & e' & ip & ep & _ & _ & _ & H & _) & _); discriminate].
    destruct (ContractConsumption.init_period_date self) as [ip|];
      [|right; split; [left; reflexivity|];
        intros ((s' & e' & ip & ep' & _ & _ & H & _) & _); discriminate].
    cbn [require bind]. unfold float_div.
    destruct (Qeq_bool (total_seconds (ep - ip)) 0) eqn:Ez.
    { apply total_seconds_zero in Ez. right. split; [right; reflexivity|].
      intros ((s' & e' & ip' & ep' & _ & _ & [= <-] & [= <-] & Hne) & _). lia. }
    cbn [bind]. unfold Uom.round.
    destruct (Qeq_bool rounding 0) eqn:Er.
    { apply Qeq_bool_iff in Er. right. split; [right; reflexivity|].
      intros (_ & Hr). contradiction. }
    cbn [bind]. left. split; [eauto|]. split.
    - exists s, e, ip, ep. repeat split; auto.
      intros ->. replace (ip - ip) with 0 in Ez by lia. discriminate.
    - apply Qeq_bool_false. exact Er. }
  destruct (ContractLine.service (ContractConsumption.contract_line self))
    as [s|]; cbn [option_map].
  - destruct (Product.account_revenue_used (ContractService.product s))
      as [a|]; [|reflexivity].
    cbn [require bind].
    refine (match Htail _ _ with
            | or_introl (conj Hok (conj Hready Hr)) =>
                or_introl (conj Hok (conj Hready Hr))
            | or_intror (conj Herr Hnot) => or_intror (conj Herr Hnot)
            end).
  - assert (Hone : ~ 1 == 0) by (intros H; discriminate H).
    destruct (property_account_revenue db "product.template") as [a|];
      [|destruct (property_account_revenue db "product.category") as [a|];
        [|reflexivity]];
      cbn [require bind];
      refine (match Htail 1%Q _ with
              | or_introl (conj Hok (conj Hready _)) =>
                  or_introl (conj Hok Hready)
              | or_intror (conj Herr Hnot) =>
                  or_intror (conj Herr (fun H => Hnot (conj H Hone)))
              end).
Qed.

(** X18.  [get_invoice_line] raises the user error
    ['missing_account_revenue'] exactly when the line has a service whose
    product has no revenue account, and ['missing_account_revenue_property']
    exactly when the line has no service and neither default property is
    set; the dates of the consumption play no part in it. *)
Theorem X18_user_errors_of_get_invoice_line (db : DB)
    (self : ContractConsumption.t) :
  (get_invoice_line db self = Raise (UserError "missing_account_revenue")
   <-> exists s,
         ContractLine.service (ContractConsumption.contract_line self) = Some s
         /\ Product.account_revenue_used (ContractService.product s) = None)
  /\ (get_invoice_line db self
      = Raise (UserError "missing_account_revenue_property")
      <-> ContractLine.service (ContractConsumption.contract_line self) = None
          /\ property_account_revenue db "product.template" = None
          /\ property_account_revenue db "product.category" = None).
Proof.
  pose proof (get_invoice_line_cases db self) as H. cbv zeta in H.
  destruct (ContractLine.service (ContractConsumption.contract_line self))
    as [s|].
  - destruct (Product.account_revenue_used (ContractService.product s))
      as [a|] eqn:Ea.
    + split; split.
      * intros E. rewrite E in H.
        destruct H as [((il & Hil) & _)|([Hr|Hr] & _)]; discriminate.
      * intros (s' & [= <-] & Hs'). congruence.
      * intros E. rewrite E in H.
        destruct H as [((il & Hil) & _)|([Hr|Hr] & _)]; discriminate.
      * intros (Hs & _). discriminate.
    + rewrite H. split; split.
      * intros _. eauto.
      * reflexivity.
      * discriminate.
      * intros (Hs & _). discriminate.
  - destruct (property_account_revenue db "product.template") as [a|];
      [|destruct (property_account_revenue db "product.category") as [a|]].
    + split; split.
      * intros E. rewrite E in H.
        destruct H as [((il & Hil) & _)|([Hr|Hr] & _)]; discriminate.
      * intros (s' & Hs' & _). discriminate.
      * intros E. rewrite E in H.
        destruct H as [((il & Hil) & _)|([Hr|Hr] & _)]; discriminate.
      * intros (_ & Ht & _). discriminate.
    + split; split.
      * intros E. rewrite E in H.
        destruct H as [((il & Hil) & _)|([Hr|Hr] & _)]; discriminate.
      * intros (s' & Hs' & _). discriminate.
      * intros E. rewrite E in H.
        destruct H as [((il & Hil) & _)|([Hr|Hr] & _)]; discriminate.
      * intros (_ & _ & Hc). discriminate.
    + rewrite H. split; split.
      * discriminate.
      * intros (s' & Hs' & _). discriminate.
      * auto.
      * reflexivity.
Qed.

(** X19.  [get_invoice_line] returns an invoice line exactly when a revenue
    account is found (the one of the product of the service, or without
    service one of the two default properties), the four dates of the
    consumption are set, its period does not start on the day it ends, and
    the rounding of the unit of the product is not zero.  For a
    consumption whose period is a single day no line is built. *)
Theorem X19_get_invoice_line_succeeds_iff (db : DB)
    (self : ContractConsumption.t) :
  (exists il, get_invoice_line db self = Ok il)
  <-> match ContractLine.service (ContractConsumption.contract_line self) with
      | Some s =>
          Product.account_revenue_used (ContractService.product s) <> None
          /\ ~ Uom.rounding (Product.default_uom (ContractService.product s))
               == 0
      | None =>
          property_account_revenue db "product.template" <> None
          \/ property_account_revenue db "product.category" <> None
      end
      /\ dates_ready self.
Proof.
  pose proof (get_invoice_line_cases db self) as H. cbv zeta in H.
  destruct (ContractLine.service (ContractConsumption.contract_line self))
    as [s|].
  - destruct (Product.account_revenue_used (ContractService.product s))
      as [a|].
    + destruct H as [(Hok & Hready & Hr)|([Herr|Herr] & Hnot)].
      * split; [intros _|auto]. repeat split; auto. discriminate.
      * rewrite Herr. split; [intros (il & Hil); discriminate|].
        intros ((_ & Hr) & Hready). tauto.
      * rewrite Herr. split; [intros (il & Hil); discriminate|].
        intros ((_ & Hr) & Hready). tauto.
    + rewrite H. split; [intros (il & Hil); discriminate|].
      intros ((Ha & _) & _). congruence.
  - destruct (property_account_revenue db "product.template") as [a|];
      [|destruct (property_account_revenue db "product.category") as [a|]].
    + destruct H as [(Hok & Hready)|([Herr|Herr] & Hnot)].
      * split; [intros _|auto]. split; auto. left. discriminate.
      * rewrite Herr. split; [intros (il & Hil); discriminate|tauto].
      * rewrite Herr. split; [intros (il & Hil); discriminate|tauto].
    + destruct H as [(Hok & Hready)|([Herr|Herr] & Hnot)].
      * split; [intros _|auto]. split; auto. right. discriminate.
      * rewrite Herr. split; [intros (il & Hil); discriminate|tauto].
      * rewrite Herr. split; [intros (il & Hil); discriminate|tauto].
    + rewrite H. split; [intros (il & Hil); discriminate|].
      intros ([Ha|Ha] & _); congruence.
Qed.

(** ** The quantity of a line without service *)

Lemma py_round_below_half (a b : Z) :
  0 <= 2 * a < b -> Uom.py_round (inject_Z a / inject_Z b) = 0.
Proof.
  intros Hab. unfold Uom.py_round.
  assert (Hb : (0 < inject_Z b)%Q) by (unfold Qlt, inject_Z; cbn [Qnum Qden]; lia).
  assert (H0 : (0 <= inject_Z a / inject_Z b)%Q).
  { apply Qle_shift_div_l; [exact Hb|]. unfold Qle, Qmult, Qplus, inject_Z; cbn [Qnum Qden]; lia. }
  assert (H1 : (inject_Z a / inject_Z b < 1 # 2)%Q).
  { apply Qlt_shift_div_r; [exact Hb|]. unfold Qlt, Qmult, inject_Z; cbn [Qnum Qden]; lia. }
  apply Qle_bool_iff in H0 as Hle. rewrite Hle.
  set (y := (inject_Z a / inject_Z b + (1 # 2))%Q).
  assert (Hy1 : (y < 1)%Q).
  { unfold y. apply Qlt_le_trans with ((1 # 2) + (1 # 2))%Q.
    - apply Qplus_lt_l. exact H1.
    - unfold Qle, Qmult, Qplus, inject_Z; cbn [Qnum Qden]; lia. }
  assert (Hy0 : (0 < y)%Q).
  { unfold y. apply Qlt_le_trans with (0 + (1 # 2))%Q.
    - reflexivity.
    - apply Qplus_le_l. exact H0. }
  pose proof (Qfloor_le y) as Hf1. pose proof (Qlt_floor y) as Hf2.
  assert (Hlt : (inject_Z (Qfloor y) < inject_Z 1)%Q)
    by (eapply Qle_lt_trans; eauto).
  assert (Hgt : (inject_Z 0 < inject_Z (Qfloor y + 1))%Q)
    by (eapply Qlt_trans; eauto).
  rewrite <- Zlt_Qlt in Hlt, Hgt. lia.
Qed.

Lemma py_round_one (a : Z) :
  a <> 0 -> Uom.py_round (inject_Z a / inject_Z a) = 1.
Proof.
  intros Ha.
  rewrite (py_round_compat _ 1); [reflexivity|].
  apply Qmult_inv_r. rewrite inject_Z_zero. exact Ha.
Qed.

Lemma Qred_inject_Z (z : Z) : Qred (inject_Z z) = inject_Z z.
Proof.
  unfold Qred, inject_Z.
  pose proof (Z.ggcd_gcd z 1) as Hg.
  pose proof (Z.ggcd_correct_divisors z 1) as Hd.
  destruct (Z.ggcd z 1) as [g [aa bb]]. cbn [fst snd] in *.
  rewrite Z.gcd_1_r in Hg. subst g. destruct Hd as (Ha & Hb).
  replace aa with z by lia. replace bb with 1 by lia. reflexivity.
Qed.

Lemma Uom_round_to_units (q : Q) :
  Uom.round q 1 = Ok (inject_Z (Uom.py_round q)).
Proof.
  unfold Uom.round. change (Qeq_bool 1 0) with false. cbv iota. f_equal.
  rewrite (py_round_compat (q / 1) q)
    by (unfold Qdiv; change (/ 1)%Q with 1%Q; apply Qmult_1_r).
  rewrite (Qred_complete (inject_Z (Uom.py_round q) * 1)
             (inject_Z (Uom.py_round q))) by apply Qmult_1_r.
  apply Qred_inject_Z.
Qed.

(** X20.  The invoice line of a consumption whose contract line has no
    service has no product, no unit and no tax, and a quantity in whole
    units: the ratio of the span of the consumption to the span of its
    period, rounded to the nearest integer.  A consumption that spans less
    than half of its period is invoiced with quantity 0, one that spans
    its whole period with quantity 1. *)
Theorem X20_quantity_without_service (db : DB) (self : ContractConsumption.t)
    (il : InvoiceLine.t) (s e ip ep : date) :
  ContractLine.service (ContractConsumption.contract_line self) = None ->
  get_invoice_line db self = Ok il ->
  ContractConsumption.start_date self = Some s ->
  ContractConsumption.end_date self = Some e ->
  ContractConsumption.init_period_date self = Some ip ->
  ContractConsumption.end_period_date self = Some ep ->
  InvoiceLine.product il = None
  /\ InvoiceLine.unit il = None
  /\ InvoiceLine.taxes il = []
  /\ InvoiceLine.quantity il
     = inject_Z (Uom.py_round (inject_Z (e - s) / inject_Z (ep - ip)))
  /\ (0 <= 2 * (e - s) < ep - ip -> InvoiceLine.quantity il = 0%Q)
  /\ (e - s = ep - ip -> InvoiceLine.quantity il = 1%Q).
Proof.
  intros Hs H Hstart Hend Hinit Hperiod.
  pose proof (get_invoice_line_quantity db self il H)
    as (s' & e' & ip' & ep' & Es & Ee & Eip & Eep & Hne & Hunit & Hq & _).
  rewrite Hstart in Es. rewrite Hend in Ee. rewrite Hinit in Eip.
  rewrite Hperiod in Eep.
  inversion Es; inversion Ee; inversion Eip; inversion Eep; subst s' e' ip' ep'.
  rewrite Hs in Hunit. cbn [option_map] in Hunit.
  assert (Hquantity :
            InvoiceLine.quantity il
            = inject_Z (Uom.py_round (inject_Z (e - s) / inject_Z (ep - ip)))).
  { unfold rounding_of in Hq. rewrite Hunit, Uom_round_to_units in Hq.
    inversion Hq. reflexivity. }
  assert (Hshape : InvoiceLine.product il = None /\ InvoiceLine.taxes il = []).
  { unfold get_invoice_line in H. rewrite Hs in H. cbn [option_map] in H.
    bind_inv H as head Hhead. bind_inv Hhead as account Haccount.
    inversion Hhead; subst head. clear Hhead.
    bind_inv H as x1 H1. bind_inv H as x2 H2. bind_inv H as x3 H3.
    bind_inv H as x4 H4. bind_inv H as x5 H5. bind_inv H as x6 H6.
    inversion H; subst il. split; reflexivity. }
  destruct Hshape as (Hproduct & Htaxes).
  repeat split; auto.
  - intros Hhalf. rewrite Hquantity, py_round_below_half by exact Hhalf.
    reflexivity.
  - intros Hfull. rewrite Hquantity, Hfull, py_round_one by exact Hne.
    reflexivity.
Qed.

Lemma X20_quantity_without_service_witness :
  let line := Sample.line_of Sample.monthly in
  let late :=
    get_consumption line (mkdate 2020 1 20) (mkdate 2020 1 31)
      (mkdate 2020 1 31) (mkdate 2020 1 1) (mkdate 2020 1 31) in
  exists il,
    get_invoice_line (Sample.db_of [line] []) late = Ok il
    /\ InvoiceLine.product il = None
    /\ InvoiceLine.unit il = None
    /\ InvoiceLine.taxes il = []
    /\ InvoiceLine.quantity il
       = inject_Z
           (Uom.py_round
              (inject_Z (mkdate 2020 1 31 - mkdate 2020 1 20)
               / inject_Z (mkdate 2020 1 31 - mkdate 2020 1 1)))
    /\ (0 <= 2 * (mkdate 2020 1 31 - mkdate 2020 1 20)
        < mkdate 2020 1 31 - mkdate 2020 1 1 ->
        InvoiceLine.quantity il = 0%Q)
    /\ (mkdate 2020 1 31 - mkdate 2020 1 20
        = mkdate 2020 1 31 - mkdate 2020 1 1 ->
        InvoiceLine.quantity il = 1%Q).
Proof.
  intros line late.
  destruct (get_invoice_line (Sample.db_of [line] []) late) as [il|err] eqn:E;
    [|vm_compute in E; discriminate].
  exists il. split; [reflexivity|].
  exact (X20_quantity_without_service _ late il _ _ _ _ eq_refl E eq_refl
           eq_refl eq_refl eq_refl).
Defined.

(** ** The last consumption date of a line *)

Lemma sql_max_None (column : list (option date)) :
  sql_max column = None -> forall v, In v column -> v = None.
Proof.
  intros H v Hv. destruct v as [x|]; [|reflexivity].
  destruct (sql_max_upper column x Hv) as (m & Hm & _). congruence.
Qed.

Lemma dict_get_getter (db : DB) (lines : list ContractLine.t) (name : string)
    (line : ContractLine.t) :
  In line lines ->
  dict_get (get_last_consumption_date db lines name) (ContractLine.id line)
  = sql_max (map ContractConsumption.end_period_date
               (consumptions_of db (ContractLine.id line))).
Proof.
  unfold get_last_consumption_date.
  induction lines as [|l lines IH]; simpl; [intros []|].
  intros Hin. destruct (Z.eqb_spec (ContractLine.id l) (ContractLine.id line))
    as [E|E].
  - rewrite E. reflexivity.
  - destruct Hin as [->|Hin]; [contradiction|]. apply IH. exact Hin.
Qed.

(** X21.  [get_last_consumption_date] answers for every line it is given.
    Its answer for a line is the greatest end of period among the
    consumptions of the line, a date that one of them carries, and [None]
    when no consumption of the line has an end of period. *)
Theorem X21_last_consumption_date_is_the_greatest_period_end (db : DB)
    (lines : list ContractLine.t) (name : string) (line : ContractLine.t) :
  In line lines ->
  map fst (get_last_consumption_date db lines name)
  = map ContractLine.id lines
  /\ match dict_get (get_last_consumption_date db lines name)
             (ContractLine.id line) with
     | Some m =>
         (exists id c,
             In (id, c) (consumptions db)
             /\ ContractLine.id (ContractConsumption.contract_line c)
                = ContractLine.id line
             /\ ContractConsumption.end_period_date c = Some m)
         /\ forall id c x,
              In (id, c) (consumptions db) ->
              ContractLine.id (ContractConsumption.contract_line c)
              = ContractLine.id line ->
              ContractConsumption.end_period_date c = Some x ->
              x <= m
     | None =>
         forall id c,
           In (id, c) (consumptions db) ->
           ContractLine.id (ContractConsumption.contract_line c)
           = ContractLine.id line ->
           ContractConsumption.end_period_date c = None
     end.
Proof.
  intros Hin. split.
  { unfold get_last_consumption_date. rewrite map_map. reflexivity. }
  rewrite (dict_get_getter db lines name line Hin).
  assert (Hof : forall c,
             In c (consumptions_of db (ContractLine.id line))
             <-> exists id,
                   In (id, c) (consumptions db)
                   /\ ContractLine.id (ContractConsumption.contract_line c)
                      = ContractLine.id line).
  { intros c. unfold consumptions_of. rewrite in_map_iff. split.
    - intros ([id c'] & Hc & Hrow). simpl in Hc. subst c'.
      apply filter_In in Hrow. destruct Hrow as (Hrow & Hid).
      simpl in Hid. apply Z.eqb_eq in Hid. eauto.
    - intros (id & Hrow & Hid). exists (id, c). split; [reflexivity|].
      apply filter_In. split; [exact Hrow|]. simpl. apply Z.eqb_eq. exact Hid. }
  destruct (sql_max _) as [m|] eqn:Em.
  - split.
    + apply sql_max_attained in Em. apply in_map_iff in Em.
      destruct Em as (c & Hc & Hcin). apply Hof in Hcin.
      destruct Hcin as (id & Hrow & Hid). eauto.
    + intros id c x Hrow Hid Hx.
      assert (Hcol : In (Some x)
                       (map ContractConsumption.end_period_date
                          (consumptions_of db (ContractLine.id line)))).
      { apply in_map_iff. exists c. split; [exact Hx|]. apply Hof. eauto. }
      destruct (sql_max_upper _ _ Hcol) as (m' & Hm' & Hle).
      rewrite Em in Hm'. inversion Hm'; subst m'. exact Hle.
  - intros id c Hrow Hid.
    apply (sql_max_None _ Em). apply in_map_iff. exists c.
    split; [reflexivity|]. apply Hof. eauto.
Qed.

Lemma X21_last_consumption_date_is_the_greatest_period_end_witness :
  let line := Sample.line_of Sample.monthly in
  let db :=
    Sample.db_of [line]
      [(1, january_2020 Sample.monthly line); (2, february_2020 line)] in
  dict_get (get_last_consumption_date db [line] "last_consumption_date")
    (ContractLine.id line) = Some (mkdate 2020 2 29)
  /\ forall id c x,
       In (id, c) (consumptions db) ->
       ContractLine.id (ContractConsumption.contract_line c)
       = ContractLine.id line ->
       ContractConsumption.end_period_date c = Some x ->
       x <= mkdate 2020 2 29.
Proof.
  intros line db.
  pose proof (X21_last_consumption_date_is_the_greatest_period_end db [line]
                "last_consumption_date" line (or_introl eq_refl)) as (_ & H).
  change (dict_get (get_last_consumption_date db [line] "last_consumption_date")
            (ContractLine.id line)) with (Some (mkdate 2020 2 29)) in H.
  split; [reflexivity|]. exact (proj2 H).
Defined.

(** ** The next invoice date *)

(** X22.  Whatever the interval of the contract, [get_invoice_date] answers
    the day after the last invoice date for a daily contract, and the
    seventh day after it for a weekly contract. *)
Theorem X22_next_invoice_date_ignores_the_interval (self : Contract.t)
    (f : Dateutil.Freq) (last : date) :
  Contract.freq self = Some f ->
  f = Dateutil.DAILY \/ f = Dateutil.WEEKLY ->
  let days := match f with Dateutil.WEEKLY => 7 | _ => 1 end in
  in_range last ->
  last + days <= Calendar.MAXORD ->
  get_invoice_date self last = Ok (last + days).
Proof.
  intros Hf Hdw days Hrange Hmax.
  assert (Hr : exists r, rrule self = Ok r /\ Dateutil._freq r = f).
  { unfold rrule, rrule_new, Contract_rrule_values. cbn [kw_freq kw_dtstart].
    unfold RRuleMixin_rrule_values. cbn [kw_freq]. rewrite Hf. eauto. }
  destruct Hr as (r & Hr & Hfr).
  rewrite (get_invoice_date_rule self r last Hr), Hfr.
  set (r1 := Dateutil.mk_rrule f 1 last).
  assert (Hp : Dateutil.period r1 1 = Dateutil.Yield (last + days)).
  { unfold Dateutil.period, r1.
    cbn [Dateutil._dtstart Dateutil._freq Dateutil._interval].
    destruct (Calendar.ord2ymd last) as [[y m] d].
    assert (Hwd : 0 <= Dateutil.weekday last)
      by (unfold Dateutil.weekday; apply Z.mod_pos_bound; lia).
    subst days. destruct Hdw as [-> | ->].
    - replace (1 * 1) with 1 by lia.
      destruct (Z.ltb_spec Calendar.MAXORD (last + 1)); [lia|reflexivity].
    - replace (7 * (1 * 1)) with 7 by lia. change (1 =? 0) with false.
      cbv iota.
      destruct (Z.ltb_spec Calendar.MAXORD (last + 7 - Dateutil.weekday last));
        [lia|].
      destruct (Z.ltb_spec Calendar.MAXORD (last + 7)); [lia|reflexivity]. }
  assert (Hfirst : Dateutil.first_after r1 last (last + days)).
  { apply (StartWindow.first_after_dtstart r1); auto. simpl. lia. }
  apply (Termination.after_complete r1) in Hfirst;
    [|simpl; lia|exact Hrange].
  rewrite Hfirst. reflexivity.
Qed.

Lemma X22_next_invoice_date_ignores_the_interval_witness :
  get_invoice_date (with_interval Sample.daily (Some 5)) (mkdate 2020 1 31)
  = Ok (mkdate 2020 1 31 + 1).
Proof.
  refine (X22_next_invoice_date_ignores_the_interval
            (with_interval Sample.daily (Some 5)) Dateutil.DAILY
            (mkdate 2020 1 31) eq_refl (or_introl eq_refl) _ _).
  - unfold in_range. vm_compute. split; discriminate.
  - vm_compute. discriminate.
Defined.

(** ** The reference of a contract *)

Section ReferenceFacts.
Context {Seq : Type} (get_id : Seq -> string * Seq).
Hypothesis get_id_not_empty : forall seq, fst (get_id seq) <> EmptyString.

Lemma lookup_write_reference (table : list (Z * option string)) (w : Z * string)
    (id : Z) :
  lookup (write_reference table w) id
  = option_map (fun v => if fst w =? id then Some (snd w) else v)
      (lookup table id).
Proof.
  unfold write_reference.
  induction table as [|[k v] table IH]; simpl; [reflexivity|].
  destruct (Z.eqb_spec k (fst w)) as [E|E]; simpl.
  - destruct (Z.eqb_spec k id) as [E'|E']; simpl.
    + subst. rewrite Z.eqb_refl. reflexivity.
    + exact IH.
  - destruct (Z.eqb_spec k id) as [E'|E']; simpl.
    + destruct (Z.eqb_spec (fst w) id); [congruence|reflexivity].
    + exact IH.
Qed.

Lemma lookup_write_references (ws : list (Z * string)) (id : Z) :
  forall table,
    lookup (fold_left write_reference ws table) id
    = option_map
        (fun v =>
           fold_left (fun v w => if fst w =? id then Some (snd w) else v) ws v)
        (lookup table id).
Proof.
  induction ws as [|w ws IH]; intros table; simpl.
  - destruct (lookup table id); reflexivity.
  - rewrite IH, lookup_write_reference.
    destruct (lookup table id); reflexivity.
Qed.

Lemma writes_reference_elsewhere (ws : list (Z * string)) (id : Z) :
  ~ In id (map fst ws) ->
  forall v,
    fold_left (fun v w => if fst w =? id then Some (snd w) else v) ws v = v.
Proof.
  induction ws as [|w ws IH]; intros Hnot v; simpl; [reflexivity|].
  simpl in Hnot. destruct (Z.eqb_spec (fst w) id); [tauto|]. apply IH. tauto.
Qed.

Lemma writes_reference_truthy (ws : list (Z * string)) (id : Z) :
  (forall w, In w ws -> snd w <> EmptyString) ->
  forall v,
    has_reference v = true \/ In id (map fst ws) ->
    has_reference
      (fold_left (fun v w => if fst w =? id then Some (snd w) else v) ws v)
    = true.
Proof.
  induction ws as [|w ws IH]; intros Hne v Hv; simpl.
  - destruct Hv as [Hv|[]]. exact Hv.
  - apply IH; [intros w' Hw'; apply Hne; right; exact Hw'|].
    destruct (Z.eqb_spec (fst w) id) as [E|E].
    + left. simpl. specialize (Hne w (or_introl eq_refl)).
      destruct (String.eqb_spec (snd w) EmptyString); [contradiction|reflexivity].
    + destruct Hv as [Hv|[Hv|Hv]]; [auto|contradiction|auto].
Qed.

(** What the loop has collected. *)
Lemma set_reference_loop_spec (table : list (Z * option string))
    (contracts : list Z) :
  forall seq to_write seq' to_write',
    set_reference_loop get_id table contracts seq to_write
    = Ok (seq', to_write') ->
    exists new,
      to_write' = to_write ++ new
      /\ (forall w, In w new ->
            snd w <> EmptyString
            /\ In (fst w) contracts
            /\ exists v, lookup table (fst w) = Some v
                         /\ has_reference v = false)
      /\ (forall id, In id contracts ->
            exists v, lookup table id = Some v
                      /\ (has_reference v = true \/ In id (map fst new))).
Proof.
  induction contracts as [|c contracts IH];
    intros seq to_write seq' to_write' H; simpl in H.
  - inversion H; subst. exists []. rewrite app_nil_r.
    split; [reflexivity|]. split; [intros w []|intros id []].
  - bind_inv H as v Hv. unfold require in Hv.
    destruct (lookup table c) as [v'|] eqn:El; [|discriminate].
    inversion Hv; subst v'. clear Hv.
    destruct (has_reference v) eqn:Ev.
    + destruct (IH _ _ _ _ H) as (new & -> & Hnew & Hall).
      exists new. split; [reflexivity|]. split.
      * intros w Hw. destruct (Hnew w Hw) as (H1 & H2 & H3).
        repeat split; auto. right. exact H2.
      * intros id [<-|Hid]; [eauto|apply Hall; exact Hid].
    + pose proof (get_id_not_empty seq) as Hne.
      destruct (get_id seq) as [r seq1]. simpl in Hne.
      destruct (IH _ _ _ _ H) as (new & -> & Hnew & Hall).
      exists ((c, r) :: new). rewrite <- app_assoc. split; [reflexivity|].
      split.
      * intros w [<-|Hw]; simpl.
        -- repeat split; eauto.
        -- destruct (Hnew w Hw) as (H1 & H2 & H3). repeat split; auto.
      * intros id [<-|Hid].
        -- exists v. split; [exact El|]. right. left. reflexivity.
        -- destruct (Hall id Hid) as (v' & Hv' & Hor). exists v'.
           split; [exact Hv'|]. destruct Hor; [left|right; right]; auto.
Qed.

Lemma set_reference_loop_nothing (table : list (Z * option string))
    (contracts : list Z) (seq : Seq) (to_write : list (Z * string)) :
  (forall id, In id contracts ->
     exists v, lookup table id = Some v /\ has_reference v = true) ->
  set_reference_loop get_id table contracts seq to_write = Ok (seq, to_write).
Proof.
  induction contracts as [|c contracts IH]; intros H; simpl; [reflexivity|].
  destruct (H c (or_introl eq_refl)) as (v & -> & Hv). simpl. rewrite Hv.
  apply IH. intros id Hid. apply H. right. exact Hid.
Qed.

End ReferenceFacts.

(** X23.  [set_reference] never replaces a reference: a contract that has
    one keeps it.  After the call every contract given has a reference, so
    that a second call issues no number and writes nothing. *)
Theorem X23_set_reference_keeps_references {Seq : Type}
    (get_id : Seq -> string * Seq) (table : list (Z * option string))
    (seq : Seq) (contracts : list Z) (table' : list (Z * option string))
    (seq' : Seq) :
  (forall seq, fst (get_id seq) <> EmptyString) ->
  set_reference get_id table seq contracts = Ok (table', seq') ->
  (forall id v, lookup table id = Some v -> has_reference v = true ->
                lookup table' id = Some v)
  /\ (forall id, In id contracts ->
        exists v, lookup table' id = Some v /\ has_reference v = true)
  /\ map fst table' = map fst table
  /\ set_reference get_id table' seq' contracts = Ok (table', seq').
Proof.
  unfold set_reference. intros get_id_not_empty H. bind_inv H as res Hres.
  destruct res as [seq1 to_write]. inversion H; subst table' seq'. clear H.
  destruct (set_reference_loop_spec get_id get_id_not_empty _ _ _ _ _ _ Hres)
    as (new & Hto & Hnew & Hall).
  simpl in Hto. subst to_write.
  assert (Hkeep : forall id v,
             lookup table id = Some v -> has_reference v = true ->
             lookup (fold_left write_reference new table) id = Some v).
  { intros id v Hl Hv. rewrite lookup_write_references, Hl. simpl.
    rewrite writes_reference_elsewhere; [reflexivity|].
    intros Hin. apply in_map_iff in Hin. destruct Hin as (w & Hw & Hin).
    destruct (Hnew w Hin) as (_ & _ & v' & Hv' & Hfalse).
    rewrite Hw, Hl in Hv'. inversion Hv'; subst v'. congruence. }
  assert (Hdone : forall id,
             In id contracts ->
             exists v, lookup (fold_left write_reference new table) id = Some v
                       /\ has_reference v = true).
  { intros id Hid. destruct (Hall id Hid) as (v & Hl & Hor).
    rewrite lookup_write_references, Hl. simpl. eexists. split; [reflexivity|].
    apply writes_reference_truthy; auto.
    intros w Hw. apply (Hnew w Hw). }
  split; [exact Hkeep|]. split; [exact Hdone|]. split.
  - clear. revert table. induction new as [|w new IH]; intros table; simpl;
      [reflexivity|].
    rewrite IH. unfold write_reference. rewrite map_map. apply map_ext.
    intros row. destruct (fst row =? fst w); reflexivity.
  - rewrite (set_reference_loop_nothing get_id _ _ _ _ Hdone). reflexivity.
Qed.


Lemma X23_set_reference_keeps_references_witness :
  let table := [(1, Some "C7"%string); (2, None); (3, Some EmptyString)] in
  let table' :=
    [(1, Some "C7"%string); (2, Some "A"%string); (3, Some "B"%string)] in
  (forall id v, lookup table id = Some v -> has_reference v = true ->
                lookup table' id = Some v)
  /\ (forall id, In id [1; 2; 3] ->
        exists v, lookup table' id = Some v /\ has_reference v = true)
  /\ map fst table' = map fst table
  /\ set_reference sample_sequence table' 2%nat [1; 2; 3] = Ok (table', 2%nat).
Proof.
  intros table table'.
  refine (X23_set_reference_keeps_references sample_sequence table 0%nat
            [1; 2; 3] table' 2%nat _ _).
  - intros seq. discriminate.
  - vm_compute. reflexivity.
Defined.

(** ** Periods of more than a day *)

Module PeriodLength.
Import Calendar CalendarFacts Dateutil DateutilFacts.

(** But for a daily rule, two occurrences are a week apart at least. *)
Lemma period_gap (r : rrule) (k k' i i' : Z) :
  1 <= _interval r ->
  _freq r <> DAILY ->
  0 <= k < k' ->
  period r k = Yield i -> period r k' = Yield i' -> i + 7 <= i'.
Proof.
  intros Hint Hfreq Hk. unfold period.
  destruct (ord2ymd (_dtstart r)) as [[y m] d].
  assert (Hn : 1 <= k' * _interval r - k * _interval r) by nia.
  destruct (_freq r).
  - destruct (MAXYEAR <? _); [discriminate|].
    destruct (d <=? _); [|discriminate].
    destruct (MAXYEAR <? _); [discriminate|].
    destruct (d <=? _); [|discriminate].
    intros H1 H2; apply Yield_inj in H1, H2; subst i i'.
    pose proof (ymd2ord_year_mono (y + k * _interval r) m d
                  (k' * _interval r - k * _interval r) ltac:(lia)) as H.
    replace (y + k * _interval r + (k' * _interval r - k * _interval r))
      with (y + k' * _interval r) in H by lia.
    lia.
  - remember (12 * y + (m - 1)) as base eqn:Ebase. clear Ebase.
    destruct (MAXYEAR <? _); [discriminate|].
    destruct (d <=? _); [|discriminate].
    destruct (MAXYEAR <? _); [discriminate|].
    destruct (d <=? _); [|discriminate].
    intros H1 H2; apply Yield_inj in H1, H2; subst i i'.
    rewrite !ymd2ord_month_start.
    pose proof (month_start_mono (base + k * _interval r)
                  (k' * _interval r - k * _interval r) ltac:(lia)) as H.
    replace (base + k * _interval r + (k' * _interval r - k * _interval r))
      with (base + k' * _interval r) in H by lia.
    lia.
  - destruct (Z.eqb_spec k' 0); [lia|].
    destruct (Z.eqb_spec k 0) as [->|Hk0].
    + destruct (MAXORD <? _); [discriminate|].
      destruct (MAXORD <? _); [discriminate|].
      intros H1 H2; apply Yield_inj in H1, H2; subst i i'. lia.
    + destruct (MAXORD <? _); [discriminate|].
      destruct (MAXORD <? _); [discriminate|].
      destruct (MAXORD <? _); [discriminate|].
      destruct (MAXORD <? _); [discriminate|].
      intros H1 H2; apply Yield_inj in H1, H2; subst i i'. lia.
  - contradiction.
Qed.

Lemma occurrence_gap (r : rrule) (i i' : date) :
  1 <= _interval r ->
  _freq r <> DAILY ->
  occurrence r i -> occurrence r i' -> i < i' -> i + 7 <= i'.
Proof.
  intros Hint Hfreq (k & Hk & Hy) (k' & Hk' & Hy') Hlt.
  destruct (Z.lt_trichotomy k k') as [H|[H|H]].
  - apply (period_gap r k k'); auto; lia.
  - subst k'. rewrite Hy in Hy'. apply Yield_inj in Hy'. lia.
  - pose proof (period_yield_mono r Hint k' k i' i ltac:(lia) Hy' Hy). lia.
Qed.

End PeriodLength.

(** The periods of a run over dates that are a week apart. *)
Lemma consumptions_loop_periods_ready (self : Contract.t)
    (line : ContractLine.t) (dates : list date) :
  forall start lcd lid cs,
    consumptions_loop self line dates start lcd lid = Ok cs ->
    StronglySorted (fun a b => a + 7 <= b) dates ->
    (forall d, In d dates ->
               match lcd with
               | None => Contract.start_period_date self
               | Some _ => start
               end + 2 <= d) ->
    forall c, In c cs -> dates_ready c.
Proof.
  induction dates as [|d dates IH]; intros start lcd lid cs H Hsorted Hlow c Hc.
  - inversion H; subst. destruct Hc.
  - apply consumptions_loop_cons in H.
    destruct H as (inv & rest & _ & Hrest & ->).
    apply StronglySorted_inv in Hsorted. destruct Hsorted as (Hsorted & Hall).
    destruct Hc as [<-|Hc].
    + specialize (Hlow d (or_introl eq_refl)).
      unfold dates_ready. simpl. eexists _, _, _, _.
      repeat (split; [reflexivity|]). destruct lcd; lia.
    + apply (IH d (Some d) (Some inv) rest Hrest Hsorted); auto.
      rewrite Forall_forall in Hall. intros d' Hd'. specialize (Hall d' Hd').
      lia.
Qed.

Lemma StronglySorted_gap (r : Dateutil.rrule) (dates : list date) :
  1 <= Dateutil._interval r ->
  Dateutil._freq r <> Dateutil.DAILY ->
  StronglySorted Z.lt dates ->
  (forall d, In d dates -> Dateutil.occurrence r d) ->
  StronglySorted (fun a b => a + 7 <= b) dates.
Proof.
  intros Hint Hfreq Hs. induction Hs as [|d dates Hs IH Hall]; intros Hocc.
  - constructor.
  - constructor.
    + apply IH. intros d' Hd'. apply Hocc. right. exact Hd'.
    + rewrite Forall_forall in *. intros d' Hd'.
      apply (PeriodLength.occurrence_gap r); auto.
      * apply Hocc. left. reflexivity.
      * apply Hocc. right. exact Hd'.
Qed.

(** X24.  The consumptions generated for a weekly, monthly or yearly
    contract have their four dates set and a period that does not start on
    the day it ends: the division by the span of the period, which fails
    for the consumptions of a daily contract, does not fail for them.  For
    a line that has consumptions, the last period is taken to end on the
    eve of an occurrence of the rule, as the periods that [consume]
    records do. *)
Theorem X24_periods_of_more_than_a_day (db : DB) (self : Contract.t)
    (end_date : date) (line : ContractLine.t)
    (cs : list ContractConsumption.t) (r : Dateutil.rrule)
    (c : ContractConsumption.t) :
  rrule self = Ok r ->
  Dateutil._freq r <> Dateutil.DAILY ->
  in_range (Contract.start_period_date self) ->
  (forall l, last_consumption_date db line = Some l ->
             Dateutil.occurrence r (l + 1)) ->
  line_consumptions db self end_date line = Ok cs ->
  In c cs ->
  dates_ready c.
Proof.
  intros Hr Hfreq Hrange Hlast H Hc.
  apply line_consumptions_Ok in H.
  destruct H as (r' & dates & Hr' & Hb & Hloop).
  rewrite Hr in Hr'. inversion Hr'; subst r'. clear Hr'.
  pose proof (DateutilOrder.between_sorted _ _ _ _ Hb) as Hsorted.
  pose proof (DateutilFacts.between_spec _ _ _ _ Hb) as Hspec.
  destruct (DateutilFacts.between_Ok_inv _ _ _ _ Hb) as (Hint & _).
  assert (Hocc : forall d, In d dates -> Dateutil.occurrence r d)
    by (intros d Hd; apply Hspec in Hd; tauto).
  apply (consumptions_loop_periods_ready _ _ _ _ _ _ _ Hloop); auto.
  - apply (StronglySorted_gap r); auto.
  - intros d Hd. pose proof (Hocc d Hd) as Hd'. apply Hspec in Hd.
    destruct Hd as (_ & Hlo & _).
    destruct (last_consumption_date db line) as [l|]; simpl.
    + pose proof (PeriodLength.occurrence_gap r (l + 1) d Hint Hfreq
                    (Hlast l eq_refl) Hd' ltac:(lia)). lia.
    + assert (Hstart : Dateutil._dtstart r = Contract.start_period_date self).
      { unfold rrule, rrule_new, Contract_rrule_values in Hr.
        cbn [kw_freq kw_dtstart kw_interval] in Hr.
        destruct (kw_freq _); [|discriminate]. inversion Hr. reflexivity. }
      rewrite <- Hstart in Hrange, Hlo |- *.
      pose proof (Termination.dtstart_occurrence r Hrange) as H0.
      pose proof (PeriodLength.occurrence_gap r _ d Hint Hfreq H0 Hd' Hlo).
      lia.
Qed.

Lemma X24_periods_of_more_than_a_day_witness :
  let line := Sample.line_of Sample.monthly in
  dates_ready
    (get_consumption line (mkdate 2020 3 2) (mkdate 2020 3 31)
       (mkdate 2020 3 29) (mkdate 2020 3 2) (mkdate 2020 3 31)).
Proof.
  intros line.
  refine (X24_periods_of_more_than_a_day
            (Sample.db_of [line] [(1, Sample.february)])
            Sample.monthly (mkdate 2020 5 1) line
            [get_consumption line (mkdate 2020 3 2) (mkdate 2020 3 31)
               (mkdate 2020 3 29) (mkdate 2020 3 2) (mkdate 2020 3 31)]
            (Dateutil.mk_rrule Dateutil.MONTHLY 1 (mkdate 2020 1 1))
            _ eq_refl _ _ _ _ _).
  - discriminate.
  - unfold in_range. vm_compute. split; discriminate.
  - intros l Hl. vm_compute in Hl. inversion Hl; subst l.
    exists 2. split; [lia|]. vm_compute. reflexivity.
  - vm_compute. reflexivity.
  - simpl. auto.
Defined.

(** X25.  From the second one on, a consumption of a run covers its whole
    period, and when its contract line has no service the invoice line
    built for it has quantity 1. *)
Theorem X25_full_periods_are_invoiced_whole (db db' : DB) (self : Contract.t)
    (end_date : date) (line : ContractLine.t)
    (cs : list ContractConsumption.t) (n : nat) (c : ContractConsumption.t)
    (il : InvoiceLine.t) :
  line_consumptions db self end_date line = Ok cs ->
  nth_error cs (S n) = Some c ->
  ContractLine.service line = None ->
  get_invoice_line db' c = Ok il ->
  InvoiceLine.quantity il = 1%Q.
Proof.
  intros H Hn Hservice Hil.
  assert (Hprev : exists c0, nth_error cs n = Some c0).
  { destruct (nth_error cs n) as [c0|] eqn:E; [eauto|].
    apply nth_error_None in E.
    assert (Hlt : (S n < List.length cs)%nat)
      by (apply nth_error_Some; congruence).
    lia. }
  destruct Hprev as (c0 & Hn0).
  apply line_consumptions_Ok in H.
  destruct H as (r & dates & _ & _ & Hloop).
  destruct (consumptions_loop_chain _ _ _ _ _ _ _ _ _ _ Hloop Hn0 Hn)
    as (d & _ & _ & _ & Hs & Hip).
  pose proof (consumptions_loop_periods _ _ _ _ _ _ _ Hloop) as Hall.
  destruct (Forall2_In_r _ _ _ _ Hall (nth_error_In _ _ Hn))
    as (d' & _ & Hline & Hep & He).
  pose proof (get_invoice_line_quantity db' c il Hil)
    as (s' & e' & ip' & ep' & Es & Ee & Eip & Eep & Hne & Hunit & _ & Hfull).
  rewrite Hs in Es. rewrite He in Ee. rewrite Hip in Eip. rewrite Hep in Eep.
  inversion Es; inversion Ee; inversion Eip; inversion Eep; subst.
  rewrite Hservice in Hunit. cbn [option_map] in Hunit.
  specialize (Hfull eq_refl). unfold rounding_of in Hfull.
  rewrite Hunit, Uom_round_to_units in Hfull. inversion Hfull. reflexivity.
Qed.

Lemma X25_full_periods_are_invoiced_whole_witness :
  let line := Sample.line_of Sample.monthly in
  exists il,
    get_invoice_line (Sample.db_of [line] []) (february_2020 line) = Ok il
    /\ InvoiceLine.quantity il = 1%Q.
Proof.
  intros line.
  destruct (get_invoice_line (Sample.db_of [line] []) (february_2020 line))
    as [il|err] eqn:E; [|vm_compute in E; discriminate].
  exists il. split; [reflexivity|].
  refine (X25_full_periods_are_invoiced_whole (Sample.db_of [line] []) _
            Sample.monthly (mkdate 2020 4 1) line
            [january_2020 Sample.monthly line; february_2020 line] 0
            (february_2020 line) il _ _ _ E).
  - vm_compute. reflexivity.
  - reflexivity.
  - reflexivity.
Defined.

(** ** A run after recorded consumptions *)

Lemma consumptions_loop_resumed (self : Contract.t) (line : ContractLine.t)
    (dates : list date) :
  forall start lcd lid cs,
    consumptions_loop self line dates start (Some lcd) lid = Ok cs ->
    StronglySorted Z.lt dates ->
    (forall d, In d dates -> start < d) ->
    forall c, In c cs ->
      exists s e,
        ContractConsumption.start_date c = Some s
        /\ ContractConsumption.init_period_date c = Some s
        /\ ContractConsumption.end_date c = Some e
        /\ ContractConsumption.end_period_date c = Some e
        /\ start <= s <= e.
Proof.
  induction dates as [|d dates IH]; intros start lcd lid cs H Hsorted Hlow c Hc.
  - inversion H; subst. destruct Hc.
  - apply consumptions_loop_cons in H.
    destruct H as (inv & rest & _ & Hrest & ->).
    apply StronglySorted_inv in Hsorted. destruct Hsorted as (Hsorted & Hall).
    rewrite Forall_forall in Hall.
    pose proof (Hlow d (or_introl eq_refl)) as Hd.
    destruct Hc as [<-|Hc].
    + simpl. exists start, (d - 1). repeat split; auto; lia.
    + destruct (IH d d (Some inv) rest Hrest Hsorted Hall c Hc)
        as (s & e & H1 & H2 & H3 & H4 & H5).
      exists s, e. repeat split; auto; lia.
Qed.

(** X26.  The consumptions generated for a line that has consumptions lie
    after the last recorded period: each of them starts, and has its period
    start, two days after the last period end at the earliest, and does not
    end before it starts.  No new consumption overlaps a recorded period. *)
Theorem X26_new_consumptions_follow_the_last_period (db : DB)
    (self : Contract.t) (end_date : date) (line : ContractLine.t) (l : date)
    (cs : list ContractConsumption.t) (c : ContractConsumption.t) :
  last_consumption_date db line = Some l ->
  line_consumptions db self end_date line = Ok cs ->
  In c cs ->
  exists s e,
    ContractConsumption.start_date c = Some s
    /\ ContractConsumption.init_period_date c = Some s
    /\ ContractConsumption.end_date c = Some e
    /\ ContractConsumption.end_period_date c = Some e
    /\ l + 2 <= s <= e.
Proof.
  intros Hl H Hc. apply line_consumptions_Ok in H.
  destruct H as (r & dates & _ & Hb & Hloop).
  rewrite Hl in Hb, Hloop. cbn [option_map] in Hloop.
  pose proof (DateutilOrder.between_sorted _ _ _ _ Hb) as Hsorted.
  pose proof (DateutilFacts.between_spec _ _ _ _ Hb) as Hspec.
  apply (consumptions_loop_resumed _ _ _ _ _ _ _ Hloop Hsorted); auto.
  intros d Hd. apply Hspec in Hd. lia.
Qed.

Lemma X26_new_consumptions_follow_the_last_period_witness :
  let line := Sample.line_of Sample.monthly in
  let c :=
    get_consumption line (mkdate 2020 3 2) (mkdate 2020 3 31)
      (mkdate 2020 3 29) (mkdate 2020 3 2) (mkdate 2020 3 31) in
  exists s e,
    ContractConsumption.start_date c = Some s
    /\ ContractConsumption.init_period_date c = Some s
    /\ ContractConsumption.end_date c = Some e
    /\ ContractConsumption.end_period_date c = Some e
    /\ mkdate 2020 2 29 + 2 <= s <= e.
Proof.
  intros line c.
  refine (X26_new_consumptions_follow_the_last_period
            (Sample.db_of [line] [(1, Sample.february)]) Sample.monthly
            (mkdate 2020 5 1) line (mkdate 2020 2 29) [c] c _ _ _).
  - vm_compute. reflexivity.
  - vm_compute. reflexivity.
  - simpl. auto.
Defined.

(** ** A contract given twice *)

(** X27.  [consume] reads the recorded consumptions once, before it creates
    any: when the list of contracts is given twice over, every consumption
    is created twice, the second copies numbered after the first ones. *)
Theorem X27_a_contract_given_twice_is_consumed_twice (db : DB)
    (contracts : list Contract.t) (date : option date) (db1 : DB)
    (created : list (Z * ContractConsumption.t)) :
  consume db contracts date = Ok (db1, created) ->
  let twice :=
    create (consumptions db) (map snd created ++ map snd created) in
  consume db (contracts ++ contracts) date
  = Ok (with_consumptions db (consumptions db ++ twice), twice).
Proof.
  intros H twice. subst twice. unfold consume in *.
  destruct date as [d|]; [|discriminate]. cbn [bind] in *.
  destruct (add_days d 1) as [d'|e]; [|discriminate]. cbn [bind] in *.
  rewrite concat_results_app.
  destruct (concat_results
              (fun contract => get_consumptions db contract (Some d'))
              contracts) as [xs|e]; [|discriminate].
  cbn [bind] in *. inversion H; subst db1 created. clear H.
  assert (E : map snd (create (consumptions db) xs) = xs)
    by apply map_snd_number_from.
  rewrite E. reflexivity.
Qed.

Lemma X27_a_contract_given_twice_is_consumed_twice_witness :
  let line := Sample.line_of Sample.monthly in
  let db := Sample.db_of [line] [] in
  let twice :=
    [(1, january_2020 Sample.monthly line); (2, february_2020 line);
     (3, january_2020 Sample.monthly line); (4, february_2020 line)] in
  consume db ([Sample.monthly] ++ [Sample.monthly]) (Some (mkdate 2020 3 31))
  = Ok (with_consumptions db (consumptions db ++ twice), twice).
Proof.
  intros line db twice.
  refine (X27_a_contract_given_twice_is_consumed_twice db [Sample.monthly]
            (Some (mkdate 2020 3 31))
            (with_consumptions db
               [(1, january_2020 Sample.monthly line);
                (2, february_2020 line)])
            [(1, january_2020 Sample.monthly line); (2, february_2020 line)]
            _).
  vm_compute. reflexivity.
Defined.

(** ** Invoice dates that Python cannot compare *)

Lemma dict_set_In {A : Type} (d : list (Z * A)) (k : Z) (v : A) (x : Z)
    (w : A) :
  In (x, w) (dict_set d k v) -> (x, w) = (k, v) \/ In (x, w) d.
Proof.
  induction d as [|[k' v'] d IH]; simpl.
  - intros [H|[]]; auto.
  - destruct (Z.eqb_spec k' k) as [->|_]; simpl.
    + intros [H|H]; auto.
    + intros [H|H]; [auto|]. destruct (IH H); auto.
Qed.

(** When a line can be built for every id, the first loop of [invoice]
    ends, and its dictionary holds for every id a line of that id. *)
Lemma invoice_loop_total (db : DB) (ids : list Z) :
  (forall x, In x ids ->
     exists cx il, lookup (consumptions db) x = Some cx
                   /\ get_invoice_line db cx = Ok il) ->
  forall st,
    exists st',
      invoice_loop db ids st = (st', Ok tt)
      /\ (forall x, In x ids -> In x (map fst (lines st')))
      /\ (forall x, In x (map fst (lines st)) -> In x (map fst (lines st')))
      /\ forall x v,
           In (x, v) (lines st') ->
           In (x, v) (lines st)
           \/ exists cx, lookup (consumptions db) x = Some cx
                         /\ get_invoice_line db cx = Ok (snd v).
Proof.
  induction ids as [|id ids IH]; intros Hall st; simpl.
  - exists st. split; [reflexivity|]. split; [intros x []|]. split; auto.
  - destruct (Hall id (or_introl eq_refl)) as (cx & il & Hx & Hil).
    unfold browse. rewrite Hx. simpl. rewrite Hil.
    destruct (IH (fun y Hy => Hall y (or_intror Hy))
                {| saved_lines :=
                     saved_lines st ++ [(next_id (saved_lines st), il)];
                   lines :=
                     dict_set (lines st) id (next_id (saved_lines st), il);
                   to_write :=
                     to_write st ++ [(id, next_id (saved_lines st))] |})
      as (st' & Hrun & Hids & Hkeep & Hfrom).
    cbn [lines] in Hkeep, Hfrom.
    destruct (dict_set_keys (lines st) id (next_id (saved_lines st), il))
      as (Hkeys & _).
    exists st'. split; [exact Hrun|]. split; [|split].
    + intros x [<-|Hin]; [|auto]. apply Hkeep, Hkeys. left. reflexivity.
    + intros x Hin. apply Hkeep, Hkeys. right. exact Hin.
    + intros x v Hin. destruct (Hfrom x v Hin) as [Hset|Hnew]; [|auto].
      apply dict_set_In in Hset. destruct Hset as [[= -> ->]|Hold]; [|auto].
      right. exists cx. auto.
Qed.

(** X28.  [invoice] cannot sort the lines of two consumptions that agree on
    the party, the company, the currency and the type of their lines when
    one has an invoice date and the other has none: although a line can be
    built for every consumption given, the call raises [TypeError], leaving
    the invoice lines saved, no invoice created and no consumption
    linked. *)
Theorem X28_an_undated_consumption_beside_a_dated_one (db : DB)
    (ids : list Z) (id1 id2 : Z) (c1 c2 : ContractConsumption.t)
    (il1 il2 : InvoiceLine.t) (d : date) :
  (forall x, In x ids ->
     exists cx il, lookup (consumptions db) x = Some cx
                   /\ get_invoice_line db cx = Ok il) ->
  In id1 ids -> In id2 ids ->
  lookup (consumptions db) id1 = Some c1 ->
  lookup (consumptions db) id2 = Some c2 ->
  get_invoice_line db c1 = Ok il1 ->
  get_invoice_line db c2 = Ok il2 ->
  Party.id (InvoiceLine.party il1) = Party.id (InvoiceLine.party il2) ->
  InvoiceLine.company il1 = InvoiceLine.company il2 ->
  InvoiceLine.currency il1 = InvoiceLine.currency il2 ->
  InvoiceLine.invoice_type il1 = InvoiceLine.invoice_type il2 ->
  ContractConsumption.invoice_date c1 = None ->
  ContractConsumption.invoice_date c2 = Some d ->
  invoice db ids = Raise TypeError
  /\ exists saved,
       invoice_run db ids
       = (with_invoice_lines db (invoice_lines db ++ saved), Raise TypeError)
       /\ List.length saved = List.length ids.
Proof.
  intros Hall Hin1 Hin2 Hc1 Hc2 Hil1 Hil2 Hparty Hcompany Hcurrency Htype
    Hd1 Hd2.
  destruct (invoice_loop_total db ids Hall
              {| saved_lines := invoice_lines db; lines := [];
                 to_write := [] |})
    as (st & Hrun & Hids & _ & Hfrom).
  cbn [lines] in Hfrom.
  assert (Hitem : forall x cx il,
            In x ids -> lookup (consumptions db) x = Some cx ->
            get_invoice_line db cx = Ok il ->
            exists line_id, In (x, (line_id, il)) (lines st)).
  { intros x cx il Hx Hcx Hil. specialize (Hids x Hx).
    apply in_map_iff in Hids. destruct Hids as ([x' [line_id il']] & E & Hin).
    simpl in E. subst x'. exists line_id.
    destruct (Hfrom _ _ Hin) as [[]|(cx' & Hcx' & Hil')].
    simpl in Hil'. replace il with il' by congruence. exact Hin. }
  destruct (Hitem _ _ _ Hin1 Hc1 Hil1) as (n1 & Hitem1).
  destruct (Hitem _ _ _ Hin2 Hc2 Hil2) as (n2 & Hitem2).
  assert (Hsort : sortable (map (_group_invoice_key db) (lines st)) = false).
  { destruct (sortable _) eqn:E; [|reflexivity]. exfalso.
    unfold sortable in E. rewrite forallb_forall in E.
    specialize (E _ (in_map (_group_invoice_key db) _ _ Hitem1)).
    rewrite forallb_forall in E.
    specialize (E _ (in_map (_group_invoice_key db) _ _ Hitem2)).
    unfold _group_invoice_key, key_compare_py, party_compare in E.
    rewrite Hc1, Hc2, Hd1, Hd2, Hparty, Hcompany, Hcurrency, Htype in E.
    rewrite !Z.compare_refl in E.
    pose proof (@cmp_refl string Ordered_string (InvoiceLine.invoice_type il2))
      as Ht.
    change (String.compare (InvoiceLine.invoice_type il2)
              (InvoiceLine.invoice_type il2) = Eq) in Ht.
    rewrite Ht in E. simpl in E. discriminate. }
  apply invoice_loop_spec in Hrun as Hspec.
  destruct Hspec as (ils & HF & Hsaved & _). cbn [saved_lines] in Hsaved.
  assert (E : invoice_run db ids
              = (with_invoice_lines db
                   (invoice_lines db
                    ++ number_from (next_id (invoice_lines db)) ils),
                 Raise TypeError)).
  { unfold invoice_run. rewrite Hrun, Hsort, Hsaved.
    destruct (lines st); [destruct Hitem1|reflexivity]. }
  split.
  - unfold invoice. rewrite E. reflexivity.
  - eexists. split; [exact E|]. rewrite number_from_length. symmetry.
    eapply Forall2_length_eq; eauto.
Qed.

Lemma X28_an_undated_consumption_beside_a_dated_one_witness :
  invoice_lines SampleInvoice.undated_db = []
  /\ map fst (invoice_lines (fst (invoice_run SampleInvoice.undated_db [1; 2])))
     = [1; 2]
  /\ invoice SampleInvoice.undated_db [1; 2] = Raise TypeError
  /\ exists saved,
       invoice_run SampleInvoice.undated_db [1; 2]
       = (with_invoice_lines SampleInvoice.undated_db
            (invoice_lines SampleInvoice.undated_db ++ saved),
          Raise TypeError)
       /\ List.length saved = List.length [1; 2].
Proof.
  split; [reflexivity|]. split; [vm_compute; reflexivity|].
  refine (X28_an_undated_consumption_beside_a_dated_one
            SampleInvoice.undated_db [1; 2] 2 1 _ _ _ _ (mkdate 2020 1 31)
            _ _ _ _ _ _ _ _ _ _ _ _ _).
  - intros x [<-|[<-|[]]]; eexists _, _; split; vm_compute; reflexivity.
  - simpl. auto.
  - simpl. auto.
  - reflexivity.
  - reflexivity.
  - vm_compute. reflexivity.
  - vm_compute. reflexivity.
  - reflexivity.
  - reflexivity.
  - reflexivity.
  - reflexivity.
  - reflexivity.
  - reflexivity.
Defined.
